(** * base-agent: exec transport, exit-code disambiguation and run orchestration

    A shallow embedding of

    - [base_agent/app/errors/errors.py]      (module [errors]),
    - [base_agent/app/kubernetes/ws_client.py] (module [ws_client]),
    - [base_agent/app/kubernetes/manager.py]   (module [manager]),
    - [base_agent/app/entry.py]                (module [entry]),
    - [base_agent/app/message_queue/instance.py] (module [message_queue]),
    - [base_agent/app/storage/s3/]             (module [s3]),
    - [base_agent/app/transfer.py]             (module [transfer]),

    followed by the properties established about them.

    Python objects mutated in place become explicit state passing; a call
    that may raise returns an [Outcome]; everything the process does to the
    outside world (control-plane reads, queue messages, uploads) is recorded
    in a trace or a world record so that "how many times" can be stated. *)

From stdpp Require Import gmap strings list.
From Stdlib Require Import ZArith Ascii.

Set Warnings "-register-all".

(* ===================================================================== *)
(** * Python built-ins used by the sources *)
(* ===================================================================== *)

(** Python [str] is modelled by [string]; every character stands for the
    code point of the same number (0..255). *)
Module Py.

(** [str.isspace] on one character, for code points below 256. *)
Definition isspace (c : ascii) : bool :=
  let n := nat_of_ascii c in
  ((9 <=? n) && (n <=? 13)) || ((28 <=? n) && (n <=? 32))
  || (n =? 133) || (n =? 160).

Fixpoint lstrip (s : string) : string :=
  match s with
  | "" => ""
  | String c s' => if isspace c then lstrip s' else s
  end.

Definition rstrip (s : string) : string := String.rev (lstrip (String.rev s)).

(** [s.strip()] *)
Definition strip (s : string) : string := rstrip (lstrip s).

(** [str.lower] on one character, for code points below 256: the ASCII
    capitals and the Latin-1 capitals (all of 0xC0..0xDE but the
    multiplication sign 0xD7) move up by 32. *)
Definition lower_char (c : ascii) : ascii :=
  let n := nat_of_ascii c in
  if ((65 <=? n) && (n <=? 90))
     || ((192 <=? n) && (n <=? 222) && negb (n =? 215))
  then ascii_of_nat (n + 32) else c.

Fixpoint lower (s : string) : string :=
  match s with
  | "" => ""
  | String c s' => String (lower_char c) (lower s')
  end.

Definition digit (c : ascii) : option Z :=
  let n := nat_of_ascii c in
  if (48 <=? n) && (n <=? 57) then Some (Z.of_nat (n - 48)) else None.

(** The rest of a decimal literal once a first digit has been read:
    digits, each optionally preceded by a single underscore. *)
Fixpoint digits (acc : Z) (s : string) : option Z :=
  match s with
  | "" => Some acc
  | String c s' =>
      match digit c with
      | Some d => digits (10 * acc + d) s'
      | None =>
          if Ascii.eqb c "_" then
            match s' with
            | String c' s'' =>
                match digit c' with
                | Some d => digits (10 * acc + d) s''
                | None => None
                end
            | "" => None
            end
          else None
      end
  end.

(** The blanks [int] skips around a literal: of the code points below
    128 those of C's [isspace], which do not include 28..31, and of the
    others those [str.isspace] accepts. *)
Definition isspace_int (c : ascii) : bool :=
  let n := nat_of_ascii c in
  ((9 <=? n) && (n <=? 13)) || (n =? 32) || (n =? 133) || (n =? 160).

Fixpoint skip_blanks (s : string) : string :=
  match s with
  | "" => ""
  | String c s' => if isspace_int c then skip_blanks s' else s
  end.

(** [int(s)] for a [str] argument in base 10; [None] is [ValueError].
    The bound that CPython 3.11 and later put on the number of digits
    (4300 unless configured) is not part of it. *)
Definition int_of_str (s : string) : option Z :=
  let s := String.rev (skip_blanks (String.rev (skip_blanks s))) in
  let '(neg, body) :=
    match s with
    | String c r =>
        if Ascii.eqb c "-" then (true, r)
        else if Ascii.eqb c "+" then (false, r)
        else (false, s)
    | "" => (false, s)
    end in
  match body with
  | String c r =>
      match digit c with
      | Some d => (λ v, if neg : bool then (- v)%Z else v) <$> digits d r
      | None => None
      end
  | "" => None
  end.

End Py.

(* ===================================================================== *)
(** * errors/errors.py *)
(* ===================================================================== *)

(** The constants of [errors/codes.py] ([from .codes import *]).  Their
    values are not part of the sources at hand, so they are parameters. *)
Class Codes := {
  E_INTERNAL_ERROR : string;
  E_CONFIG_INVALID : string;
  E_FUZZER_LAUNCH_ERROR : string;
  E_FUZZER_ABORTED : string;
  E_RAM_LIMIT_EXCEEDED : string;
  E_TMPFS_LIMIT_EXCEEDED : string;
}.

Module errors.

(** The exception classes of the module, one constructor per [class]. *)
Inductive ErrClass :=
| CAgentError
| CInternalError
| CInvalidConfigError
| CFuzzerLaunchError
| CFuzzerAbortedError
| CFileDownloadError
| CRemoteFileDeleteError
| CRemoteFileLookupError
| CFileUploadError
| CResourceLimitExceeded
| CRamLimitExceeded
| CTmpfsLimitExceeded
| CTimeLimitExceeded.

Global Instance ErrClass_eq_dec : EqDecision ErrClass.
Proof. solve_decision. Defined.

(** The base class written in each [class X(Base)] header; [AgentError]
    itself derives from [Exception]. *)
Definition base (c : ErrClass) : option ErrClass :=
  match c with
  | CAgentError => None
  | CInternalError => Some CAgentError
  | CInvalidConfigError => Some CAgentError
  | CFuzzerLaunchError => Some CAgentError
  | CFuzzerAbortedError => Some CAgentError
  | CFileDownloadError => Some CInternalError
  | CRemoteFileDeleteError => Some CInternalError
  | CRemoteFileLookupError => Some CInternalError
  | CFileUploadError => Some CInternalError
  | CResourceLimitExceeded => Some CAgentError
  | CRamLimitExceeded => Some CResourceLimitExceeded
  | CTmpfsLimitExceeded => Some CResourceLimitExceeded
  | CTimeLimitExceeded => Some CInternalError
  end.

Fixpoint ancestors (fuel : nat) (c : ErrClass) : list ErrClass :=
  c :: match fuel, base c with
       | S n, Some b => ancestors n b
       | _, _ => []
       end.

(** The method resolution order below [Exception]; the hierarchy is three
    levels deep. *)
Definition mro (c : ErrClass) : list ErrClass := ancestors 3 c.

Definition issubclass (c d : ErrClass) : bool := bool_decide (d ∈ mro c).

(** An [AgentError] instance: its class and [self.args]. *)
Record AgentError := mkAgentError {
  cls : ErrClass;
  code : string;
  message : string;
  details : option string;
}.

Global Instance AgentError_eq_dec : EqDecision AgentError.
Proof. solve_decision. Defined.

Definition isinstance (e : AgentError) (d : ErrClass) : bool :=
  issubclass (cls e) d.

Section Constructors.
Context `{codes : !Codes}.

(** [InternalError.__init__], inherited unchanged by every subclass
    whose body is [pass]. *)
Definition InternalError_init (c : ErrClass) (details : option string)
  : AgentError :=
  mkAgentError c E_INTERNAL_ERROR "Internal error" details.

Definition InternalError (details : option string) : AgentError :=
  InternalError_init CInternalError details.



Definition FuzzerAbortedError : AgentError :=
  mkAgentError CFuzzerAbortedError E_FUZZER_ABORTED "Fuzzer aborted" None.

Definition FileDownloadError := InternalError_init CFileDownloadError.
Definition RemoteFileDeleteError := InternalError_init CRemoteFileDeleteError.
Definition RemoteFileLookupError := InternalError_init CRemoteFileLookupError.
Definition FileUploadError := InternalError_init CFileUploadError.

Definition RamLimitExceeded : AgentError :=
  mkAgentError CRamLimitExceeded E_RAM_LIMIT_EXCEEDED
    "Ram limit exceeded" None.

Definition TmpfsLimitExceeded : AgentError :=
  mkAgentError CTmpfsLimitExceeded E_TMPFS_LIMIT_EXCEEDED
    "No space left on tmpfs" None.

Definition TimeLimitExceeded := InternalError_init CTimeLimitExceeded.
End Constructors.

End errors.

(* ===================================================================== *)
(** * Exceptions and outcomes *)
(* ===================================================================== *)

(** What a Python call can raise, as far as the handlers of this program
    tell exceptions apart. *)
Inductive Exn :=
| ExAgentError (e : errors.AgentError)
| ApiException (status : Z) (reason : string)
| CancelledError
| PyException (name : string)       (* any other subclass of Exception *)
| PyBaseException (name : string).  (* SystemExit and the like *)

Inductive Outcome (A : Type) :=
| Return (a : A)
| Raise (e : Exn).
Global Arguments Return {A} a.
Global Arguments Raise {A} e.

Global Instance Outcome_ret : MRet Outcome := λ A a, Return a.

Global Instance Outcome_bind : MBind Outcome := λ A B k m,
  match m with
  | Return a => k a
  | Raise e => Raise e
  end.

(* ===================================================================== *)
(** * kubernetes/ws_client.py *)
(* ===================================================================== *)

(** What [yaml.safe_load] builds.  A float is kept as what [int()] makes
    of it ([None] for nan and the infinities); a mapping is kept as its
    items with string keys, each key once, which is all a subscript by a
    string literal can observe. *)
Inductive Yaml :=
| YNull
| YBool (b : bool)
| YInt (z : Z)
| YFloat (truncated : option Z)
| YStr (s : string)
| YSeq (l : list Yaml)
| YMap (items : list (string * Yaml)).

(** Library functions the sources call and this development does not
    re-implement; [None] stands for the library raising. *)
Class PyLibs := {
  yaml_safe_load : string → option Yaml;
  b64decode : string → option string;
  (** [asyncio.CancelledError] derives from [Exception] up to Python 3.7
      and from [BaseException] from 3.8 on; [setup.py] admits both. *)
  cancelled_is_exception : bool;
}.

Module ws_client.

Definition STDIN_CHANNEL : nat := 0.
Definition STDOUT_CHANNEL : nat := 1.
Definition STDERR_CHANNEL : nat := 2.
Definition ERROR_CHANNEL : nat := 3.
Definition RESIZE_CHANNEL : nat := 4.

Record ExecWSClient := mkExecWSClient {
  _connected : bool;
  _channels : gmap nat string;
  stdout : bool;
  stderr : bool;
  combine_output : bool;
  _returncode : option Z;
}.

Definition set_connected (b : bool) (self : ExecWSClient) : ExecWSClient :=
  mkExecWSClient b (_channels self) (stdout self) (stderr self)
    (combine_output self) (_returncode self).

Definition set_channels (m : gmap nat string) (self : ExecWSClient)
  : ExecWSClient :=
  mkExecWSClient (_connected self) m (stdout self) (stderr self)
    (combine_output self) (_returncode self).

Definition set_returncode (r : option Z) (self : ExecWSClient)
  : ExecWSClient :=
  mkExecWSClient (_connected self) (_channels self) (stdout self)
    (stderr self) (combine_output self) r.

(** [ExecWSClient.__init__].  In Python [not] binds tighter than [and],
    and [and] tighter than [or]. *)
Definition __init__ (stdout stderr combine_output : bool) : ExecWSClient :=
  let reset := negb stdout || (negb stderr && combine_output) in
  let stdout := if reset then true else stdout in
  let stderr := if reset then true else stderr in
  mkExecWSClient true ∅ stdout stderr combine_output None.

(** [dict.get(channel, default)] *)
Definition peek_channel (self : ExecWSClient) (channel : nat)
    (default : option string) : option string :=
  match _channels self !! channel with
  | Some s => Some s
  | None => default
  end.

(** [dict.pop(channel, default)]: the value and the session afterwards. *)
Definition read_channel (self : ExecWSClient) (channel : nat)
    (default : option string) : option string * ExecWSClient :=
  match _channels self !! channel with
  | Some s => (Some s, set_channels (delete channel (_channels self)) self)
  | None => (default, self)
  end.

Definition peek_stdout (self : ExecWSClient) (default : option string) :=
  peek_channel self STDERR_CHANNEL default.

Definition read_stdout (self : ExecWSClient) (default : option string) :=
  read_channel self STDOUT_CHANNEL default.

Definition peek_stderr (self : ExecWSClient) (default : option string) :=
  peek_channel self STDERR_CHANNEL default.

Definition read_stderr (self : ExecWSClient) (default : option string) :=
  read_channel self STDERR_CHANNEL default.

Definition is_open (self : ExecWSClient) : bool := _connected self.

(** [aiohttp.WSMsgType], as far as [update] tells the types apart. *)
Inductive WSMsgType := CLOSE | BINARY | TEXT | OTHER.

(** A received message; [data] is the text after
    [decode("utf-8", "replace")] when the frame was binary. *)
Record WSMessage := mkWSMessage { type : WSMsgType; data : string }.

(** What [await self.sock.receive()] under [async_timeout.timeout] does
    in one call of [update]. *)
Inductive Receive :=
| Timeout
| Message (msg : WSMessage).

(** The condition of the [if] that lets a frame through. *)
Definition passes_filter (self : ExecWSClient) (channel : nat) : bool :=
  negb (bool_decide (channel ∈ [STDOUT_CHANNEL; STDERR_CHANNEL]))
  || ((channel =? STDOUT_CHANNEL) && stdout self)
  || ((channel =? STDERR_CHANNEL) && stderr self).

(** The channel after [channel = STDOUT_CHANNEL # combine output]. *)
Definition target_channel (self : ExecWSClient) (channel : nat) : nat :=
  if (channel =? STDERR_CHANNEL) && combine_output self
  then STDOUT_CHANNEL else channel.

(** The body executed on a BINARY or TEXT message. *)
Definition on_data (self : ExecWSClient) (data : string) : ExecWSClient :=
  if 2 <? String.length data then
    match data with
    | String c data =>
        let channel := nat_of_ascii c in
        if passes_filter self channel then
          let channel := target_channel self channel in
          match _channels self !! channel with
          | None => set_channels (<[channel := data]> (_channels self)) self
          | Some old =>
              set_channels (<[channel := old +:+ data]> (_channels self)) self
          end
        else self
    | "" => self
    end
  else self.

(** [update(timeout)]: [sock_closed] is [self.sock.closed] and [r] is what
    the socket delivers, should the call get as far as receiving. *)
Definition update (self : ExecWSClient) (timeout : Z) (sock_closed : bool)
    (r : Receive) : ExecWSClient :=
  if negb (is_open self) then self
  else if sock_closed then set_connected false self
  else if (timeout <=? 0)%Z then self
  else
    match r with
    | Timeout => self
    | Message msg =>
        match type msg with
        | CLOSE => set_connected false self
        | BINARY | TEXT => on_data self (data msg)
        | OTHER => self
        end
    end.

(** [close()] *)
Definition close (self : ExecWSClient) : ExecWSClient :=
  set_connected false self.

(** Subscripts and conversions applied to the decoded status. *)
Definition getitem_str (y : Yaml) (k : string) : Outcome Yaml :=
  match y with
  | YMap items =>
      match (list_to_map items : gmap string Yaml) !! k with
      | Some v => Return v
      | None => Raise (PyException "KeyError")
      end
  | _ => Raise (PyException "TypeError")
  end.

Definition getitem_0 (y : Yaml) : Outcome Yaml :=
  match y with
  | YSeq (v :: _) => Return v
  | YSeq [] => Raise (PyException "IndexError")
  | YStr (String c _) => Return (YStr (String c ""))
  | YStr "" => Raise (PyException "IndexError")
  | YMap _ => Raise (PyException "KeyError")
  | _ => Raise (PyException "TypeError")
  end.

Definition eq_str (y : Yaml) (s : string) : bool :=
  match y with
  | YStr s' => bool_decide (s' = s)
  | _ => false
  end.

Definition int (y : Yaml) : Outcome Z :=
  match y with
  | YStr s =>
      match Py.int_of_str s with
      | Some z => Return z
      | None => Raise (PyException "ValueError")
      end
  | YInt z => Return z
  | YBool b => Return (if b then 1 else 0)%Z
  | YFloat (Some z) => Return z
  | YFloat None => Raise (PyException "ValueError")
  | _ => Raise (PyException "TypeError")
  end.

Section Returncode.
Context `{libs : !PyLibs}.

(** [err['details']['causes'][0]['message']] *)
Definition first_cause_message (err : Yaml) : Outcome Yaml :=
  d ← getitem_str err "details";
  cs ← getitem_str d "causes";
  c ← getitem_0 cs;
  getitem_str c "message".

(** The value stored into [self._returncode] for payload [err]. *)
Definition decode_status (err : string) : Outcome Z :=
  match yaml_safe_load err with
  | None => Raise (PyException "YAMLError")
  | Some err =>
      status ← getitem_str err "status";
      if eq_str status "Success" then Return 0%Z
      else m ← first_cause_message err; int m
  end.

(** The [returncode] property: what a read yields and the session
    afterwards. *)
Definition returncode (self : ExecWSClient)
  : Outcome (option Z) * ExecWSClient :=
  if is_open self then (Return None, self)
  else
    match _returncode self with
    | Some rc => (Return (Some rc), self)
    | None =>
        match peek_channel self ERROR_CHANNEL None with
        | None => (Raise (ApiException 500 "Broken connection"), self)
        | Some err =>
            match decode_status err with
            | Return rc => (Return (Some rc), set_returncode (Some rc) self)
            | Raise e => (Raise e, self)
            end
        end
    end.

(** The life of a session: the calls a client makes on it, in order.
    [history] is the session these calls leave behind. *)
Inductive Call :=
| CallUpdate (timeout : Z) (sock_closed : bool) (r : Receive)
| CallRead (channel : nat) (default : option string)
| CallReturncode
| CallClose.

Definition after (self : ExecWSClient) (c : Call) : ExecWSClient :=
  match c with
  | CallUpdate timeout sock_closed r => update self timeout sock_closed r
  | CallRead channel default => (read_channel self channel default).2
  | CallReturncode => (returncode self).2
  | CallClose => close self
  end.

Definition history (self : ExecWSClient) (cs : list Call) : ExecWSClient :=
  foldl after self cs.
End Returncode.

(** A frame as the exec substrate sends it: the channel byte, then the
    payload. *)
Definition frame (channel : ascii) (payload : string) : Receive :=
  Message (mkWSMessage BINARY (String channel payload)).

(** Does this call receive a data message led by [channel]? *)
Definition receives_on (channel : nat) (c : Call) : bool :=
  match c with
  | CallUpdate _ _ (Message (mkWSMessage (BINARY | TEXT) (String ch _))) =>
      nat_of_ascii ch =? channel
  | _ => false
  end.

(** One [update] per frame, each with a live socket and a positive
    timeout. *)
Definition feed (self : ExecWSClient) (frames : list (ascii * string))
    : ExecWSClient :=
  foldl (λ self f, update self 5 false (frame f.1 f.2)) self frames.

(** The payloads addressed to [channel], in the order of arrival. *)
Fixpoint payloads_of (channel : nat) (frames : list (ascii * string))
    : list string :=
  match frames with
  | [] => []
  | (ch, payload) :: rest =>
      if nat_of_ascii ch =? channel
      then payload :: payloads_of channel rest
      else payloads_of channel rest
  end.

Fixpoint join (l : list string) : string :=
  match l with
  | [] => ""
  | s :: l => s +:+ join l
  end.

End ws_client.

(* ===================================================================== *)
(** * kubernetes/manager.py *)
(* ===================================================================== *)

Module manager.
Import errors ws_client.

(** The parts of the control-plane objects the sources read. *)
Record V1ContainerStateTerminated := mkTerminated {
  exit_code : Z;
  reason : string;
}.

Record V1ContainerState := mkState {
  running : option unit;
  terminated : option V1ContainerStateTerminated;
  waiting : option unit;
}.

Record V1ContainerStatus := mkStatus {
  name : string;
  state : V1ContainerState;
}.

(** The response of [read_namespaced_pod_log(_preload_content=False)];
    [body] is the text after [decode("utf-8", "replace")]. *)
Record ClientResponse := mkResponse {
  status : Z;
  resp_reason : string;
  body : string;
}.

(** [UserContainerManager]: the settings it copies in [__init__] and the
    two paths of [BasePaths] that [exec_command] uses. *)
Record UserContainerManager := mkManager {
  _namespace : string;
  _pod_name : string;
  _user_container : string;
  runner_binary : string;
  runner_config : string;
}.

(** Requests sent to the outside, in the order they are made. *)
Inductive ApiCall :=
| WriteRunnerConfig (path : string)
| ConnectExec (name namespace container : string) (command : list string)
| ReadNamespacedPod (namespace name : string)
| ReadNamespacedPodLog (namespace name container : string).

Global Instance ApiCall_eq_dec : EqDecision ApiCall.
Proof. solve_decision. Defined.

(** A read of the pod, which is how a container status is fetched. *)
Definition is_status_fetch (c : ApiCall) : bool :=
  match c with
  | ReadNamespacedPod _ _ => true
  | _ => false
  end.

Definition status_fetches (t : list ApiCall) : nat :=
  length (filter (λ c, is_status_fetch c = true) t).

(** A computation that may raise and appends to the request trace. *)
Definition Api (A : Type) : Type := list ApiCall → Outcome A * list ApiCall.

Definition ret {A} (a : A) : Api A := λ t, (Return a, t).
Definition raise {A} (e : Exn) : Api A := λ t, (Raise e, t).
Definition lift {A} (o : Outcome A) : Api A := λ t, (o, t).
Definition call (c : ApiCall) : Api unit := λ t, (Return tt, t ++ [c]).
Definition then_ {A B} (m : Api A) (k : A → Api B) : Api B := λ t,
  match m t with
  | (Return a, t') => k a t'
  | (Raise e, t') => (Raise e, t')
  end.

Notation "x <- m ;; k" := (then_ m (λ x, k))
  (at level 100, m at next level, right associativity, only parsing).
Notation "m ;; k" := (then_ m (λ _, k))
  (at level 100, right associativity, only parsing).

(** The [for cont_status in cont_statuses] loop of
    [read_fuzzer_container]. *)
Fixpoint first_other (user_container : string)
    (cont_statuses : list V1ContainerStatus) : option V1ContainerStatus :=
  match cont_statuses with
  | [] => None
  | cont_status :: rest =>
      if negb (bool_decide (name cont_status = user_container))
      then Some cont_status
      else first_other user_container rest
  end.

(** [read_fuzzer_container]; [pod] is what [read_namespaced_pod] answers,
    reduced to [pod.status.container_statuses]. *)
Definition read_fuzzer_container (self : UserContainerManager)
    (pod : Outcome (list V1ContainerStatus)) : Api V1ContainerStatus :=
  call (ReadNamespacedPod (_namespace self) (_pod_name self)) ;;
  cont_statuses <- lift pod ;;
  match first_other (_user_container self) cont_statuses with
  | Some cont_status => ret cont_status
  | None => raise (ApiException 404 "Fuzzer container not found")
  end.

(** [read_monitor_output]; [resp] is what [read_namespaced_pod_log]
    answers. *)
Definition read_monitor_output (self : UserContainerManager)
    (resp : Outcome ClientResponse) : Api string :=
  call (ReadNamespacedPodLog (_namespace self) (_pod_name self)
          (_user_container self)) ;;
  resp <- lift resp ;;
  if negb (status resp =? 200)%Z
  then raise (ApiException (status resp) (resp_reason resp))
  else ret (body resp).

(** What the outside answers during one [exec_command]. *)
Record ExecEnv := mkExecEnv {
  write_config : Outcome unit;
  connect : Outcome unit;
  (** one entry per [update] call: [sock.closed] and the receive *)
  frames : list (bool * Receive);
  pod : Outcome (list V1ContainerStatus);
  pod_log : Outcome ClientResponse;
}.

(** The [while resp.is_open()] loop.  [None]: the loop has not ended when
    the script of receives has. *)
Fixpoint drain (resp : ExecWSClient) (runner_output runner_logs : string)
    (script : list (bool * Receive))
    : option (ExecWSClient * string * string) :=
  if is_open resp then
    match script with
    | [] => None
    | (sock_closed, r) :: script =>
        let resp := update resp 5 sock_closed r in
        let '(err, resp) := read_stderr resp (Some "") in
        let runner_logs := runner_logs +:+ default "" err in
        let '(out, resp) := read_stdout resp (Some "") in
        let runner_output := runner_output +:+ default "" out in
        drain resp runner_output runner_logs script
    end
  else Some (resp, runner_output, runner_logs).

Section Exec.
Context `{codes : !Codes, libs : !PyLibs}.

(** The branch of [exec_command] entered with the status [cont_info]
    that [read_fuzzer_container] returned. *)
Definition disambiguate (self : UserContainerManager)
    (cont_info : V1ContainerStatus) (runner_logs : string)
    (env : ExecEnv) : Api Z :=
  let cont_state := state cont_info in
  match terminated cont_state with
  | None => raise (ExAgentError (InternalError None))
  | Some cont_state_term =>
      let monitor_exitcode := exit_code cont_state_term in
      if (monitor_exitcode =? 101)%Z then
        raise (ExAgentError TmpfsLimitExceeded)
      else if (monitor_exitcode =? 102)%Z then
        raise (ExAgentError FuzzerAbortedError)
      else
        let reason := reason cont_state_term in
        if bool_decide (Py.lower (Py.strip reason) = "oomkilled") then
          raise (ExAgentError RamLimitExceeded)
        else
          monitor_logs <- read_monitor_output self (pod_log env) ;;
          raise (ExAgentError (InternalError None))
  end.

(** [exec_command] from [if runner_exitcode == 101] on. *)
Definition exec_dispatch (self : UserContainerManager)
    (runner_exitcode : Z) (runner_output runner_logs : string)
    (env : ExecEnv) : Api Z :=
  if (runner_exitcode =? 101)%Z then
    raise (ExAgentError (TimeLimitExceeded None))
  else if bool_decide (runner_exitcode ∈ [102; 128 + 9; 128 + 15]%Z) then
    cont_info <- read_fuzzer_container self (pod env) ;;
    disambiguate self cont_info runner_logs env
  else if negb (runner_exitcode =? 0)%Z then
    raise (ExAgentError (InternalError None))
  else
    match Py.int_of_str (Py.strip runner_output) with
    | None => raise (ExAgentError (InternalError None))
    | Some process_exitcode => ret process_exitcode
    end.

(** [exec_command].  The outer [None]: the drain loop is still running
    when the script of receives ends. *)
Definition exec_command (self : UserContainerManager) (env : ExecEnv)
    : option (Outcome Z * list ApiCall) :=
  match (call (WriteRunnerConfig (runner_config self)) ;;
         lift (write_config env) ;;
         call (ConnectExec (_pod_name self) (_namespace self)
                 (_user_container self)
                 [runner_binary self; runner_config self]) ;;
         lift (connect env)) [] with
  | (Raise e, t) => Some (Raise e, t)
  | (Return _, t) =>
      let resp := __init__ true true false in
      match drain resp "" "" (frames env) with
      | None => None
      | Some (resp, runner_output, runner_logs) =>
          match returncode resp with
          | (Raise e, _) => Some (Raise e, t)
          | (Return None, _) =>
              Some (Raise (PyException "AssertionError"), t)
          | (Return (Some runner_exitcode), _) =>
              Some (exec_dispatch self runner_exitcode
                      runner_output runner_logs env t)
          end
      end
  end.
End Exec.

End manager.

(* ===================================================================== *)
(** * entry.py *)
(* ===================================================================== *)

Module entry.
Import errors.

(** ** [signal_handler] *)

(** Signal numbers, [signal.Signals], as Linux numbers them. *)
Definition Signals := nat.
Definition SIGHUP : Signals := 1.
Definition SIGINT : Signals := 2.
Definition SIGKILL : Signals := 9.
Definition SIGTERM : Signals := 15.
Definition SIGSTOP : Signals := 19.

(** The signals whose disposition [signal.signal] accepts to change; for
    the two others it raises OSError. *)
Definition catchable (signum : Signals) : bool :=
  negb (bool_decide (signum = SIGKILL))
  && negb (bool_decide (signum = SIGSTOP)).

(** A disposition: one that was there before the wrapper ran (SIG_DFL,
    SIG_IGN or some callable, told apart by a number), or the closure
    [_signal_handler] made by [get_handler(task)]. *)
Inductive Handler :=
| Prior (h : nat)
| new_handler.

Global Instance Handler_eq_dec : EqDecision Handler.
Proof. solve_decision. Defined.

(** Where one activation of [_signal_handler] stands.  Python runs the
    handler of a signal in the main thread, between two instructions of
    whatever that thread is executing: an activation can begin while
    another one has not returned, and the older one goes on only when
    the younger one has returned. *)
Inductive Frame :=
| Entering     (* called; [with _lock] has not got the lock yet *)
| Checking     (* has the lock; before [if _catched] *)
| Logging      (* before the calls of the logger *)
| Setting      (* before [_catched = True] *)
| Cancelling   (* before [task.cancel()] *)
| Leaving.     (* before the lock is released and the handler returns *)

Global Instance Frame_eq_dec : EqDecision Frame.
Proof. solve_decision. Defined.

(** Where the body of [wrapper] stands. *)
Inductive Phase :=
| Installing (rest : list Signals)             (* the first [for] loop *)
| Awaiting                                     (* [return await task] *)
| Restoring (rest : list (Signals * Handler))  (* the loop in [finally] *)
| Finished     (* [wrapper] is left, with the result or the exception of
                  the task *)
| Refused.     (* [wrapper] is left with the OSError of [signal] *)

Record Wrapper := mkWrapper {
  (** the dispositions of the process: [getsignal] reads, [signal] writes *)
  table : Signals → Handler;
  _handlers : list Handler;
  (** the [nonlocal] flag of the closure *)
  _catched : bool;
  (** how many times [task.cancel()] has been called *)
  cancel_calls : nat;
  phase : Phase;
  (** the activations of the handler that have not returned, the
      youngest first *)
  frames : list Frame;
}.

Definition set_frames (frames : list Frame) (w : Wrapper) : Wrapper :=
  mkWrapper (table w) (_handlers w) (_catched w) (cancel_calls w) (phase w)
    frames.

(** [signal.signal(signum, h)]: the table afterwards, [None] for
    OSError. *)
Definition signal (signum : Signals) (h : Handler)
    (table : Signals → Handler) : option (Signals → Handler) :=
  if catchable signum
  then Some (λ s, if bool_decide (s = signum) then h else table s)
  else None.

(** [_lock] is a [threading.Lock]: it is held by the activation that is
    past its [with _lock], whichever thread asks. *)
Definition holds_lock (f : Frame) : bool :=
  match f with
  | Entering => false
  | _ => true
  end.

(** The next statement of the youngest activation [f] of the closure
    [_signal_handler], the older ones being [older].  An activation that
    asks for a lock that is held waits. *)
Definition _signal_handler (f : Frame) (older : list Frame) (w : Wrapper)
    : Wrapper :=
  match f with
  | Entering =>
      if existsb holds_lock older then w
      else set_frames (Checking :: older) w
  | Checking =>
      if _catched w then set_frames older w
      else set_frames (Logging :: older) w
  | Logging => set_frames (Setting :: older) w
  | Setting =>
      mkWrapper (table w) (_handlers w) true (cancel_calls w) (phase w)
        (Cancelling :: older)
  | Cancelling =>
      mkWrapper (table w) (_handlers w) (_catched w) (S (cancel_calls w))
        (phase w) (Leaving :: older)
  | Leaving => set_frames older w
  end.

(** [wrapper] when it is entered; [prior s] numbers the disposition of
    signal [s] at that moment. *)
Definition start (signums : list Signals) (prior : Signals → nat)
    : Wrapper :=
  mkWrapper (λ s, Prior (prior s)) [] false 0 (Installing signums) [].

(** The next statement of [wrapper]; while awaiting: the task ends, with
    a result or an exception. *)
Definition wrapper (signums : list Signals) (w : Wrapper) : Wrapper :=
  match phase w with
  | Installing (signum :: rest) =>
      let _handlers := _handlers w ++ [table w signum] in
      match signal signum new_handler (table w) with
      | Some table =>
          mkWrapper table _handlers (_catched w) (cancel_calls w)
            (Installing rest) (frames w)
      | None =>
          mkWrapper (table w) _handlers (_catched w) (cancel_calls w)
            (Restoring (zip signums _handlers)) (frames w)
      end
  | Installing [] =>
      mkWrapper (table w) (_handlers w) (_catched w) (cancel_calls w)
        Awaiting (frames w)
  | Awaiting =>
      mkWrapper (table w) (_handlers w) (_catched w) (cancel_calls w)
        (Restoring (zip signums (_handlers w))) (frames w)
  | Restoring ((signum, old_handler) :: rest) =>
      match signal signum old_handler (table w) with
      | Some table =>
          mkWrapper table (_handlers w) (_catched w) (cancel_calls w)
            (Restoring rest) (frames w)
      | None =>
          mkWrapper (table w) (_handlers w) (_catched w) (cancel_calls w)
            Refused (frames w)
      end
  | Restoring [] =>
      mkWrapper (table w) (_handlers w) (_catched w) (cancel_calls w)
        Finished (frames w)
  | Finished | Refused => w
  end.

Inductive Event :=
| Deliver (signum : Signals)   (* the process receives a signal *)
| Advance.                     (* the main thread executes its next
                                  statement *)

(** The main thread goes on with the youngest activation of a handler,
    and with [wrapper] when there is none.  A signal whose disposition
    is the closure begins an activation of it; one whose disposition is
    a prior one is left to that and is not followed here. *)
Definition step (signums : list Signals) (w : Wrapper) (ev : Event)
    : Wrapper :=
  match ev with
  | Deliver signum =>
      match table w signum with
      | new_handler => set_frames (Entering :: frames w) w
      | Prior _ => w
      end
  | Advance =>
      match frames w with
      | f :: older => _signal_handler f older w
      | [] => wrapper signums w
      end
  end.

Definition run (signums : list Signals) (w : Wrapper) (evs : list Event)
    : Wrapper :=
  foldl (step signums) w evs.

(** The decoration of [agent_entry_inner]. *)
Definition agent_signums : list Signals := [SIGINT; SIGTERM; SIGHUP].

(** ** Settings, output records and queue messages *)

Record FuzzerSettings := mkFuzzerSettings {
  session_id : string;
  user_id : string;
  project_id : string;
  pool_id : string;
  id : string;
  rev : string;
  lang : string;
  engine : string;
  crash_max_size : nat;
}.

Record AppSettings := mkAppSettings {
  fuzzer : FuzzerSettings;
  agent_mode_name : string;             (* [settings.agent.mode] *)
  bucket_data : string;                 (* [object_storage.buckets.data] *)
  kubernetes : manager.UserContainerManager;
}.

Record CrashBase := mkCrash {
  type : string;
  input_id : option string;
  input : option string;
  output : string;
  reproduced : bool;
}.

Record Status := mkStatus {
  status_code : string;
  status_message : string;
  status_details : option string;
}.

Record Metrics := mkMetrics { tmpfs : Z; memory : Z }.

Record Statistics := mkStatistics { work_time : Z }.

Record AgentOutput := mkAgentOutput {
  out_status : Status;
  out_metrics : Metrics;
  crashes_found : nat;
  statistics : option Statistics;
}.

(** The keyword arguments of [sch_run_result.produce]. *)
Record MP_FuzzerRunResult := mkRunResult {
  rr_fuzzer : FuzzerSettings;   (* the seven identifying fields and
                                   [session_id], all copied from here *)
  rr_agent_mode : string;
  rr_start_time : string;
  rr_finish_time : string;
  agent_result : AgentOutput;
}.

(** The keyword arguments of [cra_new_crash.produce]. *)
Record MP_NewCrash := mkNewCrash {
  nc_fuzzer : FuzzerSettings;
  nc_crash : CrashBase;
  nc_created : string;
}.

(** What the process has done to the outside. *)
Record World := mkWorld {
  run_results : list MP_FuzzerRunResult;
  new_crashes : list MP_NewCrash;
  objects : gmap (string * string) string;   (* bucket, key ↦ bytes *)
  mq_shutdowns : nat;   (* calls of [mq_app.shutdown()] made by
                           [agent_entry_inner]; those [mq_init] makes
                           are counted by [message_queue.mq_init] *)
}.

Definition empty_world : World := mkWorld [] [] ∅ 0.

Definition add_run_result (m : MP_FuzzerRunResult) (w : World) : World :=
  mkWorld (run_results w ++ [m]) (new_crashes w) (objects w) (mq_shutdowns w).

Definition add_new_crash (m : MP_NewCrash) (w : World) : World :=
  mkWorld (run_results w) (new_crashes w ++ [m]) (objects w) (mq_shutdowns w).

Definition put_object (bucket key bytes : string) (w : World) : World :=
  mkWorld (run_results w) (new_crashes w)
    (<[(bucket, key) := bytes]> (objects w)) (mq_shutdowns w).

Definition add_shutdown (w : World) : World :=
  mkWorld (run_results w) (new_crashes w) (objects w) (S (mq_shutdowns w)).

(** ** [transfer.FileTransfer.upload_crash] *)

(** [BucketData.crash] *)
Definition crash_key (settings : AppSettings) (input_id : string)
    : string * string :=
  (bucket_data settings,
   id (fuzzer settings) +:+ "/" +:+ rev (fuzzer settings)
     +:+ "/crashes/" +:+ input_id +:+ ".bin").

Definition is_ObjectStorageError (e : Exn) : bool :=
  match e with
  | PyException n =>
      bool_decide (n ∈ ["ObjectStorageError"; "ObjectNotFoundError";
                        "UploadLimitError"])
  | _ => false
  end.

Section Entry.
Context `{codes : !Codes, libs : !PyLibs}.

(** [upload_crash]; [upload] is what [storage.upload_bytes] does. *)
Definition upload_crash (settings : AppSettings)
    (input_id input_bytes : string) (upload : Outcome unit) (w : World)
    : Outcome unit * World :=
  let '(bucket, key) := crash_key settings input_id in
  match upload with
  | Return _ => (Return tt, put_object bucket key input_bytes w)
  | Raise e =>
      if is_ObjectStorageError e
      then (Raise (ExAgentError (FileUploadError (Some "crash"))), w)
      else (Raise e, w)
  end.

(** ** [_send_crash] *)

(** What the outside does during one [_send_crash]. *)
Record SendEnv := mkSendEnv {
  random_string_10 : string;       (* [random_string(10)] *)
  upload_bytes : Outcome unit;
  produce_crash : Outcome unit;    (* [cra_new_crash.produce] *)
}.

(** The [if len(crash.input) > ...] statement: the crash afterwards. *)
Definition offload (settings : AppSettings) (run_id : string)
    (crash : CrashBase) (env : SendEnv) (w : World)
    : Outcome CrashBase * World :=
  match input crash with
  | None => (Raise (PyException "TypeError"), w)
  | Some inp =>
      if crash_max_size (fuzzer settings) <? String.length inp then
        let input_id := run_id +:+ random_string_10 env in
        match b64decode inp with
        | None => (Raise (PyException "binascii.Error"), w)
        | Some input_bytes =>
            match upload_crash settings input_id input_bytes
                    (upload_bytes env) w with
            | (Raise e, w) => (Raise e, w)
            | (Return _, w) =>
                (Return (mkCrash (type crash) (Some input_id) None
                           (output crash) (reproduced crash)), w)
            end
        end
      else (Return crash, w)
  end.

(** [_send_crash]: the outcome, the crash object afterwards (it is
    mutated in place) and the world afterwards. *)
Definition _send_crash (settings : AppSettings) (run_id created : string)
    (crash : CrashBase) (env : SendEnv) (w : World)
    : Outcome unit * CrashBase * World :=
  match offload settings run_id crash env w with
  | (Raise e, w) => (Raise e, crash, w)
  | (Return crash, w) =>
      match produce_crash env with
      | Raise e => (Raise e, crash, w)
      | Return _ =>
          (Return tt, crash,
           add_new_crash (mkNewCrash (fuzzer settings) crash created) w)
      end
  end.

(** ** [agent_entry_inner] *)

(** The attributes of the [AgentMode] object the orchestrator reads. *)
Record AgentMode := mkMode {
  status : option Status;
  fuzz_statistics : option Statistics;
  crashes : list CrashBase;
}.

Definition set_status (st : option Status) (m : AgentMode) : AgentMode :=
  mkMode st (fuzz_statistics m) (crashes m).

(** What the outside does during one run of [agent_entry_inner]: the
    outcome of every call that leaves this module.  A cancellation is
    the outcome [Raise CancelledError] of the await it interrupts. *)
Record Script := mkScript {
  settings : AppSettings;
  (** [load_app_settings(); mq_init(settings); mq_app.start()]: how the
      three end, see [message_queue.initialization] *)
  init : Outcome unit;
  storage_init : Outcome unit;           (* [object_storage_init] *)
  create_manager : Outcome unit;         (* [UserContainerManager.create] *)
  (** the answer to the i-th readiness read, and the sleep after it *)
  pod_read : nat → Outcome (list manager.V1ContainerStatus);
  sleep : nat → Outcome unit;
  run_id : string;                       (* [random_string(40)] *)
  select_mode : Outcome unit;
  chdir : Outcome unit;
  (** [rfc3339] of the two clock readings of [measure] *)
  start_time : string;
  finish_time : string;
  (** [agent_mode.run()] and the mode object it leaves behind *)
  mode_run : Outcome unit * AgentMode;
  read_metrics : Outcome Metrics;        (* the metrics file, line 253 *)
  mode_finish : AgentMode → Outcome unit * AgentMode;
  send_env : nat → SendEnv;              (* for the i-th crash *)
  produce_ok : Outcome unit;             (* [produce] in [_dump_ok] *)
  read_metrics_err : Outcome Metrics;    (* the metrics file, [_dump_err] *)
  produce_err : Outcome unit;            (* [produce] in [_dump_err] *)
  shutdown : Outcome unit;               (* [mq_app.shutdown()] *)
}.

(** The same script with another behaviour of [agent_mode.run()]. *)
Definition with_run (r : Outcome unit * AgentMode) (s : Script) : Script :=
  mkScript (settings s) (init s) (storage_init s) (create_manager s)
    (pod_read s) (sleep s) (run_id s) (select_mode s) (chdir s)
    (start_time s) (finish_time s) r (read_metrics s) (mode_finish s)
    (send_env s) (produce_ok s) (read_metrics_err s) (produce_err s)
    (shutdown s).

(** Does [except Exception] catch it? *)
Definition is_Exception (e : Exn) : bool :=
  match e with
  | PyBaseException _ => false
  | CancelledError => cancelled_is_exception
  | _ => true
  end.

(** An exception that is neither a domain error nor a cancellation
    and that [except Exception] catches. *)
Definition unclassified (e : Exn) : bool :=
  match e with
  | PyException _ | ApiException _ _ => true
  | _ => false
  end.

(** The rebinding of [e] in the handler around [agent_mode.run()]. *)
Definition classify (e : Exn) : AgentError :=
  match e with
  | CancelledError => FuzzerAbortedError
  | ExAgentError e => e
  | _ => InternalError None
  end.

Definition Status_of (e : AgentError) : Status :=
  mkStatus (code e) (message e) (details e).

(** The readiness loop, [for _ in range(5): ... else: raise]. *)
Fixpoint wait_running (s : Script) (i n : nat) : Outcome unit :=
  match n with
  | 0 => Raise (ExAgentError (InternalError None))
  | S n =>
      cont_status ← fst (manager.read_fuzzer_container
                           (kubernetes (settings s)) (pod_read s i) []);
      match manager.running (manager.state cont_status) with
      | Some _ => Return tt
      | None => _ ← sleep s i; wait_running s (S i) n
      end
  end.

(** The statements of the second [try] up to [os.chdir]. *)
Definition setup (s : Script) : Outcome unit :=
  _ ← storage_init s;
  _ ← create_manager s;
  _ ← wait_running s 0 5;
  _ ← select_mode s;
  chdir s.

(** The loop over [agent_mode.crashes]: the list afterwards holds the
    same objects, mutated by the sends that got to them. *)
Fixpoint send_crashes (s : Script) (created : string) (i : nat)
    (crashes : list CrashBase) (w : World)
    : Outcome unit * list CrashBase * World :=
  match crashes with
  | [] => (Return tt, [], w)
  | crash :: rest =>
      match _send_crash (settings s) (run_id s) created crash
              (send_env s i) w with
      | (Raise e, crash, w) => (Raise e, crash :: rest, w)
      | (Return _, crash, w) =>
          let '(r, rest, w) := send_crashes s created (S i) rest w in
          (r, crash :: rest, w)
      end
  end.

Definition run_result (s : Script) (res : AgentOutput)
    : MP_FuzzerRunResult :=
  mkRunResult (fuzzer (settings s)) (agent_mode_name (settings s))
    (start_time s) (finish_time s) res.

(** [_dump_ok] *)
Definition _dump_ok (s : Script) (res : AgentOutput) (w : World)
    : Outcome unit * World :=
  match produce_ok s with
  | Raise e => (Raise e, w)
  | Return _ => (Return tt, add_run_result (run_result s res) w)
  end.

(** [_dump_err] *)
Definition _dump_err (s : Script) (e : AgentError) (w : World)
    : Outcome unit * World :=
  let metrics :=
    match read_metrics_err s with
    | Return m => m
    | Raise _ => mkMetrics 0 0
    end in
  match produce_err s with
  | Raise e => (Raise e, w)
  | Return _ =>
      (Return tt,
       add_run_result
         (run_result s (mkAgentOutput (Status_of e) metrics 0 None)) w)
  end.

(** The statements of the second [try] from [measure = TimeMeasure()]
    on. *)
Definition measured (s : Script) (w : World) : Outcome unit * World :=
  let '(r, mode) := mode_run s in
  let after_run :=
    match r with
    | Return _ => Return mode
    | Raise e =>
        if is_Exception e
        then Return (set_status (Some (Status_of (classify e))) mode)
        else Raise e
    end in
  match after_run with
  | Raise e => (Raise e, w)
  | Return mode =>
      match status mode with
      | None => (Raise (PyException "AttributeError"), w)
      | Some _ =>
          match read_metrics s with
          | Raise e => (Raise e, w)
          | Return metrics =>
              match mode_finish s mode with
              | (Raise e, _) => (Raise e, w)
              | (Return _, mode) =>
                  match send_crashes s (finish_time s) 0 (crashes mode) w
                  with
                  | (Raise e, _, w) => (Raise e, w)
                  | (Return _, crashes, w) =>
                      match status mode with
                      | None => (Raise (PyException "ValidationError"), w)
                      | Some st =>
                          _dump_ok s
                            (mkAgentOutput st metrics (length crashes)
                               (fuzz_statistics mode)) w
                      end
                  end
              end
          end
      end
  end.

(** A handler that reports [e] and returns [exit_code].  [measure] is
    an argument of the call, so the call fails before it starts when
    the name is not bound yet. *)
Definition report_and_return (s : Script) (measure_bound : bool)
    (e : AgentError) (exit_code : Z) (w : World) : Outcome Z * World :=
  if measure_bound then
    match _dump_err s e w with
    | (Return _, w) => (Return exit_code, w)
    | (Raise e, w) => (Raise e, w)
    end
  else (Raise (PyException "UnboundLocalError"), w).

(** The [except] clauses of the second [try], in their order, and the
    [return 0] after it. *)
Definition handlers (s : Script) (measure_bound : bool)
    (r : Outcome unit) (w : World) : Outcome Z * World :=
  match r with
  | Return _ => (Return 0%Z, w)
  | Raise (ExAgentError e) => report_and_return s measure_bound e 2 w
  | Raise CancelledError => (Return 0%Z, w)
  | Raise (PyBaseException n) => (Raise (PyBaseException n), w)
  | Raise _ => report_and_return s measure_bound (InternalError None) 3 w
  end.

(** The [finally] clause. *)
Definition finally_shutdown (s : Script) (r : Outcome Z * World)
    : Outcome Z * World :=
  match shutdown s with
  | Return _ => (r.1, add_shutdown r.2)
  | Raise e => (Raise e, add_shutdown r.2)
  end.

Definition agent_entry_inner (s : Script) : Outcome Z * World :=
  match init s with
  | Raise CancelledError => (Return 0%Z, empty_world)
  | Raise _ => (Return 1%Z, empty_world)
  | Return _ =>
      finally_shutdown s
        match setup s with
        | Raise e => handlers s false (Raise e) empty_world
        | Return _ =>
            let '(r, w) := measured s empty_world in
            handlers s true r w
        end
  end.

(** [agent_entry]: the exit status of the process.  An exception that
    leaves [asyncio.run] ends the interpreter with status 1; for a
    [BaseException] other than the cancellation the status depends on
    which one it is, and is left open. *)
Definition agent_entry (s : Script) : option Z * World :=
  match agent_entry_inner s with
  | (Return exit_code, w) => (Some exit_code, w)
  | (Raise (PyBaseException _), w) => (None, w)
  | (Raise _, w) => (Some 1%Z, w)
  end.
End Entry.

End entry.

(* ===================================================================== *)
(** * Concrete inputs *)
(* ===================================================================== *)

(** Stand-ins for what the sources take from elsewhere, used only where a
    statement is evaluated at a concrete input. *)
Module samples.

(** Each constant of [codes.py] with its own name as value. *)
Definition codes : Codes := {|
  E_INTERNAL_ERROR := "E_INTERNAL_ERROR";
  E_CONFIG_INVALID := "E_CONFIG_INVALID";
  E_FUZZER_LAUNCH_ERROR := "E_FUZZER_LAUNCH_ERROR";
  E_FUZZER_ABORTED := "E_FUZZER_ABORTED";
  E_RAM_LIMIT_EXCEEDED := "E_RAM_LIMIT_EXCEEDED";
  E_TMPFS_LIMIT_EXCEEDED := "E_TMPFS_LIMIT_EXCEEDED";
|}.

Definition failure_137 : string :=
  "{status: Failure, details: {causes: [{message: '137'}]}}".

(** A loader that knows two status documents. *)
Definition load (s : string) : option Yaml :=
  if bool_decide (s = "{status: Success}") then
    Some (YMap [("status", YStr "Success")])
  else if bool_decide (s = failure_137) then
    Some (YMap [("status", YStr "Failure");
                ("details",
                 YMap [("causes", YSeq [YMap [("message", YStr "137")]])])])
  else None.

(** A base64 decoder that knows one payload. *)
Definition decode (s : string) : option string :=
  if bool_decide (s = "QUJDRA==") then Some "ABCD" else None.

(** Python 3.8 or later, and Python 3.7. *)
Definition libs : PyLibs := Build_PyLibs load decode false.
Definition libs37 : PyLibs := Build_PyLibs load decode true.

Definition manager : manager.UserContainerManager :=
  manager.mkManager "default" "agent-pod" "user" "/bin/runner"
    "/run/runner.json".

(** A pod of two containers, the second one terminated. *)
Definition pod (exit_code : Z) (reason : string)
    : Outcome (list manager.V1ContainerStatus) :=
  Return [manager.mkStatus "user" (manager.mkState (Some tt) None None);
          manager.mkStatus "fuzzer"
            (manager.mkState None
               (Some (manager.mkTerminated exit_code reason)) None)].

Definition exec_env (pod : Outcome (list manager.V1ContainerStatus))
    (pod_log : Outcome manager.ClientResponse) : manager.ExecEnv :=
  manager.mkExecEnv (Return tt) (Return tt) [] pod pod_log.

Definition settings : entry.AppSettings :=
  entry.mkAppSettings
    (entry.mkFuzzerSettings "session" "user-1" "project" "pool" "fuzzer-1"
       "rev-1" "cpp" "libfuzzer" 4)
    "fuzzing" "data" manager.

(** A crash whose input, eight characters of base64, is above the
    threshold of [settings], and one whose input is below it. *)
Definition big_crash : entry.CrashBase :=
  entry.mkCrash "crash" None (Some "QUJDRA==") "SEGV" true.

Definition small_crash : entry.CrashBase :=
  entry.mkCrash "crash" None (Some "QQ==") "SEGV" false.

Definition send_env : entry.SendEnv :=
  entry.mkSendEnv "0123456789" (Return tt) (Return tt).

Definition success : entry.Status := entry.mkStatus "E_SUCCESS" "Success" None.

Definition mode : entry.AgentMode :=
  entry.mkMode (Some success) (Some (entry.mkStatistics 60)) [big_crash].

(** A pod whose other container is running. *)
Definition ready : Outcome (list manager.V1ContainerStatus) :=
  Return [manager.mkStatus "user" (manager.mkState (Some tt) None None);
          manager.mkStatus "fuzzer" (manager.mkState (Some tt) None None)].

(** A run in which everything outside behaves, but for the three calls
    given. *)
Definition script (init run finish : Outcome unit) : entry.Script :=
  entry.mkScript settings init (Return tt) (Return tt) (λ _, ready)
    (λ _, Return tt) "run-" (Return tt) (Return tt)
    "2024-01-01T00:00:00Z" "2024-01-01T00:01:00Z"
    (run, mode) (Return (entry.mkMetrics 1 2)) (λ m, (finish, m))
    (λ _, send_env) (Return tt) (Return (entry.mkMetrics 1 2))
    (Return tt) (Return tt).

End samples.

(* ===================================================================== *)
(** * Invariants used in the proofs *)
(* ===================================================================== *)

Module invariants.
Import ws_client entry.

Section Session.
Context `{libs : !PyLibs}.

(** A session that is closed and has its code. *)
Definition resolved (v : Z) (self : ExecWSClient) : Prop :=
  is_open self = false ∧ _returncode self = Some v.

(** What the memo of a session means: the session is closed, and the
    code is the one its error-channel payload decodes to, as long as that
    payload is still in the buffer. *)
Definition memo_ok (self : ExecWSClient) : Prop :=
  ∀ v, _returncode self = Some v →
    is_open self = false ∧
    ∀ err, _channels self !! ERROR_CHANNEL = Some err →
           decode_status err = Return v.
End Session.

(** Two sessions with the same three flags. *)
Definition same_flags (a b : ExecWSClient) : Prop :=
  stdout a = stdout b ∧ stderr a = stderr b
  ∧ combine_output a = combine_output b.

(** Neither a payload in the buffer of the error channel nor a memoized
    code. *)
Definition no_status (self : ExecWSClient) : Prop :=
  _channels self !! ERROR_CHANNEL = None ∧ _returncode self = None.

(** The activations of the handler that hold its lock. *)
Definition holders (w : Wrapper) : list Frame :=
  filter (λ f, holds_lock f = true) (frames w).

(** At most one activation holds the lock, and the flag of the closure
    and the count of cancellations are where that activation has brought
    them. *)
Definition guarded (w : Wrapper) : Prop :=
  match holders w with
  | [] | [Checking] => cancel_calls w = if _catched w then 1 else 0
  | [Logging] | [Setting] => _catched w = false ∧ cancel_calls w = 0
  | [Cancelling] => _catched w = true ∧ cancel_calls w = 0
  | [Leaving] => _catched w = true ∧ cancel_calls w = 1
  | _ => False
  end.

(** The signals in [installed] are bound to the new handler, the others
    to what they were bound to before. *)
Definition table_is (prior : Signals → nat) (w : Wrapper)
    (installed : list Signals) : Prop :=
  ∀ s, table w s = if bool_decide (s ∈ installed) then new_handler
                   else Prior (prior s).

(** [wrapper] touches the signals of its list only. *)
Definition untouched (signums : list Signals) (prior : Signals → nat)
    (w : Wrapper) : Prop :=
  (∀ s, s ∉ signums → table w s = Prior (prior s))
  ∧ match phase w with
    | Installing rest => ∀ s, s ∈ rest → s ∈ signums
    | Restoring rest => ∀ p, p ∈ rest → p.1 ∈ signums
    | _ => True
    end.

(** A list with a signal that cannot be caught: [wrapper] is on its way
    to the OSError. *)
Definition doomed (signums : list Signals) (w : Wrapper) : Prop :=
  match phase w with
  | Installing rest =>
      ∃ done, signums = done ++ rest
              ∧ length (_handlers w) = length done
              ∧ Exists (λ s, catchable s = false) rest
  | Restoring rest => Exists (λ p, catchable p.1 = false) rest
  | Refused => True
  | Awaiting | Finished => False
  end.

(** How many statements of [wrapper] are left at most. *)
Definition remaining (signums : list Signals) (w : Wrapper) : nat :=
  match phase w with
  | Installing rest => length rest + length signums + 3
  | Awaiting => length signums + 2
  | Restoring rest => length rest + 1
  | Finished | Refused => 0
  end.

(** Both fields of the pair hold a value. *)
Definition both_populated (crash : CrashBase) : Prop :=
  is_Some (input crash) ∧ is_Some (input_id crash).

End invariants.

(* ===================================================================== *)
(** * message_queue/instance.py *)
(* ===================================================================== *)

Module message_queue.

(** What the outside does during [mq_init]. *)
Record MQEnv := mkMQEnv {
  broker : string;                    (* [settings.message_queue.broker] *)
  sqs_create : Outcome unit;          (* [SQSApp.create] *)
  ping : Outcome unit;                (* [self._app.ping()] *)
  configure_channels : Outcome unit;  (* [self._configure_channels()] *)
  shutdown : Outcome unit;            (* [self._app.shutdown()] *)
}.

Definition _create_mq_app (env : MQEnv) : Outcome unit :=
  if bool_decide (Py.lower (broker env) = "sqs") then sqs_create env
  else Raise (PyException "ValueError").

(** [MQAppInitializer.do_init]: how it ends and how many times it has
    called [shutdown]. *)
Definition do_init (env : MQEnv) : Outcome unit * nat :=
  match _create_mq_app env with
  | Raise e => (Raise e, 0)
  | Return _ =>
      match _ ← ping env; configure_channels env with
      | Return _ => (Return tt, 0)
      | Raise e =>
          match shutdown env with
          | Return _ => (Raise e, 1)
          | Raise e' => (Raise e', 1)
          end
      end
  end.

Definition mq_init (env : MQEnv) : Outcome unit * nat := do_init env.

(** The first [try] of [entry.agent_entry_inner]:
    [load_app_settings(); mq_init(settings); mq_app.start()]. *)
Definition initialization (load_app_settings : Outcome unit) (env : MQEnv)
    (start : Outcome unit) : Outcome unit * nat :=
  match load_app_settings with
  | Raise e => (Raise e, 0)
  | Return _ =>
      match mq_init env with
      | (Raise e, n) => (Raise e, n)
      | (Return _, n) => (start, n)
      end
  end.

End message_queue.

(* ===================================================================== *)
(** * kubernetes/ws_client.py: [run_forever] *)
(* ===================================================================== *)

Module ws_client_rest.
Import ws_client.

(** [update(timeout)] for a [timeout: Optional[float]].  With [None] the
    comparison [timeout <= 0] raises TypeError, [None] and [int] being
    unordered in Python 3; the two tests before it do not look at the
    timeout. *)
Definition update_optional (self : ExecWSClient) (timeout : option Z)
    (sock_closed : bool) (r : Receive) : Outcome ExecWSClient :=
  match timeout with
  | Some timeout => Return (update self timeout sock_closed r)
  | None =>
      if negb (is_open self) then Return self
      else if sock_closed then Return (set_connected false self)
      else Raise (PyException "TypeError")
  end.

(** [run_forever(timeout)] for a falsy [timeout] ([None], the default, or
    0): the loop [while self.is_open(): await self.update(timeout=None)].
    The script gives [sock.closed] and the receive for each turn; [None]:
    the loop is still running when the script ends. *)
Fixpoint run_forever_untimed (self : ExecWSClient)
    (script : list (bool * Receive)) : option (Outcome ExecWSClient) :=
  if is_open self then
    match script with
    | [] => None
    | (sock_closed, r) :: script =>
        match update_optional self None sock_closed r with
        | Return self => run_forever_untimed self script
        | Raise e => Some (Raise e)
        end
    end
  else Some (Return self).

End ws_client_rest.

(** ** The wrapper of [signal_handler] on a list with repetitions *)

Module dispositions.
Import entry invariants.

(** What [getsignal] finds while the first loop goes through [l], the
    signals of [seen] having been rebound before. *)
Fixpoint found (prior : Signals → nat) (seen l : list Signals)
    : list Handler :=
  match l with
  | [] => []
  | s :: l =>
      (if bool_decide (s ∈ seen) then new_handler else Prior (prior s))
        :: found prior (seen ++ [s]) l
  end.

(** The disposition of [s] when the loop in [finally] has gone through
    [done] and has [todo] before it. *)
Definition restored (prior : Signals → nat) (done todo : list Signals)
    (s : Signals) : Handler :=
  if bool_decide (s ∈ done) then
    if bool_decide (2 ≤ count_occ Nat.eq_dec done s) then new_handler
    else Prior (prior s)
  else if bool_decide (s ∈ todo) then new_handler else Prior (prior s).

(** What the table and the saved handlers are in each phase, for a list
    of signals that can all be caught. *)
Definition tracked (signums : list Signals) (prior : Signals → nat)
    (w : Wrapper) : Prop :=
  match phase w with
  | Installing rest =>
      ∃ done, signums = done ++ rest
              ∧ _handlers w = found prior [] done ∧ table_is prior w done
  | Awaiting =>
      _handlers w = found prior [] signums ∧ table_is prior w signums
  | Restoring rest =>
      ∃ done todo, signums = done ++ todo
                   ∧ rest = zip todo (found prior done todo)
                   ∧ ∀ s, table w s = restored prior done todo s
  | Finished => ∀ s, table w s = restored prior signums [] s
  | Refused => False
  end.
End dispositions.

(* ===================================================================== *)
(** * storage/s3 *)
(* ===================================================================== *)

Module s3.

(** ** errors.py *)

(** What a call into the storage layer can raise, as far as its handlers
    tell exceptions apart.  A [ClientError] carries the HTTP status code
    of the response metadata, the code of the error entry of the response
    and [str(e)]. *)
Inductive Fault :=
| ClientError (http_status : Z) (error_code : string) (text : string)
| EndpointConnectionError (text : string)
| ObjectStorageInitError (msg : string)
| ObjectStorageError (msg : string)
| ObjectNotFoundError (msg : string)
| UploadLimitError (msg : string)
| Other (name : string).            (* an exception of any other class *)

Global Instance Fault_eq_dec : EqDecision Fault.
Proof. solve_decision. Defined.

Inductive Try (A : Type) :=
| Done (a : A)
| Failed (f : Fault).
Global Arguments Done {A} a.
Global Arguments Failed {A} f.

(** [isinstance(e, ObjectStorageError)] *)
Definition is_storage_error (f : Fault) : bool :=
  match f with
  | ObjectStorageError _ | ObjectNotFoundError _ | UploadLimitError _ => true
  | _ => false
  end.

(** The decorator [maybe_unknown_error], on the outcome of the call it
    wraps. *)
Definition maybe_unknown_error {A} (r : Try A) : Try A :=
  match r with
  | Failed (ClientError _ _ text) => Failed (ObjectStorageError text)
  | Failed (EndpointConnectionError text) => Failed (ObjectStorageError text)
  | _ => r
  end.

(** The decorator [maybe_not_found]. *)
Definition maybe_not_found {A} (r : Try A) : Try A :=
  match r with
  | Failed (ClientError http_status _ _) =>
      if (http_status =? 404)%Z
      then Failed (ObjectNotFoundError "Object not found in storage")
      else r
  | _ => r
  end.

(** ** The client *)

(** Requests to the S3 client, in the order they are made. *)
Inductive Request :=
| ListBuckets
| HeadBucket (bucket : string)
| ListObjects (bucket : string)
| DownloadFileobj (bucket key : string)
| DownloadFile (bucket key : string)
| GetObject (bucket key : string)
| UploadFileobj (bucket key : string)
| UploadFile (bucket key : string)
| HeadObject (bucket key : string)
| DeleteObject (bucket key : string).

Global Instance Request_eq_dec : EqDecision Request.
Proof. solve_decision. Defined.

(** A request that changes the bucket it names. *)
Definition writes_to (bucket : string) (q : Request) : bool :=
  match q with
  | UploadFileobj b _ | UploadFile b _ | DeleteObject b _ =>
      bool_decide (b = bucket)
  | _ => false
  end.

(** The outside: what the client answers to a request, given how many
    requests were made before it.  The answer stands for the call and
    for the local work on its result (unpacking, writing the file). *)
Definition Client : Type := nat → Request → Try unit.

(** A computation that may fail and appends to the request trace. *)
Definition S3 (A : Type) : Type := list Request → Try A * list Request.

Definition request (client : Client) (q : Request) : S3 unit :=
  λ t, (client (length t) q, t ++ [q]).

Definition and_then {A B} (m : S3 A) (k : A → S3 B) : S3 B := λ t,
  match m t with
  | (Done a, t') => k a t'
  | (Failed f, t') => (Failed f, t')
  end.

(** A decorator around a method. *)
Definition decorated {A} (d : Try A → Try A) (m : S3 A) : S3 A := λ t,
  let '(r, t') := m t in (d r, t').

(** ** storage.py *)

Section ObjectStorage.
Variable client : Client.

Definition upload_bytes (bucket key : string) : S3 unit :=
  decorated maybe_unknown_error (request client (UploadFileobj bucket key)).

Definition download_file (bucket key : string) : S3 unit :=
  decorated maybe_unknown_error
    (decorated maybe_not_found (request client (DownloadFile bucket key))).

(** [upload_archive]: the directory is packed first, with [os.listdir]
    and [tarfile]; [packing] names what that raises (an OSError, a
    TarError), if anything, and the client is not called then. *)
Definition upload_archive (packing : option string) (bucket key : string)
    : S3 unit :=
  decorated maybe_unknown_error
    (match packing with
     | Some name => λ t, (Failed (Other name), t)
     | None => request client (UploadFileobj bucket key)
     end).

Definition download_archive (bucket key : string) : S3 unit :=
  decorated maybe_unknown_error
    (decorated maybe_not_found (request client (GetObject bucket key))).

(** The loop of [download_many_archives] over the objects the listing
    yields; [keys] is the list built so far. *)
Fixpoint download_each (bucket : string) (listed keys : list string)
    : S3 (list string) := λ t,
  match listed with
  | [] => (Done keys, t)
  | key :: listed =>
      match download_archive bucket key t with
      | (Done _, t') => download_each bucket listed (keys ++ [key]) t'
      | (Failed f, t') =>
          if is_storage_error f            (* [suppress(ObjectStorageError)] *)
          then download_each bucket listed keys t'
          else (Failed f, t')
      end
  end.

(** [download_many_archives]; the iteration over
    [bucket_wrapper.objects.filter(Prefix=prefix)] yields the keys
    [listed] and then ends, or raises [ending]. *)
Definition download_many_archives (bucket : string)
    (listed : list string) (ending : option Fault) : S3 (list string) :=
  and_then (download_each bucket listed []) (λ keys t,
    match ending with
    | None => (Done keys, t)
    | Some f => (Failed f, t)
    end).

Definition delete_object (bucket key : string) : S3 unit :=
  decorated maybe_unknown_error
    (decorated maybe_not_found
       (and_then (request client (HeadObject bucket key)) (λ _,
          request client (DeleteObject bucket key)))).

(** ** initializer.py *)

Record BucketCheck := mkBucketCheck {
  bucket_name : string;
  check_read : bool;
  check_write : bool;
}.

(** The double-quote character of the messages. *)
Definition quote : string := String "034"%char "".

Definition _verify_auth : S3 unit := λ t,
  match request client ListBuckets t with
  | (Failed (EndpointConnectionError text), t') =>
      (Failed (ObjectStorageInitError text), t')
  | (Failed (ClientError _ error_code text), t') =>
      if bool_decide (error_code = "InvalidAccessKeyId") then
        (Failed (ObjectStorageInitError "Invalid access key"), t')
      else if bool_decide (error_code = "SignatureDoesNotMatch") then
        (Failed (ObjectStorageInitError "Invalid secret key"), t')
      else (Failed (ObjectStorageInitError text), t')
  | r => r
  end.

Definition _check_bucket_exists (bucket_name : string) : S3 unit := λ t,
  match request client (HeadBucket bucket_name) t with
  | (Failed (ClientError error_code _ text), t') =>
      if (error_code =? 404)%Z then
        (Failed (ObjectStorageInitError
                   ("Bucket " +:+ quote +:+ bucket_name +:+ quote
                    +:+ " does not exist")), t')
      else if (error_code =? 403)%Z then
        (Failed (ObjectStorageInitError
                   ("Not enough rights to read bucket " +:+ quote
                    +:+ bucket_name +:+ quote)), t')
      else (Failed (ObjectStorageInitError text), t')
  | r => r
  end.

(** The inner [try] of [_check_for_read_permissions]. *)
Definition download_test_read (bucket_name : string) : S3 unit := λ t,
  match request client (DownloadFileobj bucket_name "test_read") t with
  | (Failed (ClientError http_status error_code text), t') =>
      match Py.int_of_str error_code with
      | None => (Failed (Other "ValueError"), t')
      | Some n =>
          if negb (n =? 404)%Z
          then (Failed (ClientError http_status error_code text), t')
          else (Done tt, t')
      end
  | r => r
  end.

Definition _check_for_read_permissions (bucket_name : string) : S3 unit :=
  λ t,
  match and_then (request client (ListObjects bucket_name))
          (λ _, download_test_read bucket_name) t with
  | (Failed (ClientError http_status _ text), t') =>
      if (http_status =? 403)%Z then
        (Failed (ObjectStorageInitError
                   ("Not enough rights to read contents of bucket "
                    +:+ quote +:+ bucket_name +:+ quote)), t')
      else
        (Failed (ObjectStorageInitError
                   ("Failed to read contents of bucket " +:+ quote
                    +:+ bucket_name +:+ quote +:+ ". " +:+ text)), t')
  | r => r
  end.

Definition _check_for_write_permissions (bucket_name : string) : S3 unit :=
  λ t,
  match and_then (request client (UploadFileobj bucket_name "mykey"))
          (λ _, request client (DeleteObject bucket_name "mykey")) t with
  | (Failed (ClientError http_status _ text), t') =>
      if (http_status =? 403)%Z then
        (Failed (ObjectStorageInitError
                   ("Not enough rights to write to bucket " +:+ quote
                    +:+ bucket_name +:+ quote)), t')
      else
        (Failed (ObjectStorageInitError
                   ("Failed to write to bucket " +:+ quote +:+ bucket_name
                    +:+ quote +:+ ". " +:+ text)), t')
  | r => r
  end.

Definition _check_bucket (name : string) (check_read check_write : bool)
    : S3 unit :=
  and_then (_check_bucket_exists name) (λ _,
  and_then (if check_read then _check_for_read_permissions name
            else λ t, (Done tt, t)) (λ _,
  if check_write then _check_for_write_permissions name
  else λ t, (Done tt, t))).

(** The loop of [do_init]. *)
Fixpoint check_all (checks : list BucketCheck) : S3 unit :=
  match checks with
  | [] => λ t, (Done tt, t)
  | chk :: checks =>
      and_then (_check_bucket (bucket_name chk) (check_read chk)
                  (check_write chk))
        (λ _, check_all checks)
  end.

Definition do_init (checks : list BucketCheck) : S3 unit :=
  and_then _verify_auth (λ _, check_all checks).

(** [entry.object_storage_init]: the construction of [ObjectStorage]
    runs [do_init] on the two checks; the arguments are
    [settings.object_storage.buckets.fuzzers] and [.data]. *)
Definition object_storage_init (bucket_fuzzers bucket_data : string)
    : S3 unit :=
  do_init [mkBucketCheck bucket_fuzzers true false;
           mkBucketCheck bucket_data true true].
End ObjectStorage.

End s3.

(* ===================================================================== *)
(** * transfer.py *)
(* ===================================================================== *)

Module transfer.
Import errors s3.

(** [BucketFuzzers] and [BucketData]: an object of either class is its
    bucket name. *)
Module BucketFuzzers.
Definition binaries (name fuzzer_id fuzzer_rev : string) : string * string :=
  (name, fuzzer_id +:+ "/" +:+ fuzzer_rev +:+ "/binaries" +:+ ".tar.gz").
Definition seeds (name fuzzer_id fuzzer_rev : string) : string * string :=
  (name, fuzzer_id +:+ "/" +:+ fuzzer_rev +:+ "/seeds" +:+ ".tar.gz").
Definition config (name fuzzer_id fuzzer_rev : string) : string * string :=
  (name, fuzzer_id +:+ "/" +:+ fuzzer_rev +:+ "/config" +:+ ".json").
End BucketFuzzers.

Module BucketData.
Definition merged_corpus (name fuzzer_id fuzzer_rev : string)
    : string * string :=
  (name, fuzzer_id +:+ "/" +:+ fuzzer_rev +:+ "/corpus/corpus" +:+ ".tar.gz").
Definition unmerged_corpus (name fuzzer_id fuzzer_rev run_id : string)
    : string * string :=
  (name, fuzzer_id +:+ "/" +:+ fuzzer_rev +:+ "/corpus/tmp/" +:+ run_id
         +:+ ".tar.gz").
Definition unmerged_corpus_list (name fuzzer_id fuzzer_rev : string)
    : string * string :=
  (name, fuzzer_id +:+ "/" +:+ fuzzer_rev +:+ "/corpus/tmp").
Definition crash (name fuzzer_id fuzzer_rev input_id : string)
    : string * string :=
  (name, fuzzer_id +:+ "/" +:+ fuzzer_rev +:+ "/crashes/" +:+ input_id
         +:+ ".bin").
End BucketData.

Record FileTransfer := mkFileTransfer {
  _bucket_fuzzers : string;
  _bucket_data : string;
  _fuzzer_id : string;
  _fuzzer_rev : string;
}.

(** A fault that no handler of this module catches, as the caller sees
    it. *)
Definition uncaught (f : Fault) : Exn :=
  match f with
  | ClientError _ _ _ => PyException "ClientError"
  | EndpointConnectionError _ => PyException "EndpointConnectionError"
  | ObjectStorageInitError _ => PyException "ObjectStorageInitError"
  | ObjectStorageError _ => PyException "ObjectStorageError"
  | ObjectNotFoundError _ => PyException "ObjectNotFoundError"
  | UploadLimitError _ => PyException "UploadLimitError"
  | Other name => PyException name
  end.

(** The outcome of a storage call no handler stands around. *)
Definition outcome_of {A} (r : Try A) : Outcome A :=
  match r with
  | Done a => Return a
  | Failed f => Raise (uncaught f)
  end.

Section FileTransfer.
Context `{codes : !Codes}.
Variable client : Client.
Variable self : FileTransfer.

(** The two [except] clauses of the four downloads of one object. *)
Definition download_handlers {A} (what : string) (r : Try A * list Request)
    : Outcome A * list Request :=
  match r with
  | (Done a, t) => (Return a, t)
  | (Failed (ObjectNotFoundError _), t) =>
      (Raise (ExAgentError (RemoteFileLookupError (Some what))), t)
  | (Failed f, t) =>
      if is_storage_error f
      then (Raise (ExAgentError (FileDownloadError (Some what))), t)
      else (Raise (uncaught f), t)
  end.

(** The [except ObjectStorageError] clause of the uploads. *)
Definition upload_handlers {A} (what : string) (r : Try A * list Request)
    : Outcome A * list Request :=
  match r with
  | (Done a, t) => (Return a, t)
  | (Failed f, t) =>
      if is_storage_error f
      then (Raise (ExAgentError (FileUploadError (Some what))), t)
      else (Raise (uncaught f), t)
  end.

Definition download_binaries (t : list Request)
    : Outcome unit * list Request :=
  let '(bucket, key) :=
    BucketFuzzers.binaries (_bucket_fuzzers self) (_fuzzer_id self)
      (_fuzzer_rev self) in
  download_handlers "binaries" (download_archive client bucket key t).

Definition download_seeds (t : list Request)
    : Outcome unit * list Request :=
  let '(bucket, key) :=
    BucketFuzzers.seeds (_bucket_fuzzers self) (_fuzzer_id self)
      (_fuzzer_rev self) in
  download_handlers "seeds" (download_archive client bucket key t).

Definition download_config (t : list Request)
    : Outcome unit * list Request :=
  let '(bucket, key) :=
    BucketFuzzers.config (_bucket_fuzzers self) (_fuzzer_id self)
      (_fuzzer_rev self) in
  download_handlers "config" (download_file client bucket key t).

Definition download_merged_corpus (t : list Request)
    : Outcome unit * list Request :=
  let '(bucket, key) :=
    BucketData.merged_corpus (_bucket_data self) (_fuzzer_id self)
      (_fuzzer_rev self) in
  download_handlers "merged_corpus" (download_archive client bucket key t).

(** The two uploads of a directory; [packing] as in [upload_archive]. *)
Definition upload_unmerged_corpus (run_id : string)
    (packing : option string) (t : list Request)
    : Outcome unit * list Request :=
  let '(bucket, key) :=
    BucketData.unmerged_corpus (_bucket_data self) (_fuzzer_id self)
      (_fuzzer_rev self) run_id in
  upload_handlers "unmerged_corpus"
    (upload_archive client packing bucket key t).

Definition upload_merged_corpus (packing : option string)
    (t : list Request) : Outcome unit * list Request :=
  let '(bucket, key) :=
    BucketData.merged_corpus (_bucket_data self) (_fuzzer_id self)
      (_fuzzer_rev self) in
  upload_handlers "merged_corpus"
    (upload_archive client packing bucket key t).

(** [download_unmerged_corpus]; [listed] and [ending] are what the
    listing under the prefix yields. *)
Definition download_unmerged_corpus (listed : list string)
    (ending : option Fault) (t : list Request)
    : Outcome (list string) * list Request :=
  let '(bucket, prefix) :=
    BucketData.unmerged_corpus_list (_bucket_data self) (_fuzzer_id self)
      (_fuzzer_rev self) in
  match download_many_archives client bucket listed ending t with
  | (Done keys, t) => (Return keys, t)
  | (Failed f, t) =>
      if is_storage_error f
      then (Raise (ExAgentError (FileDownloadError (Some "unmerged_corpus"))),
            t)
      else (Raise (uncaught f), t)
  end.

(** The loop of [delete_unmerged_corpus] with the inner function
    [delete_object], which swallows [ObjectNotFoundError]. *)
Fixpoint delete_each (keys : list string) : S3 unit := λ t,
  match keys with
  | [] => (Done tt, t)
  | key :: keys =>
      match delete_object client (_bucket_data self) key t with
      | (Done _, t') => delete_each keys t'
      | (Failed (ObjectNotFoundError _), t') => delete_each keys t'
      | (Failed f, t') => (Failed f, t')
      end
  end.

Definition delete_unmerged_corpus (keys : list string) (t : list Request)
    : Outcome unit * list Request :=
  match delete_each keys t with
  | (Done _, t) => (Return tt, t)
  | (Failed f, t) =>
      if is_storage_error f
      then (Raise (ExAgentError (RemoteFileDeleteError
                                   (Some "unmerged_corpus"))), t)
      else (Raise (uncaught f), t)
  end.
End FileTransfer.

End transfer.

(** ** What a computation of the storage layer sends *)

Module traces.
Import s3.

(** Whatever the trace before, [m] adds to it only requests that satisfy
    [P]. *)
Definition sends {A} (P : Request → Prop) (m : S3 A) : Prop :=
  ∀ t, ∃ new, (m t).2 = t ++ new ∧ Forall P new.

(** Whatever the trace before, [m] fails only with faults that satisfy
    [P]. *)
Definition raises {A} (P : Fault → Prop) (m : S3 A) : Prop :=
  ∀ t, match (m t).1 with
       | Done _ => True
       | Failed f => P f
       end.

(** A request that changes a bucket is one of the write check of a
    bucket for which [checks] asks it. *)
Definition write_test (checks : list BucketCheck) (q : Request) : Prop :=
  ∀ bucket, writes_to bucket q = true →
    (q = UploadFileobj bucket "mykey" ∨ q = DeleteObject bucket "mykey")
    ∧ ∃ chk, chk ∈ checks ∧ bucket_name chk = bucket
             ∧ check_write chk = true.
End traces.

(* ===================================================================== *)
(** * Properties *)
(* ===================================================================== *)

Import invariants.

Section strings_facts.
Lemma append_cons (c : ascii) (s t : string) :
  String c s +:+ t = String c (s +:+ t).
Proof. reflexivity. Qed.

Lemma append_nil_r (s : string) : s +:+ "" = s.
Proof. induction s as [|c s IH]; [done|]. by rewrite append_cons, IH. Qed.

Lemma append_assoc (s1 s2 s3 : string) :
  (s1 +:+ s2) +:+ s3 = s1 +:+ (s2 +:+ s3).
Proof.
  induction s1 as [|c s1 IH]; [done|]. by rewrite !append_cons, IH.
Qed.
End strings_facts.

Section ws_client_facts.
Import ws_client.

Lemma set_channels_id self : set_channels (_channels self) self = self.
Proof. by destruct self. Qed.

Lemma channels_set_channels m self : _channels (set_channels m self) = m.
Proof. done. Qed.

Lemma read_channel_peek self channel default :
  read_channel self channel default =
    (peek_channel self channel default,
     set_channels (delete channel (_channels self)) self).
Proof.
  unfold read_channel, peek_channel.
  destruct (_channels self !! channel) eqn:E; [done|].
  by rewrite delete_id, set_channels_id.
Qed.

Lemma peek_channel_lookup self channel default :
  peek_channel self channel default =
    match _channels self !! channel with Some s => Some s | None => default end.
Proof. done. Qed.

Lemma on_data_accepted self ch payload :
  2 ≤ String.length payload →
  passes_filter self (nat_of_ascii ch) = true →
  let target := target_channel self (nat_of_ascii ch) in
  on_data self (String ch payload) =
    set_channels
      (<[target := (default "" (_channels self !! target) +:+ payload)]>
         (_channels self)) self.
Proof.
  intros Hlen Hpass target. unfold on_data.
  assert ((2 <? String.length (String ch payload)) = true) as ->.
  { apply Nat.ltb_lt. cbn. lia. }
  rewrite Hpass. fold target.
  by destruct (_channels self !! target).
Qed.

Lemma on_data_rejected self ch payload :
  passes_filter self (nat_of_ascii ch) = false →
  on_data self (String ch payload) = self.
Proof.
  intros Hpass. unfold on_data. rewrite Hpass.
  by destruct (2 <? _).
Qed.

Lemma update_live self timeout ty data :
  is_open self = true → (0 < timeout)%Z → ty = BINARY ∨ ty = TEXT →
  update self timeout false (Message (mkWSMessage ty data)) = on_data self data.
Proof.
  intros Hopen Ht Hty. unfold update. rewrite Hopen. cbn.
  assert ((timeout <=? 0)%Z = false) as -> by lia.
  by destruct Hty as [-> | ->].
Qed.

Lemma feed_cons self f frames :
  feed self (f :: frames) = feed (update self 5 false (frame f.1 f.2)) frames.
Proof. done. Qed.

Lemma target_plain self channel :
  combine_output self = false → target_channel self channel = channel.
Proof.
  intros H. unfold target_channel. rewrite H. by rewrite andb_false_r.
Qed.

Lemma passes_all self channel :
  stdout self = true → stderr self = true → passes_filter self channel = true.
Proof.
  intros H1 H2. unfold passes_filter. rewrite H1, H2, !andb_true_r.
  unfold STDOUT_CHANNEL, STDERR_CHANNEL.
  destruct (decide (channel = 1)) as [->|]; [done|].
  destruct (decide (channel = 2)) as [->|]; [done|].
  rewrite bool_decide_eq_false_2; [done|].
  rewrite !elem_of_cons, elem_of_nil. by intros [?|[?|[]]].
Qed.

(** On a session that lets everything through and keeps the channels
    apart, the buffer of a channel after a run of frames is what it held
    before, followed by the payloads addressed to it. *)
Lemma feed_buffer frames : ∀ self c,
  is_open self = true →
  stdout self = true → stderr self = true → combine_output self = false →
  Forall (λ f, 2 ≤ String.length f.2) frames →
  _channels (feed self frames) !! c =
    match payloads_of c frames with
    | [] => _channels self !! c
    | ps => Some (default "" (_channels self !! c) +:+ join ps)
    end.
Proof.
  induction frames as [|[ch payload] frames IH]; intros self c Ho H1 H2 H3 Hlen.
  { done. }
  apply Forall_cons in Hlen as [Hp Hlen]. cbn in Hp.
  rewrite feed_cons. cbn [fst snd]. unfold frame.
  rewrite update_live by (done || lia || auto).
  rewrite on_data_accepted by (done || by apply passes_all).
  rewrite target_plain by done.
  set (self' := set_channels _ self).
  rewrite (IH self' c) by (done || by destruct self).
  cbn [payloads_of].
  assert (_channels self' = <[nat_of_ascii ch :=
    (default "" (_channels self !! nat_of_ascii ch) +:+ payload)]> (_channels self))
    as -> by (by destruct self).
  destruct (Nat.eqb_spec (nat_of_ascii ch) c) as [->|Hne].
  - rewrite lookup_insert_eq. cbn [default].
    destruct (payloads_of c frames) as [|p ps]; cbn [join].
    + by rewrite append_nil_r.
    + unfold id. by rewrite append_assoc.
  - by rewrite lookup_insert_ne.
Qed.
End ws_client_facts.

Section returncode_facts.
Import ws_client.
Context `{libs : !PyLibs}.

Lemma history_app self cs1 cs2 :
  history self (cs1 ++ cs2) = history (history self cs1) cs2.
Proof. apply foldl_app. Qed.

Lemma history_snoc self cs c :
  history self (cs ++ [c]) = after (history self cs) c.
Proof. by rewrite history_app. Qed.

(** A session that is closed and has its code stays that way. *)
Lemma resolved_returncode v self :
  resolved v self → returncode self = (Return (Some v), self).
Proof. intros [Ho Hr]. unfold returncode. by rewrite Ho, Hr. Qed.

Lemma resolved_after v self c : resolved v self → resolved v (after self c).
Proof.
  intros [Ho Hr]. destruct c as [timeout sc r|channel d| |]; cbn [after].
  - unfold update. by rewrite Ho.
  - rewrite read_channel_peek. by destruct self.
  - by rewrite (resolved_returncode v).
  - by destruct self.
Qed.

Lemma resolved_history v cs : ∀ self,
  resolved v self → resolved v (history self cs).
Proof.
  induction cs as [|c cs IH]; intros self H; [done|].
  apply (IH (after self c)). by apply resolved_after.
Qed.

Lemma returncode_resolves self v self' :
  returncode self = (Return (Some v), self') → resolved v self'.
Proof.
  unfold returncode. destruct (is_open self) eqn:Ho; [congruence|].
  destruct (_returncode self) as [rc|] eqn:Hr.
  { intros [= <- <-]. by split. }
  destruct (peek_channel self ERROR_CHANNEL None); [|congruence].
  destruct (decode_status s); [|congruence].
  intros [= <- <-]. split; by destruct self.
Qed.

Lemma memo_ok_init so se co : memo_ok (__init__ so se co).
Proof. intros v. by cbn. Qed.

Lemma memo_ok_after self c : memo_ok self → memo_ok (after self c).
Proof.
  intros Hok. destruct c as [timeout sc r|channel d| |]; cbn [after].
  - destruct (is_open self) eqn:Ho.
    + intros v Hv.
      assert (_returncode self = Some v) as Hv'.
      { revert Hv. unfold update. rewrite Ho. cbn [negb].
        destruct sc; [by destruct self|].
        destruct (timeout <=? 0)%Z; [done|].
        destruct r as [|[[] dat]]; try done; try (by destruct self).
        all: unfold on_data; cbn [data type];
          repeat case_match; try done; by destruct self. }
      apply Hok in Hv' as [? _]. congruence.
    + unfold update. by rewrite Ho.
  - rewrite read_channel_peek. intros v Hv. cbn in Hv.
    destruct (Hok v) as [Ho Hd]; [by destruct self|].
    split; [by destruct self|].
    intros err Herr. apply Hd.
    assert (_channels (set_channels (delete channel (_channels self)) self)
            = delete channel (_channels self)) as Heq by (by destruct self).
    cbn [snd] in Herr. rewrite Heq in Herr.
    apply lookup_delete_Some in Herr as [_ ?]. done.
  - intros v Hv. unfold returncode in *.
    destruct (is_open self) eqn:Ho; [by apply Hok|].
    destruct (_returncode self) as [rc|] eqn:Hr; [by apply Hok|].
    unfold peek_channel in *.
    destruct (_channels self !! ERROR_CHANNEL) as [err|] eqn:He.
    2:{ cbn in Hv. congruence. }
    destruct (decode_status err) as [rc|e] eqn:Hd.
    2:{ cbn in Hv. congruence. }
    cbn [snd] in *. 
    assert (v = rc) as -> by (destruct self; cbn in *; congruence).
    split; [by destruct self|].
    intros err'. 
    replace (_channels (set_returncode (Some rc) self)) with (_channels self)
      by (by destruct self).
    rewrite He. by intros [= <-].
  - intros v Hv. destruct (Hok v) as [Ho Hd]; [by destruct self|].
    split; [by destruct self|]. intros err. 
    replace (_channels (close self)) with (_channels self) by (by destruct self).
    apply Hd.
Qed.

Lemma memo_ok_history cs : ∀ self, memo_ok self → memo_ok (history self cs).
Proof.
  induction cs as [|c cs IH]; intros self H; [done|].
  apply (IH (after self c)). by apply memo_ok_after.
Qed.
End returncode_facts.

Section session_invariants.
Import ws_client.
Context `{libs : !PyLibs}.

Lemma on_data_cases self data :
  on_data self data = self
  ∨ ∃ ch payload,
      data = String ch payload ∧ 2 ≤ String.length payload
      ∧ passes_filter self (nat_of_ascii ch) = true
      ∧ on_data self data =
          set_channels
            (<[target_channel self (nat_of_ascii ch) :=
                 (default "" (_channels self !! target_channel self (nat_of_ascii ch))
                  +:+ payload)]> (_channels self)) self.
Proof.
  destruct data as [|ch payload]; [by left|].
  destruct (passes_filter self (nat_of_ascii ch)) eqn:Hp.
  2:{ left. by apply on_data_rejected. }
  destruct (decide (2 ≤ String.length payload)) as [Hl|Hl].
  - right. exists ch, payload. by rewrite on_data_accepted.
  - left. unfold on_data.
    assert ((2 <? String.length (String ch payload)) = false) as ->; [|done].
    apply Nat.ltb_ge. cbn. lia.
Qed.

Lemma update_cases self timeout sc r :
  update self timeout sc r = self
  ∨ update self timeout sc r = set_connected false self
  ∨ ∃ ty dat, r = Message (mkWSMessage ty dat)
      ∧ (ty = BINARY ∨ ty = TEXT) ∧ is_open self = true
      ∧ update self timeout sc r = on_data self dat.
Proof.
  unfold update. destruct (is_open self) eqn:Ho; cbn [negb]; [|by left].
  destruct sc; [by right; left|].
  destruct (timeout <=? 0)%Z; [by left|].
  destruct r as [|[[] dat]]; cbn [type data]; eauto 10.
Qed.

(** Nothing but [__init__] writes the three flags. *)
Lemma same_flags_after self c : same_flags (after self c) self.
Proof.
  destruct c as [timeout sc r|channel d| |]; cbn [after].
  - destruct (update_cases self timeout sc r) as [->|[->|(ty&dat&_&_&_&->)]].
    + done.
    + by destruct self.
    + destruct (on_data_cases self dat) as [->|(?&?&_&_&_&->)];
        [done|by destruct self].
  - rewrite read_channel_peek. by destruct self.
  - unfold returncode. repeat case_match; by destruct self.
  - by destruct self.
Qed.

Lemma same_flags_history cs : ∀ self, same_flags (history self cs) self.
Proof.
  induction cs as [|c cs IH]; intros self; [done|].
  destruct (IH (after self c)) as (?&?&?).
  destruct (same_flags_after self c) as (?&?&?).
  unfold same_flags. cbn [history foldl] in *. 
  change (foldl after (after self c) cs) with (history (after self c) cs).
  repeat split; congruence.
Qed.

Lemma target_not_error self channel :
  channel ≠ ERROR_CHANNEL → target_channel self channel ≠ ERROR_CHANNEL.
Proof. unfold target_channel. by case_match. Qed.

(** Without a frame on the error channel there is neither a payload in
    its buffer nor a memoized code. *)
Lemma no_status_after self c :
  receives_on ERROR_CHANNEL c = false → no_status self →
  no_status (after self c).
Proof.
  intros Hc [Hch Hm].
  destruct c as [timeout sc r|channel d| |]; cbn [after].
  - destruct (update_cases self timeout sc r)
      as [->|[->|(ty&dat&->&Hty&_&->)]].
    + done.
    + by destruct self.
    + destruct (on_data_cases self dat) as [->|(ch&p&->&_&_&->)]; [done|].
      assert (nat_of_ascii ch ≠ ERROR_CHANNEL) as Hne.
      { cbn in Hc. destruct Hty as [-> | ->];
          by apply Nat.eqb_neq in Hc. }
      split; [|by destruct self].
      rewrite channels_set_channels.
      rewrite lookup_insert_ne; [done|]. by apply target_not_error.
  - rewrite read_channel_peek. split; [|by destruct self].
    cbn [snd].
    rewrite channels_set_channels.
    destruct (decide (channel = ERROR_CHANNEL)) as [->|].
    + apply lookup_delete_eq.
    + by rewrite lookup_delete_ne.
  - unfold returncode, peek_channel. rewrite Hm, Hch.
    by destruct (is_open self).
  - by destruct self.
Qed.

Lemma no_status_history cs : ∀ self,
  Forall (λ c, receives_on ERROR_CHANNEL c = false) cs →
  no_status self → no_status (history self cs).
Proof.
  induction cs as [|c cs IH]; intros self Hcs H; [done|].
  apply Forall_cons in Hcs as [Hc Hcs].
  apply (IH (after self c)); [done|]. by apply no_status_after.
Qed.

(** With combined output nothing is ever put into the buffer of the
    stderr channel. *)
Lemma stderr_buffer_after self c :
  combine_output self = true →
  _channels self !! STDERR_CHANNEL = None →
  _channels (after self c) !! STDERR_CHANNEL = None.
Proof.
  intros Hco Hch.
  destruct c as [timeout sc r|channel d| |]; cbn [after].
  - destruct (update_cases self timeout sc r)
      as [->|[->|(ty&dat&->&Hty&_&->)]].
    + done.
    + by destruct self.
    + destruct (on_data_cases self dat) as [->|(ch&p&->&_&_&->)]; [done|].
      rewrite channels_set_channels.
      rewrite lookup_insert_ne; [done|].
      unfold target_channel. rewrite Hco, andb_true_r.
      destruct (Nat.eqb_spec (nat_of_ascii ch) STDERR_CHANNEL); done.
  - rewrite read_channel_peek. cbn [snd].
    rewrite channels_set_channels.
    destruct (decide (channel = STDERR_CHANNEL)) as [->|].
    + apply lookup_delete_eq.
    + by rewrite lookup_delete_ne.
  - unfold returncode. repeat case_match; by destruct self.
  - by destruct self.
Qed.

Lemma stderr_buffer_history cs : ∀ self,
  combine_output self = true →
  _channels self !! STDERR_CHANNEL = None →
  _channels (history self cs) !! STDERR_CHANNEL = None.
Proof.
  induction cs as [|c cs IH]; intros self Hco Hch; [done|].
  apply (IH (after self c)).
  - destruct (same_flags_after self c) as (_&_&->). done.
  - by apply stderr_buffer_after.
Qed.
End session_invariants.

Section ws_client_claims.
Import ws_client.

(** C9 (the stdout-named peek): [peek_stdout] reads the buffer of the
    stderr channel.  On a session holding "out" on channel 1 and "err" on
    channel 2, [peek_stdout] yields "err" where [peek_channel] on channel 1
    and [read_stdout] yield "out". *)
Theorem C9_peek_stdout_reads_stderr :
  let self := feed (__init__ true true false)
                [("001"%char, "out"); ("002"%char, "err")] in
  peek_channel self STDOUT_CHANNEL None = Some "out"
  ∧ (read_stdout self None).1 = Some "out"
  ∧ peek_stderr self None = Some "err"
  ∧ peek_stdout self None = Some "err".
Proof. vm_compute. done. Qed.

(** The rest of C9 holds: [peek_channel] and [read_channel] return the
    buffered content of the channel, or the default when there is none;
    the peek leaves the session as it is and the read removes the buffer;
    the two stderr variants and [read_stdout] go to their own channel. *)
Lemma peek_read_channel self channel default :
  peek_channel self channel default =
    match _channels self !! channel with Some s => Some s | None => default end
  ∧ (read_channel self channel default).1 = peek_channel self channel default
  ∧ (read_channel self channel default).2 =
      set_channels (delete channel (_channels self)) self
  ∧ read_stdout self default = read_channel self STDOUT_CHANNEL default
  ∧ read_stderr self default = read_channel self STDERR_CHANNEL default
  ∧ peek_stderr self default = peek_channel self STDERR_CHANNEL default.
Proof. by rewrite read_channel_peek. Qed.

(** C4, as stated, fails on a session with combined output: the payload of
    a frame led by byte 2 is appended to the buffer of channel 1, not to
    the buffer of the channel its leading byte names. *)
Lemma C4_counterexample :
  let self := feed (__init__ true true true)
                [("001"%char, "AB"); ("002"%char, "XY"); ("001"%char, "CD")] in
  is_open self = true
  ∧ (read_channel self 2 None).1 = None
  ∧ (read_channel self 2 None).1 ≠ Some "XY"
  ∧ (read_channel self 1 None).1 = Some "ABXYCD".
Proof. vm_compute. done. Qed.

(** A data message of at most two characters, that is a frame whose
    payload has at most one character, changes nothing. *)
Lemma update_short_frame self timeout sock_closed ty ch payload :
  String.length payload ≤ 1 →
  _channels (update self timeout sock_closed
               (Message (mkWSMessage ty (String ch payload))))
  = _channels self.
Proof.
  intros Hlen.
  destruct (update_cases self timeout sock_closed
              (Message (mkWSMessage ty (String ch payload))))
    as [->|[->|(ty'&dat&[= <- <-]&_&_&->)]]; [done|done|].
  unfold on_data.
  assert ((2 <? String.length (String ch payload)) = false) as ->; [|done].
  apply Nat.ltb_ge. cbn. lia.
Qed.

(** The frames written in C4, on the session [exec_command] opens: the
    one-character payload of the second frame is not buffered. *)
Lemma feed_example_as_written :
  let self := feed (__init__ true true false)
                [("001"%char, "AB"); ("002"%char, "X"); ("001"%char, "CD")] in
  (read_channel self 1 None).1 = Some "ABCD"
  ∧ (read_channel self 2 None).1 = None.
Proof. vm_compute. done. Qed.

(** C4 (amended): on an open session one [update] takes one message; a
    data frame with a payload of at least two characters that passes the
    filter is appended to the buffer of its channel, or of channel 1 when
    it is led by byte 2 and output is combined; on a session with both
    channels enabled and output not combined, the buffer of every channel
    after a run of such frames is what it held before followed by the
    payloads addressed to it, in order; so after (1,"AB"), (2,"XY"),
    (1,"CD") a read of channel 1 returns "ABCD" and a read of channel 2
    returns "XY". *)
Theorem C4_update_appends (self : ExecWSClient) :
  is_open self = true →
  (∀ timeout ty ch payload,
     (0 < timeout)%Z → ty = BINARY ∨ ty = TEXT →
     2 ≤ String.length payload →
     passes_filter self (nat_of_ascii ch) = true →
     update self timeout false (Message (mkWSMessage ty (String ch payload)))
     = set_channels
         (<[target_channel self (nat_of_ascii ch) :=
              (default "" (_channels self
                             !! target_channel self (nat_of_ascii ch))
               +:+ payload)]> (_channels self)) self)
  ∧ (stdout self = true → stderr self = true → combine_output self = false →
     ∀ frames channel,
       Forall (λ f, 2 ≤ String.length f.2) frames →
       (read_channel (feed self frames) channel None).1 =
         match payloads_of channel frames with
         | [] => _channels self !! channel
         | ps => Some (default "" (_channels self !! channel) +:+ join ps)
         end)
  ∧ (let fed := feed (__init__ true true false)
                  [("001"%char, "AB"); ("002"%char, "XY"); ("001"%char, "CD")]
     in (read_channel fed 1 None).1 = Some "ABCD"
        ∧ (read_channel fed 2 None).1 = Some "XY").
Proof.
  intros Hopen. split; [|split].
  - intros timeout ty ch payload Ht Hty Hlen Hpass.
    rewrite update_live by done. by apply on_data_accepted.
  - intros H1 H2 H3 frames channel Hlen.
    rewrite read_channel_peek. cbn [fst]. unfold peek_channel.
    rewrite feed_buffer by done.
    destruct (payloads_of channel frames); [|done].
    by destruct (_channels self !! channel).
  - vm_compute. done.
Qed.

(** C4 at two concrete sessions: a stderr frame on a session with
    combined output, and three frames, two of them on the error channel,
    on the session [exec_command] opens. *)
Lemma C4_update_appends_witness :
  update (__init__ true true true) 5 false (frame "002" "XY")
  = set_channels (<[1 := "XY"]> ∅) (__init__ true true true)
  ∧ (read_channel
       (feed (__init__ true true false)
          [("003"%char, "ab"); ("001"%char, "cd"); ("003"%char, "ef")])
       3 None).1 = Some "abef".
Proof.
  split.
  - apply (proj1 (C4_update_appends (__init__ true true true) eq_refl)
             5%Z BINARY "002"%char "XY");
      [reflexivity | by left | cbn; lia | reflexivity].
  - apply (proj1 (proj2 (C4_update_appends (__init__ true true false) eq_refl))
             eq_refl eq_refl eq_refl
             [("003"%char, "ab"); ("001"%char, "cd"); ("003"%char, "ef")] 3).
    repeat constructor.
Defined.

(** C5, as stated, fails for a session constructed with stderr disabled
    and combined output requested: the constructor enables both channels
    again, and a frame addressed to stderr is buffered on channel 1. *)
Lemma C5_counterexample :
  let self := __init__ true false true in
  let self' := update self 5 false (frame "002" "XY") in
  stderr self = true
  ∧ _channels self' ≠ _channels self
  ∧ _channels self' !! STDOUT_CHANNEL = Some "XY".
Proof. vm_compute. split; [done|]. split; [|done]. discriminate. Qed.

(** The guard of the constructor also fires for a session constructed
    with stdout disabled and no combined output: its stdout frames are
    buffered. *)
Lemma init_stdout_disabled :
  let self := __init__ false true false in
  stdout self = true
  ∧ _channels (update self 5 false (frame "001" "AB")) !! STDOUT_CHANNEL
    = Some "AB".
Proof. vm_compute. done. Qed.

(** C5 (amended): for every session constructed with stdout enabled,
    stderr disabled and combined output not requested, [update] leaves
    the buffers as they are on every frame addressed to stderr; for every
    session constructed with combined output requested, whatever the two
    other flags, the buffer of channel 2 stays empty, and an [update]
    that receives a stderr frame with a payload of at least two
    characters appends it to the buffer of channel 1. *)
Theorem C5_filtering `{libs : !PyLibs} :
  (∀ cs self,
     self = history (__init__ true false false) cs →
     ∀ timeout sock_closed ty ch payload,
       nat_of_ascii ch = STDERR_CHANNEL →
       _channels (update self timeout sock_closed
                    (Message (mkWSMessage ty (String ch payload))))
       = _channels self)
  ∧ (∀ so se cs self,
       self = history (__init__ so se true) cs →
       _channels self !! STDERR_CHANNEL = None
       ∧ ∀ timeout ty ch payload,
           is_open self = true → (0 < timeout)%Z →
           ty = BINARY ∨ ty = TEXT →
           nat_of_ascii ch = STDERR_CHANNEL →
           2 ≤ String.length payload →
           _channels (update self timeout false
                        (Message (mkWSMessage ty (String ch payload))))
           = <[STDOUT_CHANNEL :=
                 (default "" (_channels self !! STDOUT_CHANNEL) +:+ payload)]>
               (_channels self)).
Proof.
  split.
  - intros cs self -> timeout sc ty ch payload Hch.
    set (self := history _ cs).
    destruct (same_flags_history cs (__init__ true false false))
      as (_ & Hse & _). fold self in Hse. cbn in Hse.
    destruct (update_cases self timeout sc
                (Message (mkWSMessage ty (String ch payload))))
      as [->|[->|(ty'&dat&[= <- <-]&_&_&->)]]; [done|done|].
    rewrite on_data_rejected; [done|].
    unfold passes_filter. rewrite Hch, Hse. done.
  - intros so se cs self ->.
    set (self := history _ cs).
    destruct (same_flags_history cs (__init__ so se true))
      as (Hso & Hse & Hco). fold self in Hso, Hse, Hco.
    assert (stdout self = true ∧ stderr self = true ∧ combine_output self = true)
      as (Ho & He & Hc).
    { rewrite Hso, Hse, Hco. by destruct so, se. }
    split.
    + apply stderr_buffer_history; done.
    + intros timeout ty ch payload Hopen Ht Hty Hch Hlen.
      rewrite update_live by done.
      rewrite on_data_accepted by (done || by apply passes_all).
      rewrite channels_set_channels.
      unfold target_channel. by rewrite Hch, Hc.
Qed.

(** C5 at three concrete sessions, each receiving the frame (2,"XY"). *)
Lemma C5_filtering_witness :
  _channels (update (__init__ true false false) 5 false (frame "002" "XY"))
  = ∅
  ∧ _channels (history (libs := samples.libs) (__init__ false false true)
                 [CallUpdate 5 false (frame "002" "XY")])
      !! STDERR_CHANNEL = None
  ∧ _channels (update (__init__ true false true) 5 false (frame "002" "XY"))
    = <[STDOUT_CHANNEL := "XY"]> ∅.
Proof.
  split; [|split].
  - apply (proj1 (C5_filtering (libs := samples.libs)) []
             (__init__ true false false) eq_refl 5%Z false BINARY
             "002"%char "XY" eq_refl).
  - apply (proj1 (proj2 (C5_filtering (libs := samples.libs)) false false
             [CallUpdate 5 false (frame "002" "XY")] _ eq_refl)).
  - apply (proj2 (proj2 (C5_filtering (libs := samples.libs)) true false
             [] _ eq_refl) 5%Z BINARY "002"%char "XY");
      [reflexivity | reflexivity | by left | reflexivity | cbn; lia].
Defined.

End ws_client_claims.

Section returncode_claim.
Import ws_client.

(** C3: on every session made by the constructor and used through its
    methods, [returncode] is [None] while the session is open; once it is
    closed, an error-channel payload with status "Success" gives 0 and one
    with another status gives the integer parsed from the message of its
    first cause; a session closed without any frame on the error channel
    makes the read raise the 500 "Broken connection" exception; and after
    a read has given a value, every later read gives the same value,
    whatever is called on the session in between. *)
Theorem C3_returncode `{libs : !PyLibs} so se co cs (self : ExecWSClient) :
  self = history (__init__ so se co) cs →
  (is_open self = true → returncode self = (Return None, self))
  ∧ (is_open self = false →
     ∀ err doc st,
       _channels self !! ERROR_CHANNEL = Some err →
       yaml_safe_load err = Some doc →
       getitem_str doc "status" = Return st →
       (eq_str st "Success" = true →
        (returncode self).1 = Return (Some 0%Z))
       ∧ (eq_str st "Success" = false →
          ∀ m n, first_cause_message doc = Return m → int m = Return n →
                 (returncode self).1 = Return (Some n)))
  ∧ (is_open self = false →
     Forall (λ c, receives_on ERROR_CHANNEL c = false) cs →
     returncode self = (Raise (ApiException 500 "Broken connection"), self))
  ∧ (∀ v self',
       returncode self = (Return (Some v), self') →
       ∀ cs', returncode (history self' cs')
              = (Return (Some v), history self' cs')).
Proof.
  intros ->. set (self := history _ cs).
  assert (memo_ok self) as Hmemo.
  { apply memo_ok_history, memo_ok_init. }
  split; [|split; [|split]].
  - intros Ho. unfold returncode. by rewrite Ho.
  - intros Ho err doc st Herr Hdoc Hst.
    assert (∀ v, decode_status err = Return v →
                 (returncode self).1 = Return (Some v)) as Hdec.
    { intros v Hv. unfold returncode, peek_channel. rewrite Ho, Herr, Hv.
      destruct (_returncode self) as [rc|] eqn:Hr; [|done].
      destruct (Hmemo rc Hr) as [_ Hd]. specialize (Hd err Herr).
      cbn. congruence. }
    split.
    + intros Hs. apply Hdec. unfold decode_status. rewrite Hdoc, Hst.
      cbn. by rewrite Hs.
    + intros Hs m n Hm Hn. apply Hdec. unfold decode_status.
      rewrite Hdoc, Hst. cbn. rewrite Hs, Hm. cbn. done.
  - intros Ho Hcs.
    destruct (no_status_history cs (__init__ so se co) Hcs) as [Hch Hm];
      [done|].
    fold self in Hch, Hm.
    unfold returncode, peek_channel. by rewrite Ho, Hm, Hch.
  - intros v self' Hr cs'.
    apply resolved_returncode, resolved_history.
    by apply returncode_resolves with self.
Qed.

(** C3 at concrete sessions: an open one, one closed after a "Success"
    status, one closed after a failure status with cause message '137',
    one closed by a dead socket, and one read again after its error
    buffer has been emptied. *)
Lemma C3_returncode_witness :
  let closed payload :=
    history (libs := samples.libs) (__init__ true true false)
      [CallUpdate 5 false (frame "003" payload);
       CallUpdate 5 false (Message (mkWSMessage CLOSE ""))] in
  returncode (libs := samples.libs) (__init__ true true false)
    = (Return None, __init__ true true false)
  ∧ (returncode (libs := samples.libs) (closed "{status: Success}")).1
    = Return (Some 0%Z)
  ∧ (returncode (libs := samples.libs) (closed samples.failure_137)).1
    = Return (Some 137%Z)
  ∧ (returncode (libs := samples.libs)
       (history (libs := samples.libs) (__init__ true true false)
          [CallUpdate 5 true Timeout])).1
    = Raise (ApiException 500 "Broken connection")
  ∧ (returncode (libs := samples.libs)
       (history (libs := samples.libs)
          (returncode (libs := samples.libs) (closed samples.failure_137)).2
          [CallRead 3 None; CallReturncode])).1
    = Return (Some 137%Z).
Proof.
  intros closed.
  split; [|split; [|split; [|split]]].
  - apply (proj1 (C3_returncode (libs := samples.libs) true true false []
                    _ eq_refl)). reflexivity.
  - destruct (proj1 (proj2 (C3_returncode (libs := samples.libs) true true
                              false _ (closed "{status: Success}") eq_refl))
                eq_refl "{status: Success}"
                (YMap [("status", YStr "Success")]) (YStr "Success")
                eq_refl eq_refl eq_refl) as [Hsuccess _].
    apply Hsuccess. reflexivity.
  - destruct (proj1 (proj2 (C3_returncode (libs := samples.libs) true true
                              false _ (closed samples.failure_137) eq_refl))
                eq_refl samples.failure_137
                (YMap [("status", YStr "Failure");
                       ("details",
                        YMap [("causes",
                               YSeq [YMap [("message", YStr "137")]])])])
                (YStr "Failure")
                eq_refl eq_refl eq_refl) as [_ Hfailure].
    apply (Hfailure eq_refl (YStr "137") 137%Z); reflexivity.
  - rewrite (proj1 (proj2 (proj2 (C3_returncode (libs := samples.libs) true
                                    true false [CallUpdate 5 true Timeout]
                                    _ eq_refl)))); [done|done|].
    repeat constructor.
  - rewrite (proj2 (proj2 (proj2 (C3_returncode (libs := samples.libs) true
                                    true false _ (closed samples.failure_137)
                                    eq_refl))) 137%Z
               (returncode (libs := samples.libs)
                  (closed samples.failure_137)).2); [done|].
    vm_compute. reflexivity.
Defined.

End returncode_claim.

Section python_strings.

(** A character that [isspace] accepts is not a capital, so [lower]
    leaves it alone. *)
Lemma lower_char_space c : Py.isspace c = true → Py.lower_char c = c.
Proof.
  destruct c as [[] [] [] [] [] [] [] []]; vm_compute; congruence.
Qed.

Lemma lower_length s : String.length (Py.lower s) = String.length s.
Proof. induction s as [|c s IH]; cbn; congruence. Qed.

(** A reason that is "oomkilled" up to case has no whitespace around it,
    so stripping does not change it. *)
Lemma oomkilled_strip reason :
  Py.lower reason = "oomkilled" → Py.strip reason = reason.
Proof.
  intros H.
  assert (String.length reason = 9) as Hlen.
  { rewrite <- lower_length, H. done. }
  destruct reason as [|c1 [|c2 [|c3 [|c4 [|c5 [|c6 [|c7 [|c8 [|c9 [|]]]]]]]]]];
    try discriminate Hlen.
  cbn in H. injection H as H1 _ _ _ _ _ _ _ H9.
  assert (Py.isspace c1 = false) as Hc1.
  { destruct (Py.isspace c1) eqn:E; [|done].
    pose proof (lower_char_space _ E) as E'. rewrite E' in H1. subst c1.
    vm_compute in E. discriminate E. }
  assert (Py.isspace c9 = false) as Hc9.
  { destruct (Py.isspace c9) eqn:E; [|done].
    pose proof (lower_char_space _ E) as E'. rewrite E' in H9. subst c9.
    vm_compute in E. discriminate E. }
  unfold Py.strip, Py.rstrip. cbn [Py.lstrip]. rewrite Hc1.
  cbn [String.rev String.rev_app Py.lstrip]. by rewrite Hc9.
Qed.
End python_strings.

Section manager_facts.
Import errors manager.
Context `{codes : !Codes}.

Lemma first_other_Some user l cs :
  first_other user l = Some cs ↔
  ∃ pre post, l = pre ++ cs :: post
              ∧ Forall (λ c, name c = user) pre ∧ name cs ≠ user.
Proof.
  induction l as [|c l IH]; cbn [first_other].
  { split; [done|]. intros ([|??]&?&?&_); discriminate. }
  destruct (decide (name c = user)) as [Hc|Hc].
  - rewrite bool_decide_eq_true_2 by done. cbn [negb]. rewrite IH.
    split.
    + intros (pre&post&->&Hpre&Hcs). exists (c :: pre), post.
      split; [done|]. split; [by constructor|done].
    + intros ([|c' pre]&post&Heq&Hpre&Hcs).
      * injection Heq as -> _. done.
      * injection Heq as -> ->. apply Forall_cons in Hpre as [_ Hpre].
        by exists pre, post.
  - rewrite bool_decide_eq_false_2 by done. cbn [negb].
    split.
    + intros [= ->]. exists [], l. by split.
    + intros ([|c' pre]&post&Heq&Hpre&Hcs).
      * by injection Heq as ->.
      * injection Heq as -> _. by apply Forall_cons in Hpre as [? _].
Qed.

Lemma first_other_None user l :
  first_other user l = None ↔ Forall (λ c, name c = user) l.
Proof.
  induction l as [|c l IH]; cbn [first_other]; [by split|].
  destruct (decide (name c = user)) as [Hc|Hc].
  - rewrite bool_decide_eq_true_2 by done. cbn [negb]. rewrite IH.
    split; [by constructor|]. by intros [_ ?]%Forall_cons.
  - rewrite bool_decide_eq_false_2 by done. cbn [negb].
    split; [done|]. by intros [? _]%Forall_cons.
Qed.

Lemma read_fuzzer_container_eq self pod t :
  read_fuzzer_container self pod t =
    (match pod with
     | Return cont_statuses =>
         match first_other (_user_container self) cont_statuses with
         | Some cont_status => Return cont_status
         | None => Raise (ApiException 404 "Fuzzer container not found")
         end
     | Raise e => Raise e
     end,
     t ++ [ReadNamespacedPod (_namespace self) (_pod_name self)]).
Proof.
  unfold read_fuzzer_container, then_, call, lift, ret, raise.
  destruct pod as [l|e]; [|done]. by destruct (first_other _ l).
Qed.

Lemma read_monitor_output_eq self resp t :
  read_monitor_output self resp t =
    (match resp with
     | Return r =>
         if (status r =? 200)%Z then Return (body r)
         else Raise (ApiException (status r) (resp_reason r))
     | Raise e => Raise e
     end,
     t ++ [ReadNamespacedPodLog (_namespace self) (_pod_name self)
             (_user_container self)]).
Proof.
  unfold read_monitor_output, then_, call, lift, ret, raise.
  destruct resp as [r|e]; [|done]. by destruct (status r =? 200)%Z.
Qed.

Lemma status_fetches_app t1 t2 :
  status_fetches (t1 ++ t2) = status_fetches t1 + status_fetches t2.
Proof. unfold status_fetches. by rewrite filter_app, length_app. Qed.

(** Past the fetch, the branch adds at most a read of the log. *)
Lemma disambiguate_trace self cont_info logs env t :
  (disambiguate self cont_info logs env t).2 = t
  ∨ (disambiguate self cont_info logs env t).2 =
      t ++ [ReadNamespacedPodLog (_namespace self) (_pod_name self)
              (_user_container self)].
Proof.
  unfold disambiguate.
  destruct (terminated (state cont_info)) as [term|]; [|by left].
  repeat case_match; try (by left).
  right. unfold then_. rewrite read_monitor_output_eq.
  by repeat case_match.
Qed.

Lemma ambiguous_cases (rc : Z) :
  rc ∈ [102; 128 + 9; 128 + 15]%Z ↔ (rc = 102 ∨ rc = 137 ∨ rc = 143)%Z.
Proof. rewrite !elem_of_cons, elem_of_nil. lia. Qed.

Lemma exec_dispatch_ambiguous self rc out logs env t :
  rc ∈ [102; 137; 143]%Z →
  exec_dispatch self rc out logs env t =
    match read_fuzzer_container self (pod env) t with
    | (Return cont_info, t') => disambiguate self cont_info logs env t'
    | (Raise e, t') => (Raise e, t')
    end.
Proof.
  intros Hrc. unfold exec_dispatch.
  assert ((rc =? 101)%Z = false) as ->.
  { apply ambiguous_cases in Hrc. lia. }
  rewrite bool_decide_eq_true_2 by done. done.
Qed.

(** The dispatch sends nothing but reads of the pod and of its log. *)
Lemma exec_dispatch_trace self rc out logs env t :
  ∃ extra,
    (exec_dispatch self rc out logs env t).2 = t ++ extra
    ∧ Forall (λ x, ∀ a b c d, x ≠ ConnectExec a b c d) extra.
Proof.
  unfold exec_dispatch.
  destruct (rc =? 101)%Z.
  { exists []. by rewrite app_nil_r. }
  destruct (bool_decide _).
  { unfold then_. rewrite read_fuzzer_container_eq.
    set (fetch := ReadNamespacedPod _ _).
    destruct (pod env) as [l|e].
    2:{ exists [fetch]. split; [done|]. by repeat constructor. }
    destruct (first_other _ l) as [ci|].
    2:{ exists [fetch]. split; [done|]. by repeat constructor. }
    destruct (disambiguate_trace self ci logs env (t ++ [fetch]))
      as [-> | ->].
    - exists [fetch]. split; [done|]. by repeat constructor.
    - rewrite <- app_assoc. eexists. split; [done|].
      by repeat constructor. }
  destruct (negb _).
  { exists []. by rewrite app_nil_r. }
  destruct (Py.int_of_str _); exists []; by rewrite app_nil_r.
Qed.
End manager_facts.

Section manager_claims.
Import errors manager.

(** C1, as stated, fails on two terminated states that it sends to
    InternalError.  A reason with whitespace around it is not "oomkilled"
    up to case, yet the code strips it first and raises RamLimitExceeded;
    and when the reason is another one and the read of the monitor log
    fails, the exception of that read is raised, not InternalError. *)
Lemma C1_counterexample :
  let dispatch reason log :=
    (exec_dispatch (codes := samples.codes) samples.manager 137 "" ""
       (samples.exec_env (samples.pod 1 reason) log) []).1 in
  let internal : Outcome Z :=
    Raise (ExAgentError (InternalError (codes := samples.codes) None)) in
  Py.lower " OOMKilled" ≠ "oomkilled"
  ∧ dispatch " OOMKilled" (Return (mkResponse 200 "OK" ""))
    = Raise (ExAgentError (RamLimitExceeded (codes := samples.codes)))
  ∧ dispatch " OOMKilled" (Return (mkResponse 200 "OK" "")) ≠ internal
  ∧ Py.lower "Error" ≠ "oomkilled"
  ∧ dispatch "Error" (Return (mkResponse 500 "Internal Server Error" ""))
    = Raise (ApiException 500 "Internal Server Error")
  ∧ dispatch "Error" (Return (mkResponse 500 "Internal Server Error" ""))
    ≠ internal.
Proof. vm_compute. repeat split; discriminate. Qed.

(** C1 (amended): in the exit-code dispatch of [exec_command], runner exit
    code 101 raises TimeLimitExceeded and sends no request; a code among
    102, 137 and 143 fetches the container status exactly once, and with
    the status fetched: a state that is not terminated raises
    InternalError; terminated with exit code 101 raises
    TmpfsLimitExceeded; with exit code 102 raises FuzzerAbortedError; with
    another exit code and a reason that, stripped of surrounding
    whitespace, is "oomkilled" up to case (as is every reason that is
    "oomkilled" up to case) raises RamLimitExceeded; any other terminated
    state reads the monitor log and raises InternalError when that read
    succeeds, and what the read raises when it fails; every other code but
    0 raises InternalError and sends no request. *)
Theorem C1_exec_dispatch `{codes : !Codes}
    (self : UserContainerManager) (runner_exitcode : Z)
    (runner_output runner_logs : string) (env : ExecEnv) (t : list ApiCall) :
  let res := exec_dispatch self runner_exitcode runner_output runner_logs
               env t in
  let error (e : AgentError) : Outcome Z := Raise (ExAgentError e) in
  (runner_exitcode = 101%Z → res = (error (TimeLimitExceeded None), t))
  ∧ (runner_exitcode ∈ [102; 137; 143]%Z →
     status_fetches res.2 = S (status_fetches t)
     ∧ ∀ cont_info,
         (read_fuzzer_container self (pod env) t).1 = Return cont_info →
         match terminated (state cont_info) with
         | None => res.1 = error (InternalError None)
         | Some term =>
             (exit_code term = 101%Z → res.1 = error TmpfsLimitExceeded)
             ∧ (exit_code term = 102%Z → res.1 = error FuzzerAbortedError)
             ∧ (exit_code term ∉ [101; 102]%Z →
                Py.lower (Py.strip (reason term)) = "oomkilled" →
                res.1 = error RamLimitExceeded)
             ∧ (exit_code term ∉ [101; 102]%Z →
                Py.lower (reason term) = "oomkilled" →
                res.1 = error RamLimitExceeded)
             ∧ (exit_code term ∉ [101; 102]%Z →
                Py.lower (Py.strip (reason term)) ≠ "oomkilled" →
                res.1 =
                  match pod_log env with
                  | Return resp =>
                      if (status resp =? 200)%Z
                      then error (InternalError None)
                      else Raise (ApiException (status resp)
                                    (resp_reason resp))
                  | Raise e => Raise e
                  end)
         end)
  ∧ (runner_exitcode ≠ 0%Z →
     runner_exitcode ∉ [101; 102; 137; 143]%Z →
     res = (error (InternalError None), t)).
Proof.
  intros res error. split; [|split].
  - intros ->. done.
  - intros Hrc. subst res.
    rewrite exec_dispatch_ambiguous by done.
    rewrite read_fuzzer_container_eq. cbn [fst].
    set (t' := t ++ _).
    assert (status_fetches t' = S (status_fetches t)) as Ht'.
    { unfold t'. rewrite status_fetches_app.
      change (status_fetches [ReadNamespacedPod _ _]) with 1. lia. }
    split.
    + destruct (pod env) as [l|e]; [|done].
      destruct (first_other _ l) as [ci|]; [|done].
      destruct (disambiguate_trace self ci runner_logs env t') as [-> | ->];
        [done|].
      rewrite status_fetches_app.
      change (status_fetches [ReadNamespacedPodLog _ _ _]) with 0. lia.
    + intros cont_info Hci.
      assert (match pod env with
              | Return l =>
                  match first_other (_user_container self) l with
                  | Some cs => Return cs
                  | None => Raise (ApiException 404 "Fuzzer container not found")
                  end
              | Raise e => Raise e
              end = Return cont_info) as -> by done.
      unfold disambiguate.
      destruct (terminated (state cont_info)) as [term|]; [|done].
      assert (∀ z : Z, exit_code term ∉ [101; 102]%Z →
                (exit_code term =? 101)%Z = false
                ∧ (exit_code term =? 102)%Z = false) as Hother.
      { intros _. rewrite !elem_of_cons, elem_of_nil. lia. }
      assert (exit_code term ∉ [101; 102]%Z →
              Py.lower (Py.strip (reason term)) = "oomkilled" →
              (if (exit_code term =? 101)%Z
               then raise (ExAgentError TmpfsLimitExceeded)
               else if (exit_code term =? 102)%Z
               then raise (ExAgentError FuzzerAbortedError)
               else if bool_decide (Py.lower (Py.strip (reason term))
                                    = "oomkilled")
               then raise (ExAgentError RamLimitExceeded)
               else then_ (read_monitor_output self (pod_log env))
                      (λ _, raise (ExAgentError (InternalError None)))) t'
              = (error RamLimitExceeded, t')) as Hram.
      { intros Hex Hr. destruct (Hother 0%Z Hex) as [-> ->].
        by rewrite bool_decide_eq_true_2. }
      repeat split.
      * intros ->. done.
      * intros ->. done.
      * intros Hex Hr. by rewrite Hram.
      * intros Hex Hr. rewrite Hram; [done|done|].
        by rewrite (oomkilled_strip _ Hr).
      * intros Hex Hr. destruct (Hother 0%Z Hex) as [-> ->].
        rewrite bool_decide_eq_false_2 by done.
        unfold then_. rewrite read_monitor_output_eq.
        destruct (pod_log env) as [resp|e]; [|done].
        by destruct (status resp =? 200)%Z.
  - intros H0 Hrc. subst res. unfold exec_dispatch.
    revert Hrc. rewrite !elem_of_cons, elem_of_nil. intros Hrc.
    assert ((runner_exitcode =? 101)%Z = false) as -> by lia.
    rewrite bool_decide_eq_false_2.
    2:{ rewrite !elem_of_cons, elem_of_nil. lia. }
    assert ((runner_exitcode =? 0)%Z = false) as -> by lia.
    done.
Qed.

(** C1 at one concrete input per branch of the dispatch. *)
Lemma C1_exec_dispatch_witness :
  let dispatch rc pod log :=
    exec_dispatch (codes := samples.codes) samples.manager rc "" "" (samples.exec_env pod log) [] in
  let error (e : AgentError) : Outcome Z := Raise (ExAgentError e) in
  let ok := Return (mkResponse 200 "OK" "") in
  let fuzzer st := Return [mkStatus "fuzzer" st] in
  dispatch 101%Z (samples.pod 0 "") ok
  = (error (TimeLimitExceeded (codes := samples.codes) None), [])
  ∧ status_fetches (dispatch 143%Z (samples.pod 1 "Error") ok).2 = 1
  ∧ (dispatch 102%Z (fuzzer (mkState (Some tt) None None)) ok).1
    = error (InternalError (codes := samples.codes) None)
  ∧ (dispatch 137%Z (samples.pod 101 "Error") ok).1
    = error (TmpfsLimitExceeded (codes := samples.codes))
  ∧ (dispatch 137%Z (samples.pod 102 "Error") ok).1
    = error (FuzzerAbortedError (codes := samples.codes))
  ∧ (dispatch 137%Z (samples.pod 137 "OOMKilled") ok).1
    = error (RamLimitExceeded (codes := samples.codes))
  ∧ (dispatch 137%Z (samples.pod 1 "Error") ok).1
    = error (InternalError (codes := samples.codes) None)
  ∧ dispatch 1%Z (samples.pod 0 "") ok
    = (error (InternalError (codes := samples.codes) None), []).
Proof.
  intros dispatch error ok fuzzer.
  pose (thm := λ rc pod log,
          C1_exec_dispatch (codes := samples.codes) samples.manager rc "" "" (samples.exec_env pod log) []).
  assert (∀ z : Z, z ∈ [102; 137; 143]%Z ↔ (z = 102 ∨ z = 137 ∨ z = 143)%Z)
    as Hamb.
  { intros z. rewrite !elem_of_cons, elem_of_nil. lia. }
  assert (∀ z : Z, z ∉ [101; 102]%Z ↔ (z ≠ 101 ∧ z ≠ 102)%Z) as Hoth.
  { intros z. rewrite !elem_of_cons, elem_of_nil. lia. }
  split; [|split; [|split; [|split; [|split; [|split; [|split]]]]]].
  - apply (proj1 (thm 101%Z (samples.pod 0 "") ok)). reflexivity.
  - apply (proj1 (proj2 (thm 143%Z (samples.pod 1 "Error") ok))).
    apply Hamb. lia.
  - refine (proj2 (proj1 (proj2 (thm 102%Z
              (fuzzer (mkState (Some tt) None None)) ok)) _)
              (mkStatus "fuzzer" (mkState (Some tt) None None)) eq_refl).
    apply Hamb. lia.
  - refine (proj1 (proj2 (proj1 (proj2 (thm 137%Z (samples.pod 101 "Error")
              ok)) _) (mkStatus "fuzzer" _) eq_refl) eq_refl).
    apply Hamb. lia.
  - refine (proj1 (proj2 (proj2 (proj1 (proj2 (thm 137%Z
              (samples.pod 102 "Error") ok)) _) (mkStatus "fuzzer" _)
              eq_refl)) eq_refl).
    apply Hamb. lia.
  - refine (proj1 (proj2 (proj2 (proj2 (proj2 (proj1 (proj2 (thm 137%Z
              (samples.pod 137 "OOMKilled") ok)) _) (mkStatus "fuzzer" _)
              eq_refl)))) _ eq_refl).
    + apply Hamb. lia.
    + apply Hoth. cbn. lia.
  - refine (proj2 (proj2 (proj2 (proj2 (proj2 (proj1 (proj2 (thm 137%Z
              (samples.pod 1 "Error") ok)) _) (mkStatus "fuzzer" _)
              eq_refl)))) _ _).
    + apply Hamb. lia.
    + apply Hoth. cbn. lia.
    + vm_compute. discriminate.
  - apply (proj2 (proj2 (thm 1%Z (samples.pod 0 "") ok))); [lia|].
    rewrite !elem_of_cons, elem_of_nil. lia.
Defined.

(** C10: [read_fuzzer_container] returns the status of the first
    container of the pod whose name is not the configured user-container
    name, and raises the 404 exception when every container listed bears
    that name; so in [exec_command], which executes into the container
    named as the user container, the status whose state the ambiguous
    exit codes are told apart with never bears that name. *)
Theorem C10_read_fuzzer_container `{codes : !Codes, libs : !PyLibs}
    (self : UserContainerManager) (t : list ApiCall) :
  (∀ cont_statuses cont_status,
     (read_fuzzer_container self (Return cont_statuses) t).1
       = Return cont_status
     ↔ ∃ before rest,
         cont_statuses = before ++ cont_status :: rest
         ∧ Forall (λ c, name c = _user_container self) before
         ∧ name cont_status ≠ _user_container self)
  ∧ (∀ cont_statuses,
       Forall (λ c, name c = _user_container self) cont_statuses →
       (read_fuzzer_container self (Return cont_statuses) t).1
         = Raise (ApiException 404 "Fuzzer container not found"))
  ∧ (∀ runner_exitcode runner_output runner_logs env,
       runner_exitcode ∈ [102; 137; 143]%Z →
       match read_fuzzer_container self (pod env) t with
       | (Return cont_info, t') =>
           name cont_info ≠ _user_container self
           ∧ exec_dispatch self runner_exitcode runner_output runner_logs
               env t
             = disambiguate self cont_info runner_logs env t'
       | (Raise e, t') =>
           exec_dispatch self runner_exitcode runner_output runner_logs
             env t = (Raise e, t')
       end)
  ∧ (∀ env res trace,
       exec_command self env = Some (res, trace) →
       ∀ pod_name namespace container command,
         ConnectExec pod_name namespace container command ∈ trace →
         container = _user_container self).
Proof.
  split; [|split; [|split]].
  - intros l cs. rewrite read_fuzzer_container_eq. cbn [fst].
    rewrite <- first_other_Some.
    destruct (first_other _ l); split; congruence.
  - intros l Hl. rewrite read_fuzzer_container_eq. cbn [fst].
    apply first_other_None in Hl. by rewrite Hl.
  - intros rc out logs env Hrc.
    rewrite exec_dispatch_ambiguous by done.
    rewrite read_fuzzer_container_eq.
    destruct (pod env) as [l|e]; [|done].
    destruct (first_other _ l) as [ci|] eqn:Hci; [|done].
    split; [|done].
    apply first_other_Some in Hci as (?&?&_&_&?). done.
  - intros env res trace Hexec pn ns c cmd Hin.
    unfold exec_command in Hexec.
    unfold then_, call, lift in Hexec. cbn [app] in Hexec.
    set (t0 := [WriteRunnerConfig _]) in Hexec.
    set (t1 := [WriteRunnerConfig _; _]) in Hexec.
    assert (∀ x, x ∈ t1 → ConnectExec pn ns c cmd = x →
                 c = _user_container self) as Ht1.
    { intros x. unfold t1. rewrite !elem_of_cons, elem_of_nil.
      intros [->|[->|[]]]; congruence. }
    assert (∀ x, x ∈ t0 → ConnectExec pn ns c cmd = x →
                 c = _user_container self) as Ht0.
    { intros x. unfold t0. rewrite !elem_of_cons, elem_of_nil.
      intros [->|[]]; congruence. }
    destruct (write_config env); [|injection Hexec as _ <-; eauto].
    destruct (connect env); [|injection Hexec as _ <-; eauto].
    destruct (drain _ _ _ _) as [[[resp out] logs]|]; [|discriminate].
    destruct (ws_client.returncode resp) as [[[rc|]|e] ?];
      [|injection Hexec as _ <-; eauto..].
    injection Hexec as Hexec.
    destruct (exec_dispatch_trace self rc out logs env t1)
      as (extra & Htrace & Hextra).
    rewrite Hexec in Htrace. cbn [snd] in Htrace. subst trace.
    apply elem_of_app in Hin as [Hin|Hin]; [eauto|].
    rewrite Forall_forall in Hextra. by destruct (Hextra _ Hin pn ns c cmd).
Qed.

End manager_claims.

Section manager_examples.
Import errors manager ws_client.

(** C10 at a pod with a second container, at a pod with the user
    container alone, and at a dispatch on exit code 143. *)
Lemma C10_read_fuzzer_container_witness :
  (read_fuzzer_container samples.manager samples.ready []).1
  = Return (mkStatus "fuzzer" (mkState (Some tt) None None))
  ∧ (read_fuzzer_container samples.manager
       (Return [mkStatus "user" (mkState (Some tt) None None)]) []).1
    = Raise (ApiException 404 "Fuzzer container not found")
  ∧ (exec_dispatch (codes := samples.codes) samples.manager 143 "" ""
       (samples.exec_env (samples.pod 102 "Error")
          (Return (mkResponse 200 "OK" ""))) []).1
    = Raise (ExAgentError (FuzzerAbortedError (codes := samples.codes))).
Proof.
  pose (thm := C10_read_fuzzer_container (codes := samples.codes)
                 (libs := samples.libs) samples.manager []).
  split; [|split].
  - apply (proj1 thm).
    exists [mkStatus "user" (mkState (Some tt) None None)], [].
    split; [reflexivity|]. split; [|discriminate].
    repeat constructor.
  - apply (proj1 (proj2 thm)). repeat constructor.
  - assert (143%Z ∈ [102; 137; 143]%Z) as Hcode.
    { rewrite !elem_of_cons. tauto. }
    destruct (proj1 (proj2 (proj2 thm)) 143%Z "" ""
                (samples.exec_env (samples.pod 102 "Error")
                   (Return (mkResponse 200 "OK" ""))) Hcode) as [_ Heq].
    rewrite Heq. reflexivity.
Defined.

(** The executor on a runner that exits with 0 and prints one digit: the
    frame (1,"7") is a data message of two characters, so its payload
    never reaches the stdout buffer and the output does not parse; with a
    line break after the digit the executor returns 7. *)
Lemma exec_command_one_digit :
  let env out :=
    mkExecEnv (Return tt) (Return tt)
      [(false, frame "001" out); (false, frame "003" "{status: Success}");
       (false, Message (mkWSMessage CLOSE ""))]
      samples.ready (Return (mkResponse 200 "OK" "")) in
  let exec out :=
    fst <$> exec_command (codes := samples.codes) (libs := samples.libs)
              samples.manager (env out) in
  exec "7"
  = Some (Raise (ExAgentError (InternalError (codes := samples.codes) None)))
  ∧ exec (String "7" (String "010" "")) = Some (Return 7%Z)
  ∧ exec "abc"
    = Some (Raise (ExAgentError (InternalError (codes := samples.codes) None))).
Proof. vm_compute. done. Qed.

End manager_examples.

Section signal_handler_facts.
Import entry.
Variable signums : list Signals.
Variable prior : Signals → nat.

Lemma run_app w evs1 evs2 :
  run signums w (evs1 ++ evs2) = run signums (run signums w evs1) evs2.
Proof. apply foldl_app. Qed.

Lemma lock_free older :
  existsb holds_lock older = false ↔
  filter (λ f, holds_lock f = true) older = [].
Proof.
  induction older as [|f older IH]; [done|]. cbn [existsb].
  rewrite filter_cons. destruct (holds_lock f) eqn:Hf.
  - rewrite decide_True by done. cbn. split; discriminate.
  - rewrite decide_False by congruence. cbn. done.
Qed.

Lemma holders_cons f older w :
  frames w = f :: older →
  holders w = if holds_lock f
              then f :: filter (λ f, holds_lock f = true) older
              else filter (λ f, holds_lock f = true) older.
Proof.
  unfold holders. intros ->. rewrite filter_cons.
  destruct (holds_lock f) eqn:Hf.
  - by rewrite decide_True.
  - by rewrite decide_False by congruence.
Qed.

(** The statements of [wrapper] do not look at the closure. *)
Lemma wrapper_closure w :
  frames (wrapper signums w) = frames w
  ∧ _catched (wrapper signums w) = _catched w
  ∧ cancel_calls (wrapper signums w) = cancel_calls w.
Proof. unfold wrapper. by repeat case_match. Qed.

Lemma guarded_step w ev : guarded w → guarded (step signums w ev).
Proof.
  intros H. destruct ev as [s|]; cbn [step].
  { destruct (table w s); [done|]. by destruct w. }
  destruct (frames w) as [|f older] eqn:Hfr.
  { destruct (wrapper_closure w) as (Hf & Hc & Hn).
    unfold guarded, holders in *. by rewrite Hf, Hc, Hn. }
  unfold guarded in H. rewrite (holders_cons f older w Hfr) in H.
  assert (∀ g w', frames w' = g :: older → holds_lock g = true →
            filter (λ f, holds_lock f = true) older = [] →
            holders w' = [g]) as Hone.
  { intros g w' Hw' Hg Hfree. rewrite (holders_cons g older w' Hw'), Hg.
    by rewrite Hfree. }
  destruct f; cbn [holds_lock _signal_handler] in *.
  - destruct (existsb holds_lock older) eqn:Hl.
    + unfold guarded. by rewrite (holders_cons Entering older w Hfr).
    + apply lock_free in Hl. rewrite Hl in H. unfold guarded.
      by rewrite (Hone Checking).
  - destruct (filter _ older) as [|g held] eqn:Hheld; [|by destruct g, held].
    destruct (_catched w) eqn:Hc; unfold guarded.
    + unfold holders. cbn [frames set_frames]. rewrite Hheld.
      cbn [_catched cancel_calls set_frames]. by rewrite Hc.
    + rewrite (Hone Logging) by done.
      cbn [_catched cancel_calls set_frames]. by rewrite Hc.
  - destruct (filter _ older) as [|g held] eqn:Hheld; [|by destruct g, held].
    unfold guarded. by rewrite (Hone Setting).
  - destruct (filter _ older) as [|g held] eqn:Hheld; [|by destruct g, held].
    unfold guarded. rewrite (Hone Cancelling) by done. by destruct H.
  - destruct (filter _ older) as [|g held] eqn:Hheld; [|by destruct g, held].
    unfold guarded. rewrite (Hone Leaving) by done. by destruct H as [-> ->].
  - destruct (filter _ older) as [|g held] eqn:Hheld; [|by destruct g, held].
    unfold guarded, holders. cbn [frames set_frames]. rewrite Hheld.
    cbn [_catched cancel_calls set_frames]. by destruct H as [-> ->].
Qed.

Lemma guarded_run evs : ∀ w, guarded w → guarded (run signums w evs).
Proof.
  induction evs as [|ev evs IH]; intros w H; [done|].
  apply (IH (step signums w ev)). by apply guarded_step.
Qed.

Lemma guarded_once w : guarded w → cancel_calls w ≤ 1.
Proof.
  unfold guarded. destruct (holders w) as [|f [|g held]].
  - intros ->. destruct (_catched w); lia.
  - destruct f; try done; try (intros [_ ->]; lia).
    intros ->. destruct (_catched w); lia.
  - by destruct f.
Qed.
End signal_handler_facts.

Section wrapper_facts.
Import entry dispositions.
Variable signums : list Signals.
Variable prior : Signals → nat.

(** A step is a statement of [wrapper], or leaves the table, the saved
    handlers and the phase as they are. *)
Lemma step_cases w ev :
  (frames w = [] ∧ ev = Advance ∧ step signums w ev = wrapper signums w)
  ∨ (table (step signums w ev) = table w
     ∧ _handlers (step signums w ev) = _handlers w
     ∧ phase (step signums w ev) = phase w).
Proof.
  destruct ev as [s|]; cbn [step].
  { right. by destruct (table w s). }
  destruct (frames w) as [|f older]; [by left|]. right.
  destruct f; cbn [_signal_handler]; by repeat case_match.
Qed.

Lemma signal_catchable s h t :
  catchable s = true →
  signal s h t = Some (λ x, if bool_decide (x = s) then h else t x).
Proof. unfold signal. by intros ->. Qed.

Lemma signal_table s h t t' x :
  signal s h t = Some t' → t' x = if bool_decide (x = s) then h else t x.
Proof. unfold signal. destruct (catchable s); [|done]. by intros [= <-]. Qed.

Lemma found_app seen a b :
  found prior seen (a ++ b)
  = found prior seen a ++ found prior (seen ++ a) b.
Proof.
  revert seen. induction a as [|s a IH]; intros seen.
  { by rewrite app_nil_r. }
  cbn. rewrite IH. by rewrite <- app_assoc.
Qed.

Lemma count_occ_snoc (l : list Signals) s x :
  count_occ Nat.eq_dec (l ++ [x]) s
  = count_occ Nat.eq_dec l s + if bool_decide (x = s) then 1 else 0.
Proof.
  rewrite count_occ_app. cbn. destruct (Nat.eq_dec x s) as [->|Hne].
  - by rewrite bool_decide_eq_true_2.
  - by rewrite bool_decide_eq_false_2.
Qed.

Lemma tracked_start : tracked signums prior (start signums prior).
Proof.
  exists []. split; [done|]. split; [done|]. intros s.
  rewrite bool_decide_eq_false_2; [done|]. by intros ?%elem_of_nil.
Qed.

Lemma tracked_wrapper w :
  Forall (λ s, catchable s = true) signums →
  tracked signums prior w → tracked signums prior (wrapper signums w).
Proof.
  intros Hcatch H. unfold tracked, wrapper in *.
  destruct (phase w) as [[|s0 rest]| |[|[s0 h0] rest]| |] eqn:Hph.
  - destruct H as (done & Hs & Hh & Ht). rewrite app_nil_r in Hs.
    by subst done.
  - destruct H as (done & Hs & Hh & Ht).
    assert (catchable s0 = true) as Hs0.
    { rewrite Hs in Hcatch. apply Forall_app in Hcatch as [_ Hcatch].
      by apply Forall_cons in Hcatch as [? _]. }
    rewrite (signal_catchable _ _ _ Hs0). cbn [phase _handlers table].
    exists (done ++ [s0]).
    split; [by rewrite <- app_assoc|]. split.
    + rewrite found_app, Hh. cbn. by rewrite (Ht s0).
    + intros s. cbn [table].
      destruct (decide (s = s0)) as [->|Hne].
      * rewrite (bool_decide_eq_true_2 (s0 = s0)) by done.
        rewrite bool_decide_eq_true_2; [done|].
        rewrite elem_of_app, list_elem_of_singleton. tauto.
      * rewrite (bool_decide_eq_false_2 (s = s0)) by done. rewrite (Ht s).
        rewrite (bool_decide_ext (s ∈ done ++ [s0]) (s ∈ done)); [done|].
        rewrite elem_of_app, list_elem_of_singleton. tauto.
  - cbn [phase _handlers table]. destruct H as [Hh Ht]. exists [], signums.
    split; [done|].
    split; [by rewrite Hh|]. intros s. rewrite (Ht s). unfold restored.
    rewrite (bool_decide_eq_false_2 (s ∈ [])); [done|].
    by intros ?%elem_of_nil.
  - cbn [phase _handlers table]. destruct H as (done & todo & Hs & Hz & Ht).
    destruct todo as [|s1 todo]; [|done].
    rewrite app_nil_r in Hs. subst done. intros s. rewrite (Ht s). done.
  - destruct H as (done & todo & Hs & Hz & Ht).
    destruct todo as [|s1 todo]; [done|]. cbn in Hz.
    injection Hz as -> -> ->.
    assert (catchable s1 = true) as Hs1.
    { rewrite Hs in Hcatch. apply Forall_app in Hcatch as [_ Hcatch].
      by apply Forall_cons in Hcatch as [? _]. }
    rewrite (signal_catchable _ _ _ Hs1). cbn [phase _handlers table].
    exists (done ++ [s1]), todo. split; [by rewrite <- app_assoc|].
    split; [done|]. intros s. unfold restored.
    rewrite count_occ_snoc.
    assert (s ∈ done ++ [s1] ↔ s ∈ done ∨ s = s1) as Hsnoc.
    { by rewrite elem_of_app, list_elem_of_singleton. }
    destruct (decide (s = s1)) as [->|Hne].
    + rewrite (bool_decide_eq_true_2 (s1 = s1)) by done.
      rewrite (bool_decide_eq_true_2 (s1 ∈ done ++ [s1])) by tauto.
      destruct (decide (s1 ∈ done)) as [Hin|Hin].
      * rewrite (bool_decide_eq_true_2 (s1 ∈ done)) by done.
        rewrite bool_decide_eq_true_2; [done|].
        apply list_elem_of_In, (count_occ_In Nat.eq_dec) in Hin. lia.
      * rewrite (bool_decide_eq_false_2 (s1 ∈ done)) by done.
        rewrite bool_decide_eq_false_2; [done|].
        assert (count_occ Nat.eq_dec done s1 = 0); [|lia].
        apply count_occ_not_In. by rewrite <- list_elem_of_In.
    + rewrite (bool_decide_eq_false_2 (s = s1)) by done.
      rewrite (bool_decide_eq_false_2 (s1 = s)) by done.
      rewrite Nat.add_0_r. rewrite (Ht s). unfold restored.
      rewrite (bool_decide_ext (s ∈ done ++ [s1]) (s ∈ done)) by tauto.
      rewrite (bool_decide_ext (s ∈ s1 :: todo) (s ∈ todo)); [done|].
      rewrite elem_of_cons. tauto.
  - by rewrite Hph.
  - by rewrite Hph.
Qed.

Lemma tracked_step w ev :
  Forall (λ s, catchable s = true) signums →
  tracked signums prior w → tracked signums prior (step signums w ev).
Proof.
  intros Hcatch H.
  destruct (step_cases w ev) as [(_ & _ & ->)|(Ht & Hh & Hp)];
    [by apply tracked_wrapper|].
  unfold tracked, table_is in *. by rewrite Ht, Hh, Hp.
Qed.

Lemma tracked_run evs : ∀ w,
  Forall (λ s, catchable s = true) signums →
  tracked signums prior w → tracked signums prior (run signums w evs).
Proof.
  induction evs as [|ev evs IH]; intros w Hcatch H; [done|].
  apply (IH (step signums w ev)); [done|]. by apply tracked_step.
Qed.

Lemma zip_fst_elem {A B} (l : list A) (k : list B) p :
  p ∈ zip l k → p.1 ∈ l.
Proof.
  revert k. induction l as [|a l IH]; intros [|b k]; cbn;
    try (by intros ?%elem_of_nil).
  intros [->|Hin]%elem_of_cons; [apply list_elem_of_here|].
  apply list_elem_of_further. by eapply IH.
Qed.

Lemma untouched_start : untouched signums prior (start signums prior).
Proof. split; [by intros s|]. cbn. auto. Qed.

Lemma untouched_wrapper w :
  untouched signums prior w → untouched signums prior (wrapper signums w).
Proof.
  intros [Ht Hp]. unfold untouched, wrapper in *.
  destruct (phase w) as [[|s0 rest]| |[|[s0 h0] rest]| |] eqn:Hph;
    try (by rewrite ?Hph).
  - destruct (signal s0 new_handler (table w)) as [t'|] eqn:Hsig;
      cbn [phase table].
    + split.
      * intros s Hs. rewrite (signal_table _ _ _ _ s Hsig).
        rewrite bool_decide_eq_false_2; [by apply Ht|].
        intros ->. apply Hs, Hp, list_elem_of_here.
      * intros s Hs. by apply Hp, list_elem_of_further.
    + split; [done|]. intros p. apply zip_fst_elem.
  - cbn [phase table]. split; [done|]. intros p. apply zip_fst_elem.
  - destruct (signal s0 h0 (table w)) as [t'|] eqn:Hsig; cbn [phase table].
    + split.
      * intros s Hs. rewrite (signal_table _ _ _ _ s Hsig).
        rewrite bool_decide_eq_false_2; [by apply Ht|].
        intros ->. apply Hs. apply (Hp (s0, h0)), list_elem_of_here.
      * intros p Hin. by apply Hp, list_elem_of_further.
    + done.
Qed.

Lemma untouched_run evs : ∀ w,
  untouched signums prior w → untouched signums prior (run signums w evs).
Proof.
  induction evs as [|ev evs IH]; intros w H; [done|].
  apply (IH (step signums w ev)).
  destruct (step_cases w ev) as [(_ & _ & ->)|(Ht & Hh & Hp)];
    [by apply untouched_wrapper|].
  unfold untouched in *. by rewrite Ht, Hp.
Qed.

Lemma zip_snoc {A B} (done rest : list A) (hs : list B) a h :
  length hs = length done →
  zip (done ++ a :: rest) (hs ++ [h]) = zip done hs ++ [(a, h)].
Proof.
  revert hs. induction done as [|d done IH]; intros [|b hs]; try done.
  - intros _. cbn. by destruct rest.
  - cbn. intros [= Hlen]. by rewrite IH.
Qed.

Lemma doomed_start :
  Exists (λ s, catchable s = false) signums →
  doomed signums (start signums prior).
Proof. intros H. by exists []. Qed.

Lemma doomed_wrapper w : doomed signums w → doomed signums (wrapper signums w).
Proof.
  unfold doomed, wrapper.
  destruct (phase w) as [[|s0 rest]| |[|[s0 h0] rest]| |] eqn:Hph.
  - intros (done & _ & _ & H). by apply Exists_nil in H.
  - intros (done & Hs & Hlen & Hex). unfold signal.
    destruct (catchable s0) eqn:Hs0; cbn [phase _handlers].
    + exists (done ++ [s0]). split; [by rewrite <- app_assoc|].
      split; [rewrite !length_app; cbn; lia|].
      apply Exists_cons in Hex as [Hex|Hex]; [congruence|done].
    + rewrite Hs, zip_snoc by done. apply Exists_app. right.
      by apply Exists_cons_hd.
  - done.
  - intros H. by apply Exists_nil in H.
  - intros Hex. unfold signal.
    destruct (catchable s0) eqn:Hs0; cbn [phase]; [|done].
    apply Exists_cons in Hex as [Hex|Hex]; [cbn in Hex; congruence|done].
  - done.
  - by rewrite Hph.
Qed.

Lemma doomed_run evs : ∀ w, doomed signums w → doomed signums (run signums w evs).
Proof.
  induction evs as [|ev evs IH]; intros w H; [done|].
  apply (IH (step signums w ev)).
  destruct (step_cases w ev) as [(_ & _ & ->)|(Ht & Hh & Hp)];
    [by apply doomed_wrapper|].
  unfold doomed in *. by rewrite Hh, Hp.
Qed.

Lemma remaining_wrapper w :
  remaining signums (wrapper signums w) ≤ remaining signums w - 1.
Proof.
  unfold remaining, wrapper.
  destruct (phase w) as [[|s rest]| |[|[s h] rest]| |] eqn:Hph;
    cbn [phase length]; rewrite ?Hph; try lia.
  - destruct (signal _ _ _); cbn [phase length]; [lia|].
    pose proof (length_zip_with pair signums
                  (_handlers w ++ [table w s])) as Hzip.
    fold (zip signums (_handlers w ++ [table w s])) in Hzip. lia.
  - pose proof (length_zip_with pair signums (_handlers w)) as Hzip.
    fold (zip signums (_handlers w)) in Hzip. lia.
  - destruct (signal _ _ _); cbn [phase length]; lia.
Qed.

(** With no activation of the handler under way and no signal arriving,
    every step is a statement of [wrapper]. *)
Lemma remaining_quiet quiet : ∀ w,
  frames w = [] → Forall (λ ev, ev = Advance) quiet →
  remaining signums (run signums w quiet)
  ≤ remaining signums w - length quiet.
Proof.
  induction quiet as [|ev quiet IH]; intros w Hfr Hq; [cbn; lia|].
  apply Forall_cons in Hq as [-> Hq].
  change (run signums w (Advance :: quiet))
    with (run signums (step signums w Advance) quiet).
  cbn [step]. rewrite Hfr.
  destruct (wrapper_closure signums w) as (Hf & _ & _).
  specialize (IH (wrapper signums w) ltac:(by rewrite Hf) Hq).
  pose proof (remaining_wrapper w). cbn [length]. lia.
Qed.

Lemma remaining_0 w :
  remaining signums w = 0 → phase w = Finished ∨ phase w = Refused.
Proof. unfold remaining. destruct (phase w); auto; lia. Qed.
End wrapper_facts.

Section signal_handler_claim.
Import entry.

(** An activation that waits for the lock while an older one holds it:
    the older one goes on only when the younger has returned, so nothing
    moves any more, whatever arrives. *)
Lemma waiting_forever signums evs : ∀ w,
  (∃ k g older, frames w = replicate (S k) Entering ++ g :: older
                ∧ holds_lock g = true) →
  let w' := run signums w evs in
  (∃ k g older, frames w' = replicate (S k) Entering ++ g :: older
                ∧ holds_lock g = true)
  ∧ cancel_calls w' = cancel_calls w
  ∧ _catched w' = _catched w
  ∧ phase w' = phase w
  ∧ table w' = table w.
Proof.
  induction evs as [|ev evs IH]; intros w Hw; [done|].
  change (run signums w (ev :: evs))
    with (run signums (step signums w ev) evs). cbn zeta.
  assert ((∃ k g older,
             frames (step signums w ev)
             = replicate (S k) Entering ++ g :: older
             ∧ holds_lock g = true)
          ∧ cancel_calls (step signums w ev) = cancel_calls w
          ∧ _catched (step signums w ev) = _catched w
          ∧ phase (step signums w ev) = phase w
          ∧ table (step signums w ev) = table w) as (Hw' & Hn & Hc & Hp & Ht).
  { destruct Hw as (k & g & older & Hfr & Hg).
    destruct ev as [s|]; cbn [step].
    - destruct (table w s); [split; [eauto|done]|].
      split; [|done]. exists (S k), g, older. cbn [frames set_frames].
      by rewrite Hfr.
    - rewrite Hfr. cbn [replicate app _signal_handler].
      assert (existsb holds_lock (replicate k Entering ++ g :: older)
              = true) as ->.
      { apply existsb_exists. exists g. split; [|done].
        apply in_or_app. right. by left. }
      split; [|done]. exists k, g, older. by rewrite Hfr. }
  destruct (IH _ Hw') as (H1 & H2 & H3 & H4 & H5).
  split; [done|]. by rewrite H2, H3, H4, H5.
Qed.

(** C7: a second signal that arrives while the handler of the first one
    is between taking and releasing its lock.  The activation for the
    second signal waits for the lock of the first, which cannot go on
    before the second has returned: whatever happens afterwards,
    [task.cancel()] is never called and [wrapper] never leaves its
    [await].  Without the second signal the same run cancels the task
    once. *)
Theorem C7_signal_during_handler (prior : Signals → nat)
    (evs : list Event) :
  let protected := run agent_signums (start agent_signums prior) in
  let first := [Advance; Advance; Advance; Advance;
                Deliver SIGTERM; Advance] in
  let final := protected (first ++ Deliver SIGINT :: evs) in
  cancel_calls final = 0
  ∧ phase final = Awaiting
  ∧ head (frames final) = Some Entering
  ∧ cancel_calls
      (protected (first ++ [Advance; Advance; Advance; Advance; Advance]))
    = 1.
Proof.
  intros protected first final. unfold final, protected.
  replace (first ++ Deliver SIGINT :: evs)
    with ((first ++ [Deliver SIGINT]) ++ evs) by by rewrite <- app_assoc.
  rewrite run_app.
  destruct (waiting_forever agent_signums evs
              (run agent_signums (start agent_signums prior)
                 (first ++ [Deliver SIGINT])))
    as ((k & g & older & Hfr & _) & Hn & _ & Hp & _).
  { by exists 0, Checking, []. }
  rewrite Hn, Hp, Hfr. done.
Qed.
End signal_handler_claim.

Section send_crash_claim.
Import errors entry.

(** C6, as stated, fails after the send of a crash that comes with both
    fields set and an input below the threshold: nothing is rewritten and
    both fields are still populated. *)
Lemma C6_counterexample :
  let crash := mkCrash "crash" (Some "earlier-id") (Some "QQ==") "SEGV" true in
  let sent := _send_crash (codes := samples.codes) (libs := samples.libs)
                samples.settings "run-" "2024-01-01T00:01:00Z" crash
                samples.send_env empty_world in
  sent.1.1 = Return tt
  ∧ input sent.1.2 = Some "QQ=="
  ∧ input_id sent.1.2 = Some "earlier-id"
  ∧ both_populated sent.1.2.
Proof. vm_compute. repeat split; eauto. Qed.

Section facts.
Context `{codes : !Codes, libs : !PyLibs}.

(** What [offload] leaves of the crash: the crash itself, or the crash
    with its input moved out. *)
Lemma offload_cases settings run_id crash env w :
  match offload settings run_id crash env w with
  | (Raise _, w') => True
  | (Return crash', w') =>
      (crash' = crash ∧ w' = w)
      ∨ (input crash' = None
         ∧ input_id crash' = Some (run_id +:+ random_string_10 env))
  end.
Proof.
  unfold offload, upload_crash. repeat case_match; simplify_eq; auto.
Qed.

Lemma send_crash_cases settings run_id created crash env w :
  let sent := _send_crash settings run_id created crash env w in
  sent.1.2 = crash
  ∨ (input sent.1.2 = None
     ∧ input_id sent.1.2 = Some (run_id +:+ random_string_10 env)).
Proof.
  cbn zeta. unfold _send_crash.
  pose proof (offload_cases settings run_id crash env w) as H.
  destruct (offload settings run_id crash env w) as [[crash'|e] w'];
    [|by left].
  destruct H as [[-> ->]|H]; destruct (produce_crash env); cbn; auto.
Qed.
End facts.

(** C6 (amended): for every crash whose inline input is longer than the
    configured threshold, a send in which the decoding and the upload
    succeed stores the decoded payload in content storage under the
    identifier made of the run id and ten fresh random characters, clears
    the inline input of the record and records that identifier, and the
    message then produced carries the rewritten record; a crash whose
    input is not longer than the threshold is sent as it is; and after
    every send the input and input_id fields are not both populated
    unless they both were before it. *)
Theorem C6_send_crash `{codes : !Codes, libs : !PyLibs}
    (settings : AppSettings) (run_id created : string) (crash : CrashBase)
    (env : SendEnv) (w : World) :
  let sent := _send_crash settings run_id created crash env w in
  let crash' := sent.1.2 in
  let fresh_id := run_id +:+ random_string_10 env in
  (∀ inp input_bytes,
     input crash = Some inp →
     crash_max_size (fuzzer settings) < String.length inp →
     b64decode inp = Some input_bytes →
     upload_bytes env = Return tt →
     objects sent.2 !! crash_key settings fresh_id = Some input_bytes
     ∧ crash' = mkCrash (type crash) (Some fresh_id) None (output crash)
                  (reproduced crash)
     ∧ (produce_crash env = Return tt →
        sent.1.1 = Return tt
        ∧ new_crashes sent.2
          = new_crashes w ++ [mkNewCrash (fuzzer settings) crash' created]))
  ∧ (∀ inp,
       input crash = Some inp →
       String.length inp ≤ crash_max_size (fuzzer settings) →
       crash' = crash ∧ objects sent.2 = objects w
       ∧ (produce_crash env = Return tt →
          sent.1.1 = Return tt
          ∧ new_crashes sent.2
            = new_crashes w ++ [mkNewCrash (fuzzer settings) crash created]))
  ∧ (¬ both_populated crash → ¬ both_populated crash').
Proof.
  intros sent crash' fresh_id. split; [|split].
  - intros inp input_bytes Hinp Hlen Hdec Hup. subst crash' sent.
    unfold _send_crash, offload, upload_crash. rewrite Hinp.
    assert ((crash_max_size (fuzzer settings) <? String.length inp) = true)
      as -> by (by apply Nat.ltb_lt).
    rewrite Hdec, Hup. fold fresh_id.
    destruct (crash_key settings fresh_id) as [bucket key] eqn:Hkey.
    destruct (produce_crash env) as [[]|e]; cbn;
      (split; [by rewrite lookup_insert_eq|]); split; try done.
  - intros inp Hinp Hlen. subst crash' sent.
    unfold _send_crash, offload. rewrite Hinp.
    assert ((crash_max_size (fuzzer settings) <? String.length inp) = false)
      as -> by (by apply Nat.ltb_ge).
    destruct (produce_crash env) as [[]|e]; cbn; repeat split; done.
  - intros Hpre [Hin Hid].
    destruct (send_crash_cases settings run_id created crash env w)
      as [Heq|[Hnone _]]; fold sent in Heq || fold sent in Hnone.
    + apply Hpre. fold crash' in Heq. rewrite <- Heq. by split.
    + fold crash' in Hnone. rewrite Hnone in Hin. by destruct Hin.
Qed.

(** C6 at a crash above the threshold and at one below it. *)
Lemma C6_send_crash_witness :
  let sent crash :=
    _send_crash (codes := samples.codes) (libs := samples.libs)
      samples.settings "run-" "2024-01-01T00:01:00Z" crash samples.send_env
      empty_world in
  objects (sent samples.big_crash).2
    !! crash_key samples.settings "run-0123456789" = Some "ABCD"
  ∧ (sent samples.small_crash).1.2 = samples.small_crash
  ∧ ¬ both_populated (sent samples.big_crash).1.2.
Proof.
  intros sent.
  pose (thm := λ crash,
          C6_send_crash (codes := samples.codes) (libs := samples.libs)
            samples.settings "run-" "2024-01-01T00:01:00Z" crash
            samples.send_env empty_world).
  split; [|split].
  - refine (proj1 (proj1 (thm samples.big_crash) "QUJDRA==" "ABCD"
                     eq_refl _ eq_refl eq_refl)).
    cbn. lia.
  - refine (proj1 (proj1 (proj2 (thm samples.small_crash)) "QQ==" eq_refl _)).
    cbn. lia.
  - apply (proj2 (proj2 (thm samples.big_crash))).
    intros [_ [x Hx]]. discriminate Hx.
Defined.

End send_crash_claim.

Section orchestrator_facts.
Import errors entry.
Context `{codes : !Codes, libs : !PyLibs}.

Lemma send_crash_reports settings run_id created crash env w :
  run_results (_send_crash settings run_id created crash env w).2
  = run_results w.
Proof.
  unfold _send_crash, offload, upload_crash.
  repeat case_match; simplify_eq; done.
Qed.

Lemma send_crashes_reports s created crashes : ∀ i w,
  run_results (send_crashes s created i crashes w).2 = run_results w.
Proof.
  induction crashes as [|crash rest IH]; intros i w; [done|].
  cbn [send_crashes].
  pose proof (send_crash_reports (settings s) (run_id s) created crash
                (send_env s i) w) as Hone.
  destruct (_send_crash _ _ _ _ _ _) as [[[[]|e] crash'] w1]; [|done].
  specialize (IH (S i) w1).
  destruct (send_crashes _ _ _ _ _) as [[r rest'] w2]. cbn in *. congruence.
Qed.

(** The run-result message is the last thing the success path does. *)
Lemma measured_reports s w :
  match measured s w with
  | (Return _, w') =>
      ∃ out, run_results w' = run_results w ++ [run_result s out]
  | (Raise _, w') => run_results w' = run_results w
  end.
Proof.
  unfold measured.
  destruct (mode_run s) as [r mode].
  destruct (match r with
            | Return _ => Return mode
            | Raise e =>
                if is_Exception e
                then Return (set_status (Some (Status_of (classify e))) mode)
                else Raise e
            end) as [mode1|e]; [|done].
  destruct (status mode1); [|done].
  destruct (read_metrics s) as [metrics|e]; [|done].
  destruct (mode_finish s mode1) as [[[]|e] mode2]; [|done].
  pose proof (send_crashes_reports s (finish_time s) (crashes mode2) 0 w)
    as Hsend.
  destruct (send_crashes _ _ _ _ _) as [[[[]|e] crashes'] w1]; [|done].
  cbn in Hsend.
  destruct (status mode2) as [st|]; [|done].
  unfold _dump_ok. destruct (produce_ok s); [|done].
  cbn. rewrite Hsend. eauto.
Qed.

Lemma dump_err_reports s e w :
  match _dump_err s e w with
  | (Return _, w') =>
      ∃ metrics,
        run_results w' =
          run_results w
          ++ [run_result s (mkAgentOutput (Status_of e) metrics 0 None)]
  | (Raise _, w') => w' = w
  end.
Proof. unfold _dump_err. destruct (produce_err s); cbn; eauto. Qed.

Lemma wait_running_with_run r s n : ∀ i,
  wait_running (with_run r s) i n = wait_running s i n.
Proof.
  induction n as [|n IH]; intros i; [done|].
  cbn [wait_running]. cbn [settings pod_read sleep with_run].
  destruct (manager.read_fuzzer_container _ _ _) as [[cs|e] t]; [|done].
  cbn. destruct (manager.running _); [done|].
  destruct (sleep s i); [|done]. cbn. apply IH.
Qed.

Lemma setup_with_run r s : setup (with_run r s) = setup s.
Proof.
  unfold setup. cbn [storage_init create_manager select_mode chdir with_run].
  by rewrite wait_running_with_run.
Qed.

Lemma send_crashes_with_run r s created crashes : ∀ i w,
  send_crashes (with_run r s) created i crashes w
  = send_crashes s created i crashes w.
Proof.
  induction crashes as [|crash rest IH]; intros i w; [done|].
  cbn [send_crashes]. cbn [settings run_id send_env with_run].
  destruct (_send_crash _ _ _ _ _ _) as [[[[]|e] crash'] w1]; [|done].
  by rewrite IH.
Qed.

(** A run that raises something [except Exception] catches goes on as a
    run that returned with the classified status. *)
Lemma measured_caught s e mode w :
  mode_run s = (Raise e, mode) → is_Exception e = true →
  measured s w
  = measured (with_run (Return tt,
                        set_status (Some (Status_of (classify e))) mode) s) w.
Proof.
  intros Hrun Hexc. unfold measured. rewrite Hrun, Hexc.
  cbn [mode_run with_run read_metrics mode_finish finish_time status
       set_status].
  destruct (read_metrics s) as [metrics|e']; [|done].
  destruct (mode_finish s _) as [[[]|e'] mode2]; [|done].
  rewrite send_crashes_with_run.
  destruct (send_crashes _ _ _ _ _) as [[[[]|e'] crashes'] w1]; [|done].
  destruct (status mode2); done.
Qed.
End orchestrator_facts.

Section orchestrator_claims.
Import errors entry.

(** C2, as stated, fails in two of its scenarios.  A cancellation during
    initialization ends the process with exit code 0 and no run-result
    report at all; and a domain error raised by the run mode is reported,
    through the success path, by a process that ends with exit code 0,
    not 2. *)
Lemma C2_counterexample :
  let entry init run :=
    agent_entry (codes := samples.codes) (libs := samples.libs)
      (samples.script init run (Return tt)) in
  let cancelled := entry (Raise CancelledError) (Return tt) in
  let domain :=
    entry (Return tt)
      (Raise (ExAgentError (RamLimitExceeded (codes := samples.codes)))) in
  cancelled.1 = Some 0%Z
  ∧ run_results cancelled.2 = []
  ∧ domain.1 = Some 0%Z
  ∧ (λ m, status_code (out_status (agent_result m))) <$> run_results domain.2
    = ["E_RAM_LIMIT_EXCEEDED"].
Proof. vm_compute. done. Qed.

(** An error raised before [measure] is bound is the one the handlers
    cannot report: the call of [_dump_err] fails, nothing is emitted and
    the exception leaves the process with status 1. *)
Lemma setup_error_unreported :
  let s := mkScript samples.settings (Return tt)
             (Raise (ExAgentError (InternalError (codes := samples.codes) None)))
             (Return tt) (λ _, samples.ready) (λ _, Return tt) "run-"
             (Return tt) (Return tt) "" "" (Return tt, samples.mode)
             (Return (mkMetrics 1 2)) (λ m, (Return tt, m))
             (λ _, samples.send_env) (Return tt) (Return (mkMetrics 1 2))
             (Return tt) (Return tt) in
  (agent_entry_inner (codes := samples.codes) (libs := samples.libs) s).1
  = Raise (PyException "UnboundLocalError")
  ∧ run_results
      (agent_entry_inner (codes := samples.codes) (libs := samples.libs) s).2
    = [].
Proof. vm_compute. done. Qed.

(** A cancellation that arrives after the initialization and outside the
    handler around the run mode ends the process with exit code 0 and no
    report: during the set-up, and, where the cancellation is not an
    [Exception], during the run itself. *)
Lemma cancelled_unreported `{codes : !Codes, libs : !PyLibs} (s : Script) :
  init s = Return tt → shutdown s = Return tt →
  setup s = Raise CancelledError
  ∨ (setup s = Return tt ∧ (mode_run s).1 = Raise CancelledError
     ∧ cancelled_is_exception = false) →
  (agent_entry s).1 = Some 0%Z ∧ run_results (agent_entry s).2 = [].
Proof.
  intros Hi Hsh Hc. unfold agent_entry, agent_entry_inner, finally_shutdown.
  rewrite Hi, Hsh. destruct Hc as [-> | (-> & Hrun & Hexc)]; [done|].
  unfold measured. destruct (mode_run s) as [r mode]. cbn in Hrun. subst r.
  cbn [is_Exception]. by rewrite Hexc.
Qed.

(** C2 (amended): no run emits more than one run-result report.  A
    cancellation during initialization gives exit code 0 and no report;
    any other failure of the initialization gives exit code 1 and no
    report.  Past the initialization and the set-up, with a shutdown that
    succeeds: a post-run sequence that completes gives exit code 0 and
    exactly one report; a domain error that leaves it, once its report is
    produced, gives exit code 2 and exactly one report, which carries the
    status of that error; an unclassified exception that leaves it, once
    its report is produced, gives exit code 3 and exactly one report,
    which carries the Internal status.  An exception of the run mode that
    [except Exception] catches, a domain error or an unclassified one,
    does not leave the sequence: the process goes on exactly as after a
    run that returned with the classified status. *)
Theorem C2_exit_codes `{codes : !Codes, libs : !PyLibs} (s : Script) :
  let exit_code := (agent_entry s).1 in
  let reports := run_results (agent_entry s).2 in
  length reports ≤ 1
  ∧ (init s = Raise CancelledError → exit_code = Some 0%Z ∧ reports = [])
  ∧ (∀ e, init s = Raise e → e ≠ CancelledError →
          exit_code = Some 1%Z ∧ reports = [])
  ∧ (init s = Return tt → setup s = Return tt → shutdown s = Return tt →
     ((measured s empty_world).1 = Return tt →
      exit_code = Some 0%Z ∧ length reports = 1)
     ∧ (∀ e, (measured s empty_world).1 = Raise (ExAgentError e) →
             produce_err s = Return tt →
             exit_code = Some 2%Z
             ∧ ∃ metrics,
                 reports =
                   [run_result s (mkAgentOutput (Status_of e) metrics 0 None)])
     ∧ (∀ e, (measured s empty_world).1 = Raise e →
             unclassified e = true →
             produce_err s = Return tt →
             exit_code = Some 3%Z
             ∧ ∃ metrics,
                 reports =
                   [run_result s
                      (mkAgentOutput (Status_of (InternalError None))
                         metrics 0 None)]))
  ∧ (∀ e mode,
       mode_run s = (Raise e, mode) → is_Exception e = true →
       agent_entry s
       = agent_entry
           (with_run (Return tt,
                      set_status (Some (Status_of (classify e))) mode) s)).
Proof.
  intros exit_code reports. subst exit_code reports.
  unfold agent_entry, agent_entry_inner.
  pose proof (measured_reports s empty_world) as Hm.
  split; [|split; [|split; [|split]]].
  - destruct (init s) as [[]|[]]; try (cbn; lia).
    unfold finally_shutdown.
    assert (∀ r : Outcome Z * World,
              length (run_results r.2) ≤ 1 →
              length (run_results
                (match (match shutdown s with
                        | Return _ => (r.1, add_shutdown r.2)
                        | Raise e => (Raise e, add_shutdown r.2)
                        end) with
                 | (Return c, w) => (Some c, w)
                 | (Raise (PyBaseException _), w) => (None, w)
                 | (Raise _, w) => (Some 1%Z, w)
                 end).2) ≤ 1) as Hfin.
    { intros [r w] Hr. cbn [fst snd] in *.
      destruct (shutdown s) as [[]|[]]; [destruct r as [|[]]|..]; done. }
    apply Hfin.
    assert (∀ mb e c w, run_results w = [] →
              length (run_results (report_and_return s mb e c w).2) ≤ 1)
      as Hrep.
    { intros mb e c w Hw. unfold report_and_return.
      destruct mb; [|cbn; rewrite Hw; cbn; lia].
      pose proof (dump_err_reports s e w) as Hd.
      destruct (_dump_err s e w) as [[[]|e'] w']; cbn [snd].
      - destruct Hd as [m Hd]. rewrite Hd, Hw. cbn. lia.
      - subst. rewrite Hw. cbn. lia. }
    destruct (setup s) as [[]|e].
    + destruct (measured s empty_world) as [[[]|e] w].
      * destruct Hm as [out Hm]. cbn. rewrite Hm. cbn. lia.
      * destruct e; cbn [handlers]; try (apply Hrep; done);
          cbn; rewrite Hm; cbn; lia.
    + destruct e; cbn [handlers]; try (apply Hrep; done); cbn; lia.
  - intros ->. done.
  - intros e -> Hne. by destruct e.
  - intros Hi Hs Hsh. rewrite Hi, Hs. unfold finally_shutdown. rewrite Hsh.
    destruct (measured s empty_world) as [r w]. cbn [fst] in *.
    split; [|split].
    + intros ->. destruct Hm as [out Hm]. cbn. by rewrite Hm.
    + intros e -> Hp. cbn [handlers]. unfold report_and_return.
      pose proof (dump_err_reports s e w) as Hd.
      unfold _dump_err in *. rewrite Hp in *. cbn.
      split; [done|]. rewrite Hm. cbn. eauto.
    + intros e -> Hu Hp.
      assert (handlers s true (Raise e) w
              = report_and_return s true (InternalError None) 3 w) as ->.
      { by destruct e. }
      unfold report_and_return.
      unfold _dump_err in *. rewrite Hp in *. cbn.
      split; [done|]. rewrite Hm. cbn. eauto.
  - intros e mode Hrun Hexc.
    cbn [init shutdown with_run]. rewrite setup_with_run.
    destruct (init s) as [[]|e0]; [|done].
    destruct (setup s) as [[]|e0]; [|done].
    rewrite <- (measured_caught s e mode empty_world Hrun Hexc).
    destruct (measured s empty_world) as [r w].
    assert (∀ mb r w, handlers (with_run (Return tt,
                        set_status (Some (Status_of (classify e))) mode) s)
                        mb r w = handlers s mb r w) as ->; [|done].
    { intros mb r' w'. by destruct r' as [|[]], mb. }
Qed.

(** C2 at one concrete run per exit code, and at a run whose run mode
    raises an unclassified exception. *)
Lemma C2_exit_codes_witness :
  let entry init run finish :=
    agent_entry (codes := samples.codes) (libs := samples.libs)
      (samples.script init run finish) in
  let ok : Outcome unit := Return tt in
  let upload_error :=
    ExAgentError (FileUploadError (codes := samples.codes) (Some "corpus")) in
  (entry (Raise CancelledError) ok ok).1 = Some 0%Z
  ∧ (entry (Raise (PyException "ValidationError")) ok ok).1 = Some 1%Z
  ∧ (entry ok ok ok).1 = Some 0%Z
  ∧ (entry ok ok (Raise upload_error)).1 = Some 2%Z
  ∧ (entry ok ok (Raise (PyException "OSError"))).1 = Some 3%Z
  ∧ entry ok (Raise (PyException "RuntimeError")) ok
    = agent_entry (codes := samples.codes) (libs := samples.libs)
        (with_run
           (Return tt,
            set_status
              (Some (Status_of (InternalError (codes := samples.codes) None)))
              samples.mode)
           (samples.script ok (Raise (PyException "RuntimeError")) ok)).
Proof.
  intros entry ok upload_error.
  pose (thm := λ init run finish,
          C2_exit_codes (codes := samples.codes) (libs := samples.libs)
            (samples.script init run finish)).
  split; [|split; [|split; [|split; [|split]]]].
  - apply (proj1 (proj2 (thm (Raise CancelledError) ok ok))). reflexivity.
  - apply (proj1 (proj2 (proj2 (thm (Raise (PyException "ValidationError"))
                                  ok ok)))
             (PyException "ValidationError")); [reflexivity|discriminate].
  - apply (proj1 (proj1 (proj2 (proj2 (proj2 (thm ok ok ok))))
                   eq_refl eq_refl eq_refl)).
    reflexivity.
  - apply (proj1 (proj2 (proj1 (proj2 (proj2 (proj2
                   (thm ok ok (Raise upload_error)))))
                   eq_refl eq_refl eq_refl))
             (FileUploadError (codes := samples.codes) (Some "corpus")));
      reflexivity.
  - apply (proj2 (proj2 (proj1 (proj2 (proj2 (proj2
                   (thm ok ok (Raise (PyException "OSError"))))))
                   eq_refl eq_refl eq_refl))
             (PyException "OSError")); reflexivity.
  - apply (proj2 (proj2 (proj2 (proj2
                   (thm ok (Raise (PyException "RuntimeError")) ok))))
             (PyException "RuntimeError") samples.mode); reflexivity.
Defined.

End orchestrator_claims.

Section taxonomy_claim.
Import errors entry.




End taxonomy_claim.

(* ===================================================================== *)
(** * Further properties of the code *)
(* ===================================================================== *)

Section session_extras.
Import ws_client ws_client_rest.

Lemma append_length (s t : string) :
  String.length (s +:+ t) = String.length s + String.length t.
Proof.
  induction s as [|c s IH]; [done|]. rewrite append_cons. cbn. by rewrite IH.
Qed.

(** X1. A session that is closed stays closed whatever is called on it,
    and from then on no buffer gains anything: what a channel holds later
    it held already. *)
Theorem closed_session_frozen `{libs : !PyLibs} (self : ExecWSClient)
    (cs : list Call) :
  is_open self = false →
  is_open (history self cs) = false
  ∧ ∀ channel s,
      _channels (history self cs) !! channel = Some s →
      _channels self !! channel = Some s.
Proof.
  revert self. induction cs as [|c cs IH]; intros self Hclosed; [done|].
  change (history self (c :: cs)) with (history (after self c) cs).
  assert (is_open (after self c) = false
          ∧ ∀ channel s, _channels (after self c) !! channel = Some s →
                         _channels self !! channel = Some s) as [Hc Hsub].
  { destruct c as [timeout sc r|channel d| |]; cbn [after].
    - unfold update. by rewrite Hclosed.
    - rewrite read_channel_peek. cbn [snd]. split; [by destruct self|].
      intros ch s. rewrite channels_set_channels.
      by intros [_ ?]%lookup_delete_Some.
    - unfold returncode. rewrite Hclosed.
      repeat case_match; split; try done; by destruct self.
    - split; [done|]. by destruct self. }
  destruct (IH _ Hc) as [Ho Hsub']. split; [done|]. eauto.
Qed.

(** A closed session on which an update and a read of the code follow. *)
Lemma closed_session_frozen_witness :
  let closed := close (feed (__init__ true true false) [("001"%char, "out")]) in
  is_open (history (libs := samples.libs) closed
             [CallUpdate 5 false (frame "001" "more"); CallReturncode]) = false.
Proof.
  intros closed.
  apply (proj1 (closed_session_frozen (libs := samples.libs) closed _ eq_refl)).
Defined.

(** X2. A read empties the buffer of its channel and of no other: a second
    read of the same channel returns its default, and every other channel
    still holds what it held. *)
Theorem read_channel_twice (self : ExecWSClient) (channel : nat)
    (d d' : option string) :
  let self' := (read_channel self channel d).2 in
  read_channel self' channel d' = (d', self')
  ∧ ∀ other, other ≠ channel →
             peek_channel self' other d' = peek_channel self other d'.
Proof.
  intros self'. subst self'. rewrite (read_channel_peek self). cbn [snd].
  set (self' := set_channels _ self).
  assert (_channels self' = delete channel (_channels self)) as Hch by done.
  split.
  - unfold read_channel. by rewrite Hch, lookup_delete_eq.
  - intros other Hne. unfold peek_channel. by rewrite Hch, lookup_delete_ne.
Qed.

(** A read of channel 1 leaves what channel 2 holds. *)
Lemma read_channel_twice_witness :
  let self := feed (__init__ true true false)
                [("001"%char, "out"); ("002"%char, "err")] in
  peek_channel (read_channel self 1 None).2 2 None = Some "err".
Proof.
  intros self.
  rewrite (proj2 (read_channel_twice self 1 None None) 2); [reflexivity|lia].
Defined.

(** No buffer of a session is ever short: what a channel holds has at
    least two characters. *)
Lemma buffers_long_after `{libs : !PyLibs} self c :
  (∀ channel s, _channels self !! channel = Some s → 2 ≤ String.length s) →
  ∀ channel s, _channels (after self c) !! channel = Some s →
               2 ≤ String.length s.
Proof.
  intros Hinv channel s.
  destruct c as [timeout sc r|ch d| |]; cbn [after].
  - destruct (update_cases self timeout sc r)
      as [->|[->|(ty&dat&->&Hty&_&->)]]; [by apply Hinv|by apply Hinv|].
    destruct (on_data_cases self dat) as [->|(ch&p&->&Hlen&_&->)];
      [by apply Hinv|].
    rewrite channels_set_channels.
    destruct (decide (target_channel self (nat_of_ascii ch) = channel))
      as [<-|Hne].
    + rewrite lookup_insert_eq. intros [= <-]. rewrite append_length. lia.
    + rewrite lookup_insert_ne by done. by apply Hinv.
  - rewrite read_channel_peek. cbn [snd]. rewrite channels_set_channels.
    intros [_ ?]%lookup_delete_Some. by eapply Hinv.
  - unfold returncode. repeat case_match; cbn [snd];
      try (by apply Hinv); destruct self; by apply Hinv.
  - destruct self; by apply Hinv.
Qed.

(** X3. On every session made by the constructor and used through its
    methods, a buffer that exists holds at least two characters; so a
    read with the default "" returns "" only for a channel with nothing
    buffered. *)
Theorem buffers_never_short `{libs : !PyLibs} (so se co : bool)
    (cs : list Call) (channel : nat) :
  let self := history (__init__ so se co) cs in
  (∀ s, _channels self !! channel = Some s → 2 ≤ String.length s)
  ∧ ((read_channel self channel (Some "")).1 = Some ""
     ↔ _channels self !! channel = None).
Proof.
  assert (∀ self : ExecWSClient,
            (∀ channel s, _channels self !! channel = Some s →
                          2 ≤ String.length s) →
            ∀ channel s, _channels (history self cs) !! channel = Some s →
                         2 ≤ String.length s) as Hhist.
  { induction cs as [|c cs IH]; intros self Hinv; [done|].
    apply (IH (after self c)). by apply buffers_long_after. }
  intros self.
  assert (∀ s, _channels self !! channel = Some s → 2 ≤ String.length s)
    as Hlong.
  { apply Hhist. intros ch s. by cbn. }
  split; [done|].
  rewrite read_channel_peek. cbn [fst]. unfold peek_channel.
  destruct (_channels self !! channel) as [s|] eqn:Hs; [|done].
  split; [|done]. intros [= ->]. specialize (Hlong _ eq_refl). cbn in Hlong. lia.
Qed.

(** X4. [run_forever] without a timeout never receives anything: on an
    open session its first turn either finds the socket closed and marks
    the session closed, or fails with TypeError on the missing timeout;
    on a closed session it returns at once.  In no case does a buffer
    change. *)
Theorem run_forever_untimed_first_turn (self : ExecWSClient)
    (sock_closed : bool) (r : Receive) (script : list (bool * Receive)) :
  run_forever_untimed self ((sock_closed, r) :: script)
  = Some (if is_open self then
            if sock_closed then Return (set_connected false self)
            else Raise (PyException "TypeError")
          else Return self)
  ∧ ∀ self', run_forever_untimed self ((sock_closed, r) :: script)
             = Some (Return self') →
             _channels self' = _channels self ∧ is_open self' = false.
Proof.
  assert (run_forever_untimed self ((sock_closed, r) :: script)
          = Some (if is_open self then
                    if sock_closed then Return (set_connected false self)
                    else Raise (PyException "TypeError")
                  else Return self)) as Heq.
  { cbn [run_forever_untimed update_optional].
    destruct (is_open self) eqn:Ho; [|done]. cbn [negb].
    destruct sock_closed; [|done].
    by destruct script as [|[] ?]. }
  split; [done|]. rewrite Heq. intros self'.
  destruct (is_open self) eqn:Ho; [destruct sock_closed|];
    intros [= <-]; by destruct self.
Qed.

End session_extras.

Section executor_extras.
Import errors ws_client manager.

(** One turn of the drain loop on a live frame with a payload of at least
    two characters, on a session that filters nothing and whose stdout
    and stderr buffers are empty. *)
Lemma drain_turn self ch payload :
  is_open self = true →
  stdout self = true → stderr self = true → combine_output self = false →
  _channels self !! STDOUT_CHANNEL = None →
  _channels self !! STDERR_CHANNEL = None →
  2 ≤ String.length payload →
  let fed := update self 5 false (frame ch payload) in
  let logs := read_stderr fed (Some "") in
  let out := read_stdout logs.2 (Some "") in
  default "" logs.1
  = (if nat_of_ascii ch =? STDERR_CHANNEL then payload else "")
  ∧ default "" out.1
    = (if nat_of_ascii ch =? STDOUT_CHANNEL then payload else "")
  ∧ is_open out.2 = true
  ∧ stdout out.2 = true ∧ stderr out.2 = true ∧ combine_output out.2 = false
  ∧ _channels out.2 !! STDOUT_CHANNEL = None
  ∧ _channels out.2 !! STDERR_CHANNEL = None.
Proof.
  intros Ho H1 H2 H3 Hout Herr Hlen fed logs out.
  subst out logs fed. unfold frame, read_stderr, read_stdout.
  rewrite update_live by (done || lia || auto).
  rewrite on_data_accepted by (done || by apply passes_all).
  rewrite target_plain by done.
  set (n := nat_of_ascii ch).
  rewrite !read_channel_peek. cbn [fst snd]. unfold peek_channel.
  rewrite !channels_set_channels.
  unfold STDOUT_CHANNEL, STDERR_CHANNEL in *.
  assert (is_open self = true ∧ stdout self = true ∧ stderr self = true
          ∧ combine_output self = false) as Hflags by done.
  clear Ho H1 H2 H3.
  destruct (Nat.eqb_spec n 2) as [Hn2|Hn2];
    [|destruct (Nat.eqb_spec n 1) as [Hn1|Hn1]].
  - rewrite Hn2. simplify_map_eq. by destruct Hflags as (?&?&?&?).
  - rewrite Hn1. simplify_map_eq. by destruct Hflags as (?&?&?&?).
  - simplify_map_eq. by destruct Hflags as (?&?&?&?).
Qed.

Lemma drain_closed self out logs script :
  is_open self = false → drain self out logs script = Some (self, out, logs).
Proof. intros Ho. destruct script as [|[] ?]; cbn [drain]; by rewrite Ho. Qed.

(** The drain loop on a session of [exec_command], ahead of live frames
    with payloads of at least two characters and a close message. *)
Lemma drain_frames frames : ∀ self out logs rest,
  is_open self = true →
  stdout self = true → stderr self = true → combine_output self = false →
  _channels self !! STDOUT_CHANNEL = None →
  _channels self !! STDERR_CHANNEL = None →
  Forall (λ f, 2 ≤ String.length f.2) frames →
  ∃ resp,
    drain self out logs
      (((λ f, (false, frame f.1 f.2)) <$> frames)
       ++ (false, Message (mkWSMessage CLOSE "")) :: rest)
    = Some (resp,
            out +:+ join (payloads_of STDOUT_CHANNEL frames),
            logs +:+ join (payloads_of STDERR_CHANNEL frames))
    ∧ is_open resp = false
    ∧ _channels resp !! STDOUT_CHANNEL = None
    ∧ _channels resp !! STDERR_CHANNEL = None.
Proof.
  induction frames as [|[ch payload] frames IH];
    intros self out logs rest Ho H1 H2 H3 Hout Herr Hlen.
  - cbn [fmap list_fmap app drain payloads_of join]. rewrite Ho.
    assert (update self 5 false (Message (mkWSMessage CLOSE ""))
            = set_connected false self) as ->.
    { unfold update. by rewrite Ho. }
    unfold read_stderr, read_stdout, read_channel.
    cbn [set_connected _channels]. rewrite Herr. cbn [set_connected _channels].
    rewrite Hout. cbn [default from_option id].
    rewrite drain_closed by done.
    rewrite !append_nil_r. eexists. split; [reflexivity|]. done.
  - apply Forall_cons in Hlen as [Hp Hlen]. cbn [snd] in Hp.
    cbn [fmap list_fmap app drain fst snd]. rewrite Ho.
    pose proof (drain_turn self ch payload Ho H1 H2 H3 Hout Herr Hp) as Hturn.
    cbn zeta in Hturn.
    destruct (read_stderr (update self 5 false (frame ch payload)) (Some ""))
      as [err self1] eqn:E1. cbn [fst snd] in Hturn.
    destruct (read_stdout self1 (Some "")) as [o self2] eqn:E2.
    cbn [fst snd] in Hturn.
    destruct Hturn as (Herr' & Hout' & Ho2 & H12 & H22 & H32 & Hout2 & Herr2).
    rewrite Herr', Hout'.
    destruct (IH self2
                (out +:+ (if nat_of_ascii ch =? STDOUT_CHANNEL then payload
                          else ""))
                (logs +:+ (if nat_of_ascii ch =? STDERR_CHANNEL then payload
                           else ""))
                rest Ho2 H12 H22 H32 Hout2 Herr2 Hlen)
      as (resp & Hdrain & Hresp).
    exists resp. split; [|done].
    rewrite Hdrain. cbn [payloads_of].
    destruct (nat_of_ascii ch =? STDOUT_CHANNEL),
             (nat_of_ascii ch =? STDERR_CHANNEL);
      cbn [join]; by rewrite ?append_assoc, ?append_nil_r.
Qed.

(** X5. The drain loop of [exec_command]: given live frames with payloads
    of at least two characters and then a close message, the runner
    output is the payloads of channel 1 and the runner log those of
    channel 2, each in order of arrival; the session is closed, with both
    buffers empty, and whatever the script holds after the close message
    is not looked at. *)
Theorem drain_collects (frames : list (ascii * string))
    (rest : list (bool * Receive)) :
  Forall (λ f, 2 ≤ String.length f.2) frames →
  ∃ resp,
    drain (__init__ true true false) "" ""
      (((λ f, (false, frame f.1 f.2)) <$> frames)
       ++ (false, Message (mkWSMessage CLOSE "")) :: rest)
    = Some (resp,
            join (payloads_of STDOUT_CHANNEL frames),
            join (payloads_of STDERR_CHANNEL frames))
    ∧ is_open resp = false
    ∧ _channels resp !! STDOUT_CHANNEL = None
    ∧ _channels resp !! STDERR_CHANNEL = None.
Proof.
  intros Hlen.
  by apply (drain_frames frames (__init__ true true false) "" "" rest).
Qed.

(** Three frames, a close message and a frame that comes too late. *)
Lemma drain_collects_witness :
  ∃ resp,
    drain (__init__ true true false) "" ""
      [(false, frame "001" "12"); (false, frame "002" "warn");
       (false, frame "001" "34"); (false, Message (mkWSMessage CLOSE ""));
       (false, frame "001" "late")]
    = Some (resp, "1234", "warn").
Proof.
  destruct (drain_collects
              [("001"%char, "12"); ("002"%char, "warn"); ("001"%char, "34")]
              [(false, frame "001" "late")]) as (resp & Hdrain & _).
  - repeat constructor.
  - exists resp. exact Hdrain.
Defined.

(** X6. The drain loop hands over closed sessions only, and on a closed
    session [returncode] is never [None]: the assertion that follows the
    loop in [exec_command] cannot fail. *)
Theorem drain_ends_closed `{libs : !PyLibs} (script : list (bool * Receive))
    (self resp : ExecWSClient) (out logs out' logs' : string) :
  drain self out logs script = Some (resp, out', logs') →
  is_open resp = false ∧ (returncode resp).1 ≠ Return None.
Proof.
  revert self out logs.
  induction script as [|[sc r] script IH]; intros self out logs.
  - cbn [drain]. destruct (is_open self) eqn:Ho; [done|].
    intros [= <- _ _]. split; [done|]. unfold returncode. rewrite Ho.
    by repeat case_match.
  - cbn [drain]. destruct (is_open self) eqn:Ho.
    + destruct (read_stderr _ _) as [err self1].
      destruct (read_stdout _ _) as [o self2]. apply IH.
    + intros [= <- _ _]. split; [done|]. unfold returncode. rewrite Ho.
      by repeat case_match.
Qed.

(** A frame that is dropped and a socket found closed. *)
Lemma drain_ends_closed_witness :
  ∃ resp,
    drain (__init__ true true false) "" ""
      [(false, frame "001" "7"); (true, Timeout)]
    = Some (resp, "", "")
    ∧ is_open resp = false.
Proof.
  eexists. split; [vm_compute; reflexivity|].
  refine (proj1 (drain_ends_closed (libs := samples.libs)
                   [(false, frame "001" "7"); (true, Timeout)]
                   (__init__ true true false) _ "" "" "" "" _)).
  vm_compute. reflexivity.
Defined.
End executor_extras.

Section exec_command_extras.
Import errors ws_client manager.

Lemma getitem_str_raises y k e a :
  getitem_str y k = Raise e → e ≠ ExAgentError a.
Proof.
  unfold getitem_str. repeat case_match; by intros [= <-].
Qed.

Lemma getitem_0_raises y e a :
  getitem_0 y = Raise e → e ≠ ExAgentError a.
Proof.
  unfold getitem_0. repeat case_match; by intros [= <-].
Qed.

Lemma int_raises y e a : int y = Raise e → e ≠ ExAgentError a.
Proof.
  unfold int. repeat case_match; by intros [= <-].
Qed.

Lemma bind_raises {A B} (m : Outcome A) (k : A → Outcome B) e :
  (m ≫= k) = Raise e →
  m = Raise e ∨ ∃ x, m = Return x ∧ k x = Raise e.
Proof. destruct m as [x|e']; cbn; [eauto|intros [= <-]; eauto]. Qed.

Lemma decode_status_raises `{libs : !PyLibs} err e a :
  decode_status err = Raise e → e ≠ ExAgentError a.
Proof.
  unfold decode_status, first_cause_message.
  destruct (yaml_safe_load err) as [doc|]; [|by intros [= <-]].
  intros [H|(st & _ & H)]%bind_raises;
    [by eapply getitem_str_raises|].
  destruct (eq_str st "Success"); [done|].
  apply bind_raises in H as [H|(m & _ & H)]; [|by eapply int_raises].
  apply bind_raises in H as [H|(d & _ & H)]; [by eapply getitem_str_raises|].
  apply bind_raises in H as [H|(cs & _ & H)]; [by eapply getitem_str_raises|].
  apply bind_raises in H as [H|(c & _ & H)]; [by eapply getitem_0_raises|].
  by eapply getitem_str_raises.
Qed.

(** What [returncode] raises is an [ApiException] or a plain Python
    exception, never a domain error. *)
Lemma returncode_raises `{libs : !PyLibs} self e self' :
  returncode self = (Raise e, self') →
  ∀ a, e ≠ ExAgentError a.
Proof.
  unfold returncode. destruct (is_open self); [done|].
  destruct (_returncode self); [done|].
  destruct (peek_channel self ERROR_CHANNEL None) as [err|].
  2:{ by intros [= <- _]. }
  destruct (decode_status err) as [rc|e'] eqn:Hd; [done|].
  intros [= <- _] a. by eapply decode_status_raises.
Qed.

(** The two requests [exec_command] starts with. *)
Lemma exec_command_prologue `{codes : !Codes, libs : !PyLibs} self env :
  exec_command self env =
    match write_config env with
    | Raise e => Some (Raise e, [WriteRunnerConfig (runner_config self)])
    | Return _ =>
        let t := [WriteRunnerConfig (runner_config self);
                  ConnectExec (_pod_name self) (_namespace self)
                    (_user_container self)
                    [runner_binary self; runner_config self]] in
        match connect env with
        | Raise e => Some (Raise e, t)
        | Return _ =>
            match drain (__init__ true true false) "" "" (frames env) with
            | None => None
            | Some (resp, runner_output, runner_logs) =>
                match returncode resp with
                | (Raise e, _) => Some (Raise e, t)
                | (Return None, _) =>
                    Some (Raise (PyException "AssertionError"), t)
                | (Return (Some runner_exitcode), _) =>
                    Some (exec_dispatch self runner_exitcode runner_output
                            runner_logs env t)
                end
            end
        end
    end.
Proof.
  unfold exec_command, then_, call, lift. cbn [app].
  destruct (write_config env); [|done]. by destruct (connect env).
Qed.

(** X7. [exec_command] returns a value only for a runner that exited with
    code 0 and whose output parses as an integer, and then it has sent
    nothing but the write of the runner configuration and the exec
    request: it returns [n] exactly when configuration and connection
    succeed, the drained session resolves to return code 0 and the
    stripped runner output is the integer [n]. *)
Theorem exec_command_returns `{codes : !Codes, libs : !PyLibs}
    (self : UserContainerManager) (env : ExecEnv) (n : Z)
    (t : list ApiCall) :
  exec_command self env = Some (Return n, t)
  ↔ (∃ u v, write_config env = Return u ∧ connect env = Return v)
    ∧ t = [WriteRunnerConfig (runner_config self);
           ConnectExec (_pod_name self) (_namespace self)
             (_user_container self) [runner_binary self; runner_config self]]
    ∧ ∃ resp runner_output runner_logs,
        drain (__init__ true true false) "" "" (frames env)
        = Some (resp, runner_output, runner_logs)
        ∧ (returncode resp).1 = Return (Some 0%Z)
        ∧ Py.int_of_str (Py.strip runner_output) = Some n.
Proof.
  rewrite exec_command_prologue. split.
  - destruct (write_config env) as [u|]; [|done].
    destruct (connect env) as [v|]; [|done]. cbn zeta.
    destruct (drain _ _ _ _) as [[[resp out] logs]|]; [|done].
    destruct (returncode resp) as [[[rc|]|e] self'] eqn:Hrc; [|done|done].
    intros [= Hd].
    assert (rc = 0%Z ∧ Py.int_of_str (Py.strip out) = Some n
            ∧ [WriteRunnerConfig (runner_config self);
               ConnectExec (_pod_name self) (_namespace self)
                 (_user_container self)
                 [runner_binary self; runner_config self]] = t)
      as (-> & Hn & Ht).
    { revert Hd. unfold exec_dispatch.
      destruct (rc =? 101)%Z; [done|].
      destruct (bool_decide _).
      { unfold then_. rewrite read_fuzzer_container_eq.
        destruct (pod env) as [l|]; [|done].
        destruct (first_other _ l) as [ci|]; [|done].
        unfold disambiguate. unfold then_, raise.
        repeat (case_match; try done). }
      destruct (Z.eqb_spec rc 0) as [->|]; [|done]. cbn [negb].
      destruct (Py.int_of_str _); [|done].
      intros [= <- <-]. done. }
    split; [eauto|]. split; [done|].
    exists resp, out, logs. by rewrite Hrc.
  - intros ((u & v & -> & ->) & -> & resp & out & logs & -> & Hrc & Hn).
    cbn zeta. destruct (returncode resp) as [r self'].
    cbn [fst] in Hrc. subst r.
    unfold exec_dispatch. cbn. by rewrite Hn.
Qed.

(** A runner that prints 42 and ends with status Success. *)
Lemma exec_command_returns_witness :
  exec_command (codes := samples.codes) (libs := samples.libs)
    samples.manager
    (mkExecEnv (Return tt) (Return tt)
       [(false, frame "001" "42"); (false, frame "003" "{status: Success}");
        (true, Timeout)]
       samples.ready (Return (mkResponse 200 "OK" "")))
  = Some (Return 42%Z,
          [WriteRunnerConfig (runner_config samples.manager);
           ConnectExec (_pod_name samples.manager)
             (_namespace samples.manager)
             (_user_container samples.manager)
             [runner_binary samples.manager;
              runner_config samples.manager]]).
Proof.
  apply (exec_command_returns (codes := samples.codes)
           (libs := samples.libs)).
  split; [by exists tt, tt|]. split; [reflexivity|].
  eexists _, _, _. split; [vm_compute; reflexivity|].
  split; vm_compute; reflexivity.
Defined.



(** X8. The domain errors of [exec_command] are five: when nothing the
    outside answers is itself a domain error, a domain error raised by
    [exec_command] is the time-limit error, the Tmpfs error, the aborted
    error, the Ram error or the Internal error, each without details. *)
Theorem exec_command_domain_errors `{codes : !Codes, libs : !PyLibs}
    (self : UserContainerManager) (env : ExecEnv) (e : AgentError)
    (t : list ApiCall) :
  (∀ a, write_config env ≠ Raise (ExAgentError a)) →
  (∀ a, connect env ≠ Raise (ExAgentError a)) →
  (∀ a, pod env ≠ Raise (ExAgentError a)) →
  (∀ a, pod_log env ≠ Raise (ExAgentError a)) →
  exec_command self env = Some (Raise (ExAgentError e), t) →
  e ∈ [TimeLimitExceeded None; TmpfsLimitExceeded; FuzzerAbortedError;
       RamLimitExceeded; InternalError None].
Proof.
  intros Hw Hc Hp Hl. rewrite exec_command_prologue.
  destruct (write_config env) as [u|ew] eqn:Ew.
  2:{ intros [= -> _]. by destruct (Hw e). }
  destruct (connect env) as [v|ec] eqn:Ec.
  2:{ intros [= -> _]. by destruct (Hc e). }
  cbn zeta.
  destruct (drain _ _ _ _) as [[[resp out] logs]|]; [|done].
  destruct (returncode resp) as [[[rc|]|er] self'] eqn:Hrc; [|done|].
  2:{ intros [= -> _]. by destruct (returncode_raises _ _ _ Hrc e). }
  intros [= Hd]. revert Hd. unfold exec_dispatch.
  destruct (rc =? 101)%Z; [intros [= <- _]; (rewrite !elem_of_cons; tauto)|].
  destruct (bool_decide _).
  - unfold then_. rewrite read_fuzzer_container_eq.
    destruct (pod env) as [l|ep] eqn:Ep.
    2:{ intros [= -> _]. by destruct (Hp e). }
    destruct (first_other _ l) as [ci|]; [|done].
    unfold disambiguate.
    destruct (terminated (state ci)) as [term|]; [|intros [= <- _]; (rewrite !elem_of_cons; tauto)].
    destruct (exit_code term =? 101)%Z; [intros [= <- _]; (rewrite !elem_of_cons; tauto)|].
    destruct (exit_code term =? 102)%Z; [intros [= <- _]; (rewrite !elem_of_cons; tauto)|].
    destruct (bool_decide _); [intros [= <- _]; (rewrite !elem_of_cons; tauto)|].
    unfold then_. rewrite read_monitor_output_eq.
    destruct (pod_log env) as [resp'|el] eqn:El.
    2:{ intros [= -> _]. by destruct (Hl e). }
    destruct (status resp' =? 200)%Z; [intros [= <- _]; (rewrite !elem_of_cons; tauto)|done].
  - destruct (negb _); [intros [= <- _]; (rewrite !elem_of_cons; tauto)|].
    destruct (Py.int_of_str _); [done|intros [= <- _]; (rewrite !elem_of_cons; tauto)].
Qed.

(** A runner killed with 137 in a container that was OOMKilled. *)
Lemma exec_command_domain_errors_witness :
  RamLimitExceeded (codes := samples.codes)
  ∈ [TimeLimitExceeded (codes := samples.codes) None;
     TmpfsLimitExceeded (codes := samples.codes);
     FuzzerAbortedError (codes := samples.codes);
     RamLimitExceeded (codes := samples.codes);
     InternalError (codes := samples.codes) None].
Proof.
  refine (exec_command_domain_errors (codes := samples.codes)
            (libs := samples.libs) samples.manager
            (mkExecEnv (Return tt) (Return tt)
               [(false, frame "003" samples.failure_137); (true, Timeout)]
               (samples.pod 1 "OOMKilled") (Return (mkResponse 200 "OK" "")))
            _ [WriteRunnerConfig "/run/runner.json";
               ConnectExec "agent-pod" "default" "user"
                 ["/bin/runner"; "/run/runner.json"];
               ReadNamespacedPod "default" "agent-pod"] _ _ _ _ _);
    try discriminate.
  vm_compute. reflexivity.
Defined.

End exec_command_extras.

Section readiness_extras.
Import errors manager entry.

(** X9. The readiness loop reads the pod at most [n] times.  It returns
    exactly when one of these reads finds the fuzzer container running
    and every read before it found the container not running and was
    followed by a sleep that returned; and when all [n] reads find the
    container not running it raises the Internal error. *)
Theorem wait_running_result `{codes : !Codes} (s : Script) (n i : nat) :
  let poll j :=
    (read_fuzzer_container (kubernetes (settings s)) (pod_read s j) []).1 in
  let pending j :=
    ∃ cs, poll j = Return cs ∧ running (state cs) = None
          ∧ sleep s j = Return tt in
  (wait_running s i n = Return tt
   ↔ ∃ k, k < n ∧ (∀ j, j < k → pending (i + j))
          ∧ ∃ cs, poll (i + k) = Return cs ∧ is_Some (running (state cs)))
  ∧ ((∀ j, j < n → pending (i + j)) →
     wait_running s i n = Raise (ExAgentError (InternalError None))).
Proof.
  intros poll pending. revert i.
  induction n as [|n IH]; intros i.
  { split; [|done]. split; [done|]. intros (k & Hk & _). lia. }
  destruct (IH (S i)) as [IHr IHx]. cbn [wait_running]. fold (poll i).
  split; [split|].
  - destruct (poll i) as [cs|e] eqn:Hp; [|done]. cbn.
    destruct (running (state cs)) as [r|] eqn:Hr.
    + intros _. exists 0. split; [lia|]. split; [intros j; lia|].
      exists cs. rewrite Nat.add_0_r. by rewrite Hr.
    + destruct (sleep s i) as [[]|e] eqn:Hs; [|done]. cbn.
      intros (k & Hk & Hbefore & Hready)%IHr. exists (S k).
      split; [lia|]. split.
      * intros [|j] Hj.
        { rewrite Nat.add_0_r. by exists cs. }
        replace (i + S j) with (S i + j) by lia. apply Hbefore. lia.
      * by replace (i + S k) with (S i + k) by lia.
  - intros ([|k] & Hk & Hbefore & cs & Hp & Hr).
    + rewrite Nat.add_0_r in Hp. rewrite Hp. cbn. by destruct Hr as [r ->].
    + destruct (Hbefore 0 ltac:(lia)) as (cs0 & Hp0 & Hr0 & Hs0).
      rewrite Nat.add_0_r in Hp0, Hs0. rewrite Hp0. cbn. rewrite Hr0, Hs0.
      cbn. apply IHr. exists k. split; [lia|]. split.
      * intros j Hj. replace (S i + j) with (i + S j) by lia.
        apply Hbefore. lia.
      * exists cs. by replace (S i + k) with (i + S k) by lia.
  - intros Hall. destruct (Hall 0 ltac:(lia)) as (cs0 & Hp0 & Hr0 & Hs0).
    rewrite Nat.add_0_r in Hp0, Hs0. rewrite Hp0. cbn. rewrite Hr0, Hs0.
    cbn. apply IHx. intros j Hj. replace (S i + j) with (i + S j) by lia.
    apply Hall. lia.
Qed.
End readiness_extras.

Section crash_extras.
Import errors manager entry.
Context `{codes : !Codes, libs : !PyLibs}.

(** What one [_send_crash] does to the world. *)
Lemma send_crash_world settings run_id created crash env w :
  let sent := _send_crash settings run_id created crash env w in
  mq_shutdowns sent.2 = mq_shutdowns w
  ∧ (∀ k, is_Some (objects w !! k) → is_Some (objects sent.2 !! k))
  ∧ match sent.1.1 with
    | Raise _ => new_crashes sent.2 = new_crashes w
    | Return _ =>
        new_crashes sent.2
        = new_crashes w ++ [mkNewCrash (fuzzer settings) sent.1.2 created]
        ∧ match input sent.1.2 with
          | Some inp => String.length inp ≤ crash_max_size (fuzzer settings)
          | None =>
              ∃ id, input_id sent.1.2 = Some id
                    ∧ is_Some (objects sent.2 !! crash_key settings id)
          end
    end.
Proof.
  cbn zeta. unfold _send_crash, offload, upload_crash.
  destruct (input crash) as [inp|] eqn:Hin; [|done].
  destruct (Nat.ltb_spec (crash_max_size (fuzzer settings))
              (String.length inp)) as [Hlt|Hle].
  - destruct (b64decode inp) as [bytes|]; [|done].
    unfold crash_key.
    destruct (upload_bytes env) as [[]|e].
    2:{ destruct (is_ObjectStorageError e); done. }
    assert (∀ k, is_Some (objects w !! k) →
                 is_Some (objects
                            (put_object (bucket_data settings)
                               (id (fuzzer settings) +:+ "/"
                                +:+ rev (fuzzer settings) +:+ "/crashes/"
                                +:+ (run_id +:+ random_string_10 env)
                                +:+ ".bin") bytes w) !! k)) as Hgrow.
    { intros k Hk. cbn. destruct (decide ((bucket_data settings,
         id (fuzzer settings) +:+ "/" +:+ rev (fuzzer settings)
         +:+ "/crashes/" +:+ (run_id +:+ random_string_10 env) +:+ ".bin")
         = k)) as [<-|Hne]; [by rewrite lookup_insert_eq|].
      by rewrite lookup_insert_ne. }
    destruct (produce_crash env) as [[]|e]; cbn; [|done].
    split; [done|]. split; [done|]. split; [done|].
    eexists. split; [done|]. by rewrite lookup_insert_eq.
  - destruct (produce_crash env) as [[]|e]; cbn; [|done].
    rewrite Hin. done.
Qed.

Lemma send_crashes_objects s created crashes : ∀ i w k,
  is_Some (objects w !! k) →
  is_Some (objects (send_crashes s created i crashes w).2 !! k).
Proof.
  induction crashes as [|crash rest IH]; intros i w k Hk; [done|].
  cbn [send_crashes].
  pose proof (send_crash_world (settings s) (run_id s) created crash
                (send_env s i) w) as (_ & Hgrow & _).
  cbn zeta in Hgrow. specialize (Hgrow k Hk).
  destruct (_send_crash _ _ _ _ _ _) as [[[[]|e] crash'] w1]; [|done].
  specialize (IH (S i) w1 k Hgrow).
  by destruct (send_crashes _ _ _ _ _) as [[r rest'] w2].
Qed.

(** What a loop over the crashes that completes has sent. *)
Lemma send_crashes_all s created crashes : ∀ i w u crashes' w',
  send_crashes s created i crashes w = (Return u, crashes', w') →
  new_crashes w'
  = new_crashes w
    ++ ((λ c, mkNewCrash (fuzzer (settings s)) c created) <$> crashes')
  ∧ length crashes' = length crashes.
Proof.
  induction crashes as [|crash rest IH]; intros i w u crashes' w'.
  { intros [= <- <- <-]. cbn. by rewrite app_nil_r. }
  cbn [send_crashes].
  pose proof (send_crash_world (settings s) (run_id s) created crash
                (send_env s i) w) as (_ & _ & Hone).
  cbn zeta in Hone.
  destruct (_send_crash _ _ _ _ _ _) as [[[[]|e] crash1] w1];
    cbn [fst snd] in Hone; [|done].
  destruct Hone as [Hmsg _].
  destruct (send_crashes s created (S i) rest w1) as [[r rest'] w2] eqn:Hs.
  intros [= -> <- <-].
  destruct (IH _ _ _ _ _ Hs) as [Hmsgs Hlen]. split; [|by cbn; rewrite Hlen].
  rewrite Hmsgs, Hmsg. cbn. by rewrite <- app_assoc.
Qed.

(** X10. The loop over the crashes stops at the first send that fails:
    the messages it has produced are those of the first [k] crashes, in
    their order and stamped with the same time; [k] is the length of the
    list exactly when the loop returns; the crashes after the failing one
    are untouched; and no message carries an inline input longer than
    [crash_max_size]: a crash sent without its input names a stored
    object. *)
Theorem send_crashes_emits (s : Script) (created : string)
    (crashes : list CrashBase) (i : nat) (w : World) :
  let sent := send_crashes s created i crashes w in
  let message c := mkNewCrash (fuzzer (settings s)) c created in
  ∃ k, k ≤ length crashes
    ∧ new_crashes sent.2 = new_crashes w ++ (message <$> take k sent.1.2)
    ∧ (sent.1.1 = Return tt ↔ k = length crashes)
    ∧ drop (S k) sent.1.2 = drop (S k) crashes
    ∧ Forall (λ c,
        match input c with
        | Some inp => String.length inp ≤ crash_max_size (fuzzer (settings s))
        | None =>
            ∃ id, input_id c = Some id
                  ∧ is_Some (objects sent.2 !! crash_key (settings s) id)
        end) (take k sent.1.2).
Proof.
  cbn zeta. revert i w.
  induction crashes as [|crash rest IH]; intros i w.
  { exists 0. cbn. rewrite app_nil_r. by repeat split. }
  cbn [send_crashes].
  pose proof (send_crash_world (settings s) (run_id s) created crash
                (send_env s i) w) as (_ & _ & Hone).
  cbn zeta in Hone.
  destruct (_send_crash _ _ _ _ _ _) as [[[[]|e] crash'] w1];
    cbn [fst snd] in Hone.
  2:{ exists 0. cbn. rewrite app_nil_r.
      split; [lia|]. split; [done|]. split; [|done]. split; discriminate. }
  destruct Hone as [Hmsg Hok].
  destruct (IH (S i) w1) as (k & Hk & Hmsgs & Hret & Hrest & Hall).
  pose proof (send_crashes_objects s created rest (S i) w1) as Hgrow.
  destruct (send_crashes s created (S i) rest w1) as [[r rest'] w2] eqn:Hs.
  cbn [fst snd] in *. exists (S k). split; [cbn [length]; lia|]. split.
  { rewrite Hmsgs, Hmsg. cbn. by rewrite <- app_assoc. }
  split; [rewrite Hret; split; [intros ->; done|intros [= ->]; done]|].
  split; [done|].
  cbn. constructor; [|done].
  destruct (input crash') as [inp|]; [done|].
  destruct Hok as (id & Hid & Hobj). exists id. split; [done|].
  by apply Hgrow.
Qed.
Lemma send_crashes_shutdowns s created crashes : ∀ i w,
  mq_shutdowns (send_crashes s created i crashes w).2 = mq_shutdowns w.
Proof.
  induction crashes as [|crash rest IH]; intros i w; [done|].
  cbn [send_crashes].
  pose proof (send_crash_world (settings s) (run_id s) created crash
                (send_env s i) w) as (Hone & _).
  cbn zeta in Hone.
  destruct (_send_crash _ _ _ _ _ _) as [[[[]|e] crash'] w1]; [|done].
  specialize (IH (S i) w1).
  destruct (send_crashes _ _ _ _ _) as [[r rest'] w2]. cbn in *. congruence.
Qed.

(** The post-run sequence leaves the shutdown to the [finally] clause. *)
Lemma measured_shutdowns s w : mq_shutdowns (measured s w).2 = mq_shutdowns w.
Proof.
  unfold measured.
  destruct (mode_run s) as [r mode].
  destruct (match r with
            | Return _ => Return mode
            | Raise e =>
                if is_Exception e
                then Return (set_status (Some (Status_of (classify e))) mode)
                else Raise e
            end) as [mode1|e]; [|done].
  destruct (status mode1); [|done].
  destruct (read_metrics s) as [metrics|e]; [|done].
  destruct (mode_finish s mode1) as [[[]|e] mode2]; [|done].
  pose proof (send_crashes_shutdowns s (finish_time s) (crashes mode2) 0 w)
    as Hsend.
  destruct (send_crashes _ _ _ _ _) as [[[[]|e] crashes'] w1]; [|done].
  cbn in Hsend.
  destruct (status mode2) as [st|]; [|done].
  unfold _dump_ok. by destruct (produce_ok s).
Qed.

(** What a post-run sequence that completes has sent. *)
Lemma measured_success s w u w' :
  measured s w = (Return u, w') →
  ∃ sent out,
    new_crashes w'
    = new_crashes w
      ++ ((λ c, mkNewCrash (fuzzer (settings s)) c (finish_time s)) <$> sent)
    ∧ run_results w' = run_results w ++ [run_result s out]
    ∧ crashes_found out = length sent
    ∧ read_metrics s = Return (out_metrics out).
Proof.
  unfold measured.
  destruct (mode_run s) as [r mode].
  destruct (match r with
            | Return _ => Return mode
            | Raise e =>
                if is_Exception e
                then Return (set_status (Some (Status_of (classify e))) mode)
                else Raise e
            end) as [mode1|e]; [|done].
  destruct (status mode1); [|done].
  destruct (read_metrics s) as [metrics|e]; [|done].
  destruct (mode_finish s mode1) as [[[]|e] mode2]; [|done].
  pose proof (send_crashes_all s (finish_time s) (crashes mode2) 0 w)
    as Hall.
  pose proof (send_crashes_reports s (finish_time s) (crashes mode2) 0 w)
    as Hrep.
  destruct (send_crashes _ _ _ _ _) as [[[[]|e] crashes'] w1] eqn:Hs; [|done].
  cbn [fst snd] in *.
  destruct (Hall _ _ _ eq_refl) as [Hmsgs Hlen].
  destruct (status mode2) as [st|]; [|done].
  unfold _dump_ok. destruct (produce_ok s); [|done].
  intros [= _ <-]. exists crashes'. eexists. cbn.
  split; [done|]. split; [by rewrite Hrep|]. by split.
Qed.
End crash_extras.

Section report_extras.
Import errors manager entry.

(** X11. A run that ends with exit code 0 and a report went through the
    whole post-run sequence: the report counts exactly the crash
    messages that were sent, each of them is stamped with the finish
    time and the fuzzer of the report, and the metrics of the report are
    those read from the metrics file after the run. *)
Theorem reported_crash_count `{codes : !Codes, libs : !PyLibs}
    (s : Script) (w : World) (r : MP_FuzzerRunResult) :
  agent_entry_inner s = (Return 0%Z, w) →
  run_results w = [r] →
  crashes_found (agent_result r) = length (new_crashes w)
  ∧ Forall (λ m, nc_created m = rr_finish_time r ∧ nc_fuzzer m = rr_fuzzer r)
      (new_crashes w)
  ∧ read_metrics s = Return (out_metrics (agent_result r)).
Proof.
  unfold agent_entry_inner.
  destruct (init s) as [[]|e].
  2:{ destruct e; intros [= <-]; done. }
  unfold finally_shutdown.
  assert (∀ p : Outcome Z * World,
            (match shutdown s with
             | Return _ => (p.1, add_shutdown p.2)
             | Raise e => (Raise e, add_shutdown p.2)
             end) = (Return 0%Z, w) →
            p.1 = Return 0%Z ∧ run_results p.2 = run_results w
            ∧ new_crashes p.2 = new_crashes w) as Hfin.
  { intros [o w0]. destruct (shutdown s); [|done]. by intros [= -> <-]. }
  intros (Hexit & Hrr & Hnc)%Hfin Hr. rewrite <- Hrr in Hr.
  rewrite <- Hnc. clear Hfin Hrr Hnc.
  destruct (setup s) as [[]|e].
  2:{ revert Hexit Hr. unfold handlers, report_and_return.
      destruct e; done. }
  pose proof (measured_reports s empty_world) as Hrep.
  pose proof (measured_success s empty_world) as Hok.
  destruct (measured s empty_world) as [[[]|e] w1].
  - destruct (Hok tt w1 eq_refl) as (sent & out & Hmsgs & Hres & Hn & Hm).
    cbn [handlers snd] in *. rewrite Hres in Hr. injection Hr as <-.
    cbn. rewrite Hmsgs. cbn. rewrite length_fmap.
    split; [done|]. split; [|done].
    apply Forall_fmap, Forall_true. done.
  - clear Hok. cbn in Hrep. revert Hexit Hr.
    unfold handlers, report_and_return.
    destruct e as [a| | | |]; try done.
    + destruct (_dump_err s a w1) as [[[]|e'] w2]; done.
    + destruct (_dump_err s _ w1) as [[[]|e'] w2]; done.
    + cbn. intros _ Hr. by rewrite Hrep in Hr.
    + destruct (_dump_err s _ w1) as [[[]|e'] w2]; done.
Qed.

(** The run of the sample script, which has one crash. *)
Lemma reported_crash_count_witness :
  ∃ w r,
    agent_entry_inner (codes := samples.codes) (libs := samples.libs)
      (samples.script (Return tt) (Return tt) (Return tt)) = (Return 0%Z, w)
    ∧ run_results w = [r]
    ∧ crashes_found (agent_result r) = 1
    ∧ length (new_crashes w) = 1.
Proof.
  eexists _, _. split; [vm_compute; reflexivity|]. split; [reflexivity|].
  split; [reflexivity|].
  symmetry.
  refine (proj1 (reported_crash_count (codes := samples.codes)
                   (libs := samples.libs)
                   (samples.script (Return tt) (Return tt) (Return tt))
                   _ _ eq_refl eq_refl)).
Defined.

(** The [finally] clause is the only place where [agent_entry_inner]
    shuts the queue down, and every path past the first [try] goes
    through it once. *)
Lemma entry_shutdowns `{codes : !Codes, libs : !PyLibs} (s : Script) :
  mq_shutdowns (agent_entry s).2
  = match init s with Return _ => 1 | Raise _ => 0 end.
Proof.
  unfold agent_entry, agent_entry_inner.
  destruct (init s) as [[]|e].
  2:{ by destruct e. }
  assert (∀ p : Outcome Z * World,
            mq_shutdowns p.2 = 0 →
            mq_shutdowns
              (let q := finally_shutdown s p in
               match q with
               | (Return exit_code, w) => (Some exit_code, w)
               | (Raise (PyBaseException _), w) => (None, w)
               | (Raise _, w) => (Some 1%Z, w)
               end).2 = 1) as Hfin.
  { intros [o w0] H0. unfold finally_shutdown. cbn [fst snd] in *.
    destruct (shutdown s) as [[]|e]; [destruct o as [z|e]|];
      try destruct e; cbn; by rewrite H0. }
  apply Hfin.
  assert (∀ b r w0, mq_shutdowns w0 = 0 →
                    mq_shutdowns (handlers s b r w0).2 = 0) as Hh.
  { intros b r w0 H0. unfold handlers, report_and_return, _dump_err.
    destruct r as [[]|e]; [done|].
    destruct e; try done; destruct b; try done;
      destruct (produce_err s); done. }
  destruct (setup s); [|by apply Hh].
  pose proof (measured_shutdowns s empty_world) as Hm.
  destruct (measured s empty_world) as [r w1]. by apply Hh.
Qed.

(** X12. The calls of [shutdown] on the message queue in one run, those of
    [mq_init] and those of [agent_entry_inner] together, are one at
    most.  There is one when the initialization succeeds, and when
    [mq_init] has created the queue and then fails in [ping] or in the
    set-up of the channels; there is none when the settings cannot be
    loaded, when the queue cannot be created, and when [mq_app.start()]
    fails after [mq_init] has returned. *)
Theorem shutdown_once `{codes : !Codes, libs : !PyLibs} (s : Script)
    (load_app_settings : Outcome unit) (env : message_queue.MQEnv)
    (start : Outcome unit) :
  init s = (message_queue.initialization load_app_settings env start).1 →
  let total :=
    (message_queue.initialization load_app_settings env start).2
    + mq_shutdowns (agent_entry s).2 in
  total ≤ 1
  ∧ (total = 1 ↔
     init s = Return tt
     ∨ (load_app_settings = Return tt
        ∧ message_queue._create_mq_app env = Return tt
        ∧ ∃ e, (_ ← message_queue.ping env;
                message_queue.configure_channels env) = Raise e)).
Proof.
  intros Hinit. cbn zeta. rewrite entry_shutdowns, Hinit.
  unfold message_queue.initialization, message_queue.mq_init,
    message_queue.do_init.
  destruct load_app_settings as [[]|e0]; cbn [fst snd].
  2:{ split; [lia|]. split; [lia|]. by intros [?|[? _]]. }
  destruct (message_queue._create_mq_app env) as [[]|e1]; cbn [fst snd].
  2:{ split; [lia|]. split; [lia|]. by intros [?|(_ & ? & _)]. }
  destruct (_ ← message_queue.ping env; message_queue.configure_channels env)
    as [[]|e2]; cbn [fst snd].
  - destruct start as [[]|e3]; cbn [fst snd].
    + split; [lia|]. split; [by left|lia].
    + split; [lia|]. split; [lia|]. by intros [?|(_ & _ & ? & ?)].
  - destruct (message_queue.shutdown env); cbn [fst snd];
      (split; [lia|]); (split; [|lia]); intros _; right; eauto.
Qed.

(** A queue that is created and does not answer the ping. *)
Lemma shutdown_once_witness :
  let env :=
    message_queue.mkMQEnv "SQS" (Return tt) (Raise (PyException "TimeoutError"))
      (Return tt) (Return tt) in
  let s := samples.script (Raise (PyException "TimeoutError")) (Return tt)
             (Return tt) in
  (message_queue.initialization (Return tt) env (Return tt)).2
  + mq_shutdowns (agent_entry (codes := samples.codes)
                    (libs := samples.libs) s).2 = 1.
Proof.
  intros env s.
  apply (shutdown_once (codes := samples.codes) (libs := samples.libs)
           s (Return tt) env (Return tt) eq_refl).
  right. split; [done|]. split; [done|]. by eexists.
Defined.
End report_extras.

Section signal_handler_any.
Import entry dispositions.

Lemma remaining_run signums evs : ∀ w,
  remaining signums (run signums w evs) ≤ remaining signums w.
Proof.
  induction evs as [|ev evs IH]; intros w; [done|].
  change (run signums w (ev :: evs))
    with (run signums (step signums w ev) evs).
  etrans; [apply IH|].
  destruct (step_cases signums w ev) as [(_ & _ & ->)|(_ & _ & Hp)].
  - pose proof (remaining_wrapper signums w). lia.
  - unfold remaining. by rewrite Hp.
Qed.

(** X13. [signal_handler] on any list of signals, whatever signals arrive
    and whenever, activations of the handler inside one another
    included: [task.cancel()] is called at most once, and a signal that
    is not in the list keeps its disposition throughout.  When every
    signal of the list can be caught, [wrapper] is not stopped by an
    OSError, and when it has left its [finally] clause a signal of the
    list has its former disposition again if it is listed once, and is
    left bound to the handler of the wrapper if it is listed more than
    once.  When the list holds SIGKILL or SIGSTOP, [wrapper] neither gets
    to await the task nor ends without the OSError.  With no activation
    of the handler under way and no further signal, [wrapper] is left
    after two statements for each listed signal and three more. *)
Theorem signal_handler_any_list (signums : list Signals)
    (prior : Signals → nat) (evs : list Event) :
  let final := run signums (start signums prior) evs in
  cancel_calls final ≤ 1
  ∧ (∀ s, s ∉ signums → table final s = Prior (prior s))
  ∧ (Forall (λ s, catchable s = true) signums →
     phase final ≠ Refused
     ∧ (phase final = Finished →
        ∀ s, table final s
             = if bool_decide (2 ≤ count_occ Nat.eq_dec signums s)
               then new_handler else Prior (prior s)))
  ∧ (Exists (λ s, catchable s = false) signums →
     phase final ≠ Awaiting ∧ phase final ≠ Finished)
  ∧ (∀ quiet,
       frames final = [] → Forall (λ ev, ev = Advance) quiet →
       2 * length signums + 3 ≤ length quiet →
       phase (run signums final quiet) = Finished
       ∨ phase (run signums final quiet) = Refused).
Proof.
  intros final.
  assert (guarded final) as Hg by by apply guarded_run.
  assert (untouched signums prior final) as [Hout _].
  { apply untouched_run, untouched_start. }
  split; [by apply guarded_once|]. split; [done|]. split; [|split].
  - intros Hcatch.
    assert (tracked signums prior final) as Ht.
    { apply tracked_run; [done|]. apply tracked_start. }
    unfold tracked in Ht. split.
    { intros Hph. by rewrite Hph in Ht. }
    intros Hph s. rewrite Hph in Ht. rewrite (Ht s).
    unfold restored. destruct (decide (s ∈ signums)) as [Hin|Hin].
    + by rewrite (bool_decide_eq_true_2 (s ∈ signums)).
    + rewrite (bool_decide_eq_false_2 (s ∈ signums)) by done.
      rewrite (bool_decide_eq_false_2 (s ∈ [])) by by intros ?%elem_of_nil.
      rewrite bool_decide_eq_false_2; [done|].
      assert (count_occ Nat.eq_dec signums s = 0); [|lia].
      apply count_occ_not_In. by rewrite <- list_elem_of_In.
  - intros Hex.
    assert (doomed signums final) as Hd.
    { by apply doomed_run, doomed_start. }
    unfold doomed in Hd. split; intros Hph; by rewrite Hph in Hd.
  - intros quiet Hfr Hq Hlen. apply (remaining_0 signums).
    pose proof (remaining_quiet signums quiet final Hfr Hq) as Hrem.
    pose proof (remaining_run signums evs (start signums prior)) as Hle.
    fold final in Hle. unfold remaining at 2 in Hle. cbn in Hle. lia.
Qed.

(** SIGINT listed twice with SIGTERM; SIGINT arrives while the task is
    awaited and SIGHUP, which is not listed, after it. *)
Lemma signal_handler_any_list_witness :
  let signums := [SIGINT; SIGTERM; SIGINT] in
  let evs := [Advance; Advance; Advance; Advance; Deliver SIGINT;
              Advance; Advance; Advance; Advance; Advance; Advance;
              Deliver SIGHUP;
              Advance; Advance; Advance; Advance; Advance] in
  let final := run signums (start signums (λ s, s)) evs in
  cancel_calls final = 1
  ∧ table final SIGINT = new_handler
  ∧ table final SIGTERM = Prior SIGTERM
  ∧ table final SIGHUP = Prior SIGHUP.
Proof.
  intros signums evs final.
  destruct (signal_handler_any_list signums (λ s, s) evs)
    as (_ & Hout & Hcaught & _).
  destruct Hcaught as [_ Hfin]; [by repeat constructor|].
  split; [reflexivity|]. split; [|split].
  - apply (Hfin eq_refl SIGINT).
  - apply (Hfin eq_refl SIGTERM).
  - apply (Hout SIGHUP). by apply (bool_decide_unpack _).
Defined.

End signal_handler_any.

Section transfer_extras.
Import errors s3 transfer.

(** The two decorators of a download, together. *)
Lemma download_decorators {A} (r : Try A) :
  maybe_unknown_error (maybe_not_found r)
  = match r with
    | Failed (ClientError http_status _ text) =>
        if (http_status =? 404)%Z
        then Failed (ObjectNotFoundError "Object not found in storage")
        else Failed (ObjectStorageError text)
    | Failed (EndpointConnectionError text) => Failed (ObjectStorageError text)
    | _ => r
    end.
Proof.
  destruct r as [a|[status code text|text|msg|msg|msg|msg|name]]; try done.
  cbn. by destruct (status =? 404)%Z.
Qed.

Lemma download_archive_eq client bucket key t :
  download_archive client bucket key t
  = (maybe_unknown_error
       (maybe_not_found (client (length t) (GetObject bucket key))),
     t ++ [GetObject bucket key]).
Proof. done. Qed.

(** X14. Each of the four downloads of one object sends one request, for
    the key of that object in its bucket, and returns exactly when the
    request is answered.  An answer with HTTP status 404 becomes the
    lookup error naming the object; any other [ClientError] and a
    connection error become the download error naming it.  Both are
    Internal errors, so the run reports the Internal code with the
    name of the object as details. *)
Theorem downloads_classified `{codes : !Codes} (client : Client)
    (self : FileTransfer) (t : list Request) :
  let classified (what : string) (q : Request)
      (r : Outcome unit * list Request) :=
    r.2 = t ++ [q]
    ∧ (r.1 = Return tt ↔ client (length t) q = Done tt)
    ∧ (∀ http_status error_code text,
         client (length t) q = Failed (ClientError http_status error_code text) →
         r.1 = Raise (ExAgentError
                        (if (http_status =? 404)%Z
                         then RemoteFileLookupError (Some what)
                         else FileDownloadError (Some what))))
    ∧ (∀ text,
         client (length t) q = Failed (EndpointConnectionError text) →
         r.1 = Raise (ExAgentError (FileDownloadError (Some what))))
    ∧ (∀ e, r.1 = Raise (ExAgentError e) →
            isinstance e CInternalError = true
            ∧ code e = E_INTERNAL_ERROR ∧ details e = Some what) in
  let prefix := _fuzzer_id self +:+ "/" +:+ _fuzzer_rev self in
  classified "binaries"
    (GetObject (_bucket_fuzzers self) (prefix +:+ "/binaries.tar.gz"))
    (download_binaries client self t)
  ∧ classified "seeds"
      (GetObject (_bucket_fuzzers self) (prefix +:+ "/seeds.tar.gz"))
      (download_seeds client self t)
  ∧ classified "config"
      (DownloadFile (_bucket_fuzzers self) (prefix +:+ "/config.json"))
      (download_config client self t)
  ∧ classified "merged_corpus"
      (GetObject (_bucket_data self) (prefix +:+ "/corpus/corpus.tar.gz"))
      (download_merged_corpus client self t).
Proof.
  intros classified prefix.
  assert (∀ what q (r : Try unit),
            classified what q
              (download_handlers what
                 (maybe_unknown_error (maybe_not_found (client (length t) q)),
                  t ++ [q]))) as Hone.
  { intros what q r. unfold classified. rewrite download_decorators.
    destruct (client (length t) q)
      as [[]|[status ec text|text|msg|msg|msg|msg|name]] eqn:Hc; cbn;
      try destruct (status =? 404)%Z eqn:Hs; cbn;
      (split; [done|]); (split; [done|]);
      (split; [intros ??? [= -> _ _]; by rewrite ?Hs|]);
      (split; [try done|]); try done;
      intros e [= <-]; done. }
  assert (∀ a : string, _fuzzer_id self +:+ "/" +:+ _fuzzer_rev self +:+ a
                        = prefix +:+ a) as Hkey.
  { intros a. unfold prefix. by rewrite !append_assoc. }
  unfold download_binaries, download_seeds, download_config,
    download_merged_corpus, BucketFuzzers.binaries, BucketFuzzers.seeds,
    BucketFuzzers.config, BucketData.merged_corpus.
  rewrite !Hkey.
  change ("/binaries" +:+ ".tar.gz") with "/binaries.tar.gz".
  change ("/seeds" +:+ ".tar.gz") with "/seeds.tar.gz".
  change ("/config" +:+ ".json") with "/config.json".
  change ("/corpus/corpus" +:+ ".tar.gz") with "/corpus/corpus.tar.gz".
  split; [apply (Hone "binaries" (GetObject _ _)); exact (Done tt)|].
  split; [apply (Hone "seeds" (GetObject _ _)); exact (Done tt)|].
  split; [apply (Hone "config" (DownloadFile _ _)); exact (Done tt)|].
  apply (Hone "merged_corpus" (GetObject _ _)); exact (Done tt).
Qed.

(** X15. The two corpus uploads pack the directory before they call the
    client.  When the packing raises, no request is sent and the
    exception leaves the upload as it is, not as an upload error.  When
    the directory is packed, each upload sends one request, for the key
    of the archive in the data bucket, and returns exactly when the
    request is answered; every [ClientError], with status 404 as with
    any other, and a connection error become the upload error naming the
    archive: an upload raises no lookup error. *)
Theorem uploads_classified `{codes : !Codes} (client : Client)
    (self : FileTransfer) (run_id : string) (packing : option string)
    (t : list Request) :
  let classified (what : string) (q : Request)
      (r : Outcome unit * list Request) :=
    match packing with
    | Some name => r = (Raise (PyException name), t)
    | None =>
        r.2 = t ++ [q]
        ∧ (r.1 = Return tt ↔ client (length t) q = Done tt)
        ∧ (∀ http_status error_code text,
             client (length t) q
             = Failed (ClientError http_status error_code text) →
             r.1 = Raise (ExAgentError (FileUploadError (Some what))))
        ∧ (∀ text,
             client (length t) q = Failed (EndpointConnectionError text) →
             r.1 = Raise (ExAgentError (FileUploadError (Some what))))
        ∧ (∀ e, r.1 = Raise (ExAgentError e) →
                e = FileUploadError (Some what))
    end in
  let prefix := _fuzzer_id self +:+ "/" +:+ _fuzzer_rev self in
  classified "unmerged_corpus"
    (UploadFileobj (_bucket_data self)
       (prefix +:+ "/corpus/tmp/" +:+ run_id +:+ ".tar.gz"))
    (upload_unmerged_corpus client self run_id packing t)
  ∧ classified "merged_corpus"
      (UploadFileobj (_bucket_data self) (prefix +:+ "/corpus/corpus.tar.gz"))
      (upload_merged_corpus client self packing t).
Proof.
  intros classified prefix.
  unfold upload_unmerged_corpus, upload_merged_corpus,
    BucketData.unmerged_corpus, BucketData.merged_corpus, upload_archive,
    decorated, classified.
  destruct packing as [name|]; [done|].
  assert (∀ what q,
            (λ r : Outcome unit * list Request,
               r.2 = t ++ [q]
               ∧ (r.1 = Return tt ↔ client (length t) q = Done tt)
               ∧ (∀ http_status error_code text,
                    client (length t) q
                    = Failed (ClientError http_status error_code text) →
                    r.1 = Raise (ExAgentError (FileUploadError (Some what))))
               ∧ (∀ text,
                    client (length t) q
                    = Failed (EndpointConnectionError text) →
                    r.1 = Raise (ExAgentError (FileUploadError (Some what))))
               ∧ (∀ e, r.1 = Raise (ExAgentError e) →
                       e = FileUploadError (Some what)))
              (upload_handlers what
                 (maybe_unknown_error (client (length t) q), t ++ [q])))
    as Hone.
  { intros what q. cbn beta.
    destruct (client (length t) q)
      as [[]|[status ec text|text|msg|msg|msg|msg|name]] eqn:Hc; cbn;
      (split; [done|]); (split; [done|]); (split; [done|]);
      (split; [done|]); by intros e [= <-]. }
  assert (∀ a : string, _fuzzer_id self +:+ "/" +:+ _fuzzer_rev self +:+ a
                        = prefix +:+ a) as Hkey.
  { intros a. unfold prefix. by rewrite !append_assoc. }
  rewrite !Hkey.
  change ("/corpus/corpus" +:+ ".tar.gz") with "/corpus/corpus.tar.gz".
  split; [apply (Hone "unmerged_corpus" (UploadFileobj _ _))|].
  apply (Hone "merged_corpus" (UploadFileobj _ _)).
Qed.

(** X16. The upload of a crash input through [upload_bytes]: when the
    client answers, the bytes are stored under the crash key of the
    input; when it raises a [ClientError] or a connection error, the
    caller gets the upload error naming the crash and nothing is
    stored.  The request is the one for that key in both cases. *)
Theorem upload_crash_through_storage `{codes : !Codes} (client : Client)
    (settings : entry.AppSettings) (input_id input_bytes : string)
    (w : entry.World) (t : list Request) :
  let '(bucket, key) := entry.crash_key settings input_id in
  let sent := upload_bytes client bucket key t in
  let r := entry.upload_crash settings input_id input_bytes
             (outcome_of sent.1) w in
  sent.2 = t ++ [UploadFileobj bucket key]
  ∧ (client (length t) (UploadFileobj bucket key) = Done tt →
     r.1 = Return tt
     ∧ entry.objects r.2 !! (bucket, key) = Some input_bytes)
  ∧ (∀ f, client (length t) (UploadFileobj bucket key) = Failed f →
          (∃ text, f = EndpointConnectionError text)
          ∨ (∃ http_status error_code text,
               f = ClientError http_status error_code text) →
          r = (Raise (ExAgentError (FileUploadError (Some "crash"))), w)).
Proof.
  unfold entry.crash_key. cbn zeta.
  unfold upload_bytes, decorated, request, entry.upload_crash,
    entry.crash_key. cbn [fst snd].
  split; [done|]. split.
  - intros ->. cbn. split; [done|]. by rewrite lookup_insert_eq.
  - intros f -> [(text & ->) | (status & ec & text & ->)]; done.
Qed.

(** A status 404 on the upload of a crash input. *)
Lemma upload_crash_through_storage_witness :
  let client (n : nat) (q : Request) : Try unit :=
    Failed (ClientError 404 "404" "Not Found") in
  entry.upload_crash (codes := samples.codes) samples.settings "id" "ABCD"
    (outcome_of (upload_bytes client "data" "fuzzer-1/rev-1/crashes/id.bin"
                   []).1) entry.empty_world
  = (Raise (ExAgentError (FileUploadError (codes := samples.codes)
                            (Some "crash"))), entry.empty_world).
Proof.
  intros client.
  refine (proj2 (proj2 (upload_crash_through_storage (codes := samples.codes)
                   client samples.settings "id" "ABCD" entry.empty_world []))
            _ eq_refl _).
  right. by exists 404%Z, "404", "Not Found".
Defined.
End transfer_extras.

Section corpus_extras.
Import errors s3 transfer.

(** What the loop over the listed objects leaves: one request for each
    object it got to, the keys of the answered ones added to the list,
    and no failure of the storage layer's own kinds. *)
Lemma download_each_result client bucket listed : ∀ keys t,
  let r := download_each client bucket listed keys t in
  let fetched :=
    omap id (imap (λ i key,
                     match client (length t + i) (GetObject bucket key) with
                     | Done _ => Some key
                     | Failed _ => None
                     end) listed) in
  match r.1 with
  | Done ks => ks = keys ++ fetched ∧ r.2 = t ++ (GetObject bucket <$> listed)
  | Failed f =>
      is_storage_error f = false
      ∧ ∃ i key, listed !! i = Some key
                 ∧ maybe_unknown_error
                     (maybe_not_found
                        (client (length t + i) (GetObject bucket key)))
                   = Failed f
  end.
Proof.
  induction listed as [|key listed IH]; intros keys t; cbn zeta.
  { cbn. by rewrite !app_nil_r. }
  cbn [download_each]. rewrite download_archive_eq.
  assert (∀ ks, match (download_each client bucket listed ks
                         (t ++ [GetObject bucket key])).1 with
                | Done ks' =>
                    ks' = ks ++ omap id (imap (λ i key0,
                            match client (length t + S i)
                                    (GetObject bucket key0) with
                            | Done _ => Some key0
                            | Failed _ => None
                            end) listed)
                    ∧ (download_each client bucket listed ks
                         (t ++ [GetObject bucket key])).2
                      = t ++ GetObject bucket key
                             :: (GetObject bucket <$> listed)
                | Failed f =>
                    is_storage_error f = false
                    ∧ ∃ i key0, (key :: listed) !! i = Some key0
                        ∧ maybe_unknown_error
                            (maybe_not_found
                               (client (length t + i)
                                  (GetObject bucket key0)))
                          = Failed f
                end) as Hrest.
  { intros ks. specialize (IH ks (t ++ [GetObject bucket key])).
    cbn zeta in IH. rewrite length_app in IH. cbn [length] in IH.
    destruct (download_each client bucket listed ks _).1 as [ks'|f].
    - destruct IH as [-> ->]. split; [|by rewrite <- app_assoc].
      do 2 f_equal. apply imap_ext. intros i x _. cbn.
      by replace (length t + 1 + i) with (length t + S i) by lia.
    - destruct IH as (Hf & i & key0 & Hi & Hr). split; [done|].
      exists (S i), key0. split; [done|].
      by replace (length t + S i) with (length t + 1 + i) by lia. }
  rewrite download_decorators. cbn [imap omap fmap list_fmap].
  rewrite Nat.add_0_r.
  destruct (client (length t) (GetObject bucket key))
    as [[]|[status ec text|text|msg|msg|msg|msg|name]] eqn:Hc; cbn [id].
  - specialize (Hrest (keys ++ [key])).
    destruct (download_each _ _ _ _ _).1; [|done].
    destruct Hrest as [-> ->]. by rewrite <- app_assoc.
  - assert (is_storage_error
              (if (status =? 404)%Z
               then ObjectNotFoundError "Object not found in storage"
               else ObjectStorageError text) = true) as Hs.
    { by destruct (status =? 404)%Z. }
    destruct (status =? 404)%Z; cbn [is_storage_error]; apply Hrest.
  - apply Hrest.
  - cbn. split; [done|]. exists 0, key. split; [done|].
    by rewrite Nat.add_0_r, Hc.
  - apply Hrest.
  - apply Hrest.
  - apply Hrest.
  - cbn. split; [done|]. exists 0, key. split; [done|].
    by rewrite Nat.add_0_r, Hc.
Qed.

(** X17. [download_unmerged_corpus] with a listing that raises nothing of
    the storage layer's own kinds: it raises no domain error, so its
    download error is never produced; an object whose request fails with
    a [ClientError] or a connection error is skipped; and when it
    returns, it has sent one request for each listed object, in the order
    of the listing, and returns the keys of the answered ones. *)
Theorem download_unmerged_corpus_result `{codes : !Codes} (client : Client)
    (self : FileTransfer) (listed : list string) (ending : option Fault)
    (t : list Request) :
  (∀ f, ending = Some f → is_storage_error f = false) →
  let r := download_unmerged_corpus client self listed ending t in
  let bucket := _bucket_data self in
  let fetched :=
    omap id (imap (λ i key,
                     match client (length t + i) (GetObject bucket key) with
                     | Done _ => Some key
                     | Failed _ => None
                     end) listed) in
  (∀ e, r.1 ≠ Raise (ExAgentError e))
  ∧ (∀ keys, r.1 = Return keys →
             keys = fetched ∧ ending = None
             ∧ r.2 = t ++ (GetObject bucket <$> listed))
  ∧ (ending = None →
     (∀ i key f, listed !! i = Some key →
                 client (length t + i) (GetObject bucket key) = Failed f →
                 ∃ text, f = EndpointConnectionError text
                         ∨ ∃ http_status error_code,
                             f = ClientError http_status error_code text) →
     r.1 = Return fetched).
Proof.
  intros Hending r bucket fetched. subst r.
  unfold download_unmerged_corpus, BucketData.unmerged_corpus_list,
    download_many_archives, and_then.
  pose proof (download_each_result client bucket listed [] t) as Heach.
  cbn zeta in Heach. fold bucket.
  destruct (download_each client bucket listed [] t) as [[ks|f] t'];
    cbn [fst snd] in Heach.
  - destruct Heach as [-> ->]. fold fetched.
    destruct ending as [f|]; cbn [app].
    + rewrite (Hending f eq_refl). by destruct f.
    + cbn. split; [done|]. split; [|done]. by intros keys [= <-].
  - destruct Heach as (Hf & i & key & Hi & Hr). rewrite Hf.
    split; [by destruct f|]. split; [done|].
    intros _ Hboto. exfalso. rewrite download_decorators in Hr.
    destruct (client (length t + i) (GetObject bucket key)) as [[]|f0] eqn:Hc;
      [done|].
    destruct (Hboto i key f0 Hi Hc) as (text & [->|(status & ec & ->)]).
    + injection Hr as <-. done.
    + destruct (status =? 404)%Z; injection Hr as <-; done.
Qed.

(** Three listed archives, the second of which cannot be fetched. *)
Lemma download_unmerged_corpus_result_witness :
  let client (n : nat) (q : Request) : Try unit :=
    if bool_decide (q = GetObject "data" "f/r/corpus/tmp/b.tar.gz")
    then Failed (ClientError 500 "500" "Internal Server Error")
    else Done tt in
  (download_unmerged_corpus (codes := samples.codes) client
     (mkFileTransfer "fuzzers" "data" "f" "r")
     ["f/r/corpus/tmp/a.tar.gz"; "f/r/corpus/tmp/b.tar.gz";
      "f/r/corpus/tmp/c.tar.gz"] None []).1
  = Return ["f/r/corpus/tmp/a.tar.gz"; "f/r/corpus/tmp/c.tar.gz"].
Proof.
  intros client.
  refine (proj2 (proj2 (download_unmerged_corpus_result
                          (codes := samples.codes) client
                          (mkFileTransfer "fuzzers" "data" "f" "r")
                          _ None [] _)) eq_refl _).
  - discriminate.
  - intros i key f Hi Hc. exists "Internal Server Error". right.
    exists 500%Z, "500". unfold client in Hc.
    destruct (bool_decide _); [by injection Hc as <-|discriminate].
Defined.

Lemma delete_object_eq client bucket key t :
  delete_object client bucket key t
  = match client (length t) (HeadObject bucket key) with
    | Done _ =>
        (maybe_unknown_error
           (maybe_not_found
              (client (S (length t)) (DeleteObject bucket key))),
         t ++ [HeadObject bucket key; DeleteObject bucket key])
    | Failed f =>
        (maybe_unknown_error (maybe_not_found (Failed f)),
         t ++ [HeadObject bucket key])
    end.
Proof.
  unfold delete_object, decorated, and_then, request.
  destruct (client (length t) (HeadObject bucket key)) as [[]|f]; [|done].
  rewrite length_app. cbn [length]. rewrite Nat.add_1_r.
  by rewrite <- app_assoc.
Qed.

(** What the loop over the keys sends. *)
Lemma delete_each_requests client self keys : ∀ t,
  let r := delete_each client self keys t in
  let bucket := _bucket_data self in
  ∃ new, r.2 = t ++ new
    ∧ Forall (λ q, ∃ key, key ∈ keys
                          ∧ (q = HeadObject bucket key
                             ∨ q = DeleteObject bucket key)) new
    ∧ (∀ i key, new !! i = Some (DeleteObject bucket key) →
         ∃ j, i = S j ∧ new !! j = Some (HeadObject bucket key)
              ∧ client (length t + j) (HeadObject bucket key) = Done tt)
    ∧ match r.1 with
      | Done _ => True
      | Failed f =>
          ∃ j q, j < length new ∧ (t ++ new) !! (length t + j) = Some q
                 ∧ maybe_unknown_error
                     (maybe_not_found (client (length t + j) q)) = Failed f
                 ∧ ∀ msg, f ≠ ObjectNotFoundError msg
      end.
Proof.
  induction keys as [|key keys IH]; intros t; cbn zeta.
  { exists []. rewrite app_nil_r. split; [done|]. split; [done|].
    split; [|done]. intros i k. by rewrite lookup_nil. }
  cbn [delete_each]. rewrite delete_object_eq.
  set (bucket := _bucket_data self).
  assert (∀ pre t',
            t' = t ++ pre →
            Forall (λ q, ∃ key0, key0 ∈ key :: keys
                          ∧ (q = HeadObject bucket key0
                             ∨ q = DeleteObject bucket key0)) pre →
            (∀ i k, pre !! i = Some (DeleteObject bucket k) →
               ∃ j, i = S j ∧ pre !! j = Some (HeadObject bucket k)
                    ∧ client (length t + j) (HeadObject bucket k) = Done tt) →
            let r := delete_each client self keys t' in
            ∃ new, r.2 = t ++ new
              ∧ Forall (λ q, ∃ key0, key0 ∈ key :: keys
                          ∧ (q = HeadObject bucket key0
                             ∨ q = DeleteObject bucket key0)) new
              ∧ (∀ i k, new !! i = Some (DeleteObject bucket k) →
                   ∃ j, i = S j ∧ new !! j = Some (HeadObject bucket k)
                        ∧ client (length t + j) (HeadObject bucket k)
                          = Done tt)
              ∧ match r.1 with
                | Done _ => True
                | Failed f =>
                    ∃ j q, j < length new
                           ∧ (t ++ new) !! (length t + j) = Some q
                           ∧ maybe_unknown_error
                               (maybe_not_found (client (length t + j) q))
                             = Failed f
                           ∧ ∀ msg, f ≠ ObjectNotFoundError msg
                end) as Hrest.
  { intros pre t' -> Hpre Hdel. cbn zeta.
    destruct (IH (t ++ pre)) as (new & Ht & Hall & Hd & Hf).
    cbn zeta in Ht, Hall, Hd, Hf. fold bucket in Hall, Hd.
    exists (pre ++ new). split; [by rewrite Ht, app_assoc|]. split.
    { apply Forall_app. split; [done|].
      eapply Forall_impl; [exact Hall|]. intros q (k & Hk & Hq).
      exists k. split; [by apply list_elem_of_further|done]. }
    split.
    { intros i k Hi. destruct (decide (i < length pre)) as [Hlt|Hge].
      - rewrite lookup_app_l in Hi by done.
        destruct (Hdel i k Hi) as (j & -> & Hj & Hc). exists j.
        split; [done|]. split; [|done]. rewrite lookup_app_l; [done|lia].
      - rewrite lookup_app_r in Hi by lia.
        destruct (Hd _ k Hi) as (j & Hij & Hj & Hc).
        exists (length pre + j). split; [lia|]. split.
        + rewrite lookup_app_r by lia.
          by replace (length pre + j - length pre) with j by lia.
        + rewrite length_app, <- Nat.add_assoc in Hc. done. }
    destruct (delete_each client self keys (t ++ pre)).1 as [[]|f]; [done|].
    destruct Hf as (j & q & Hj & Hq & Hr & Hnf).
    exists (length pre + j), q. rewrite length_app. split; [lia|].
    rewrite length_app in Hq, Hr. rewrite <- app_assoc in Hq.
    rewrite Nat.add_assoc. done. }
  assert (key ∈ key :: keys) as Hkey by apply list_elem_of_here.
  destruct (client (length t) (HeadObject bucket key)) as [[]|f] eqn:Hhead.
  - assert (Forall (λ q, ∃ key0, key0 ∈ key :: keys
                          ∧ (q = HeadObject bucket key0
                             ∨ q = DeleteObject bucket key0))
              [HeadObject bucket key; DeleteObject bucket key]) as Hpre.
    { repeat constructor; exists key; auto. }
    assert (∀ i k,
              [HeadObject bucket key; DeleteObject bucket key] !! i
              = Some (DeleteObject bucket k) →
              ∃ j, i = S j
                   ∧ [HeadObject bucket key; DeleteObject bucket key] !! j
                     = Some (HeadObject bucket k)
                   ∧ client (length t + j) (HeadObject bucket k) = Done tt)
      as Hdel.
    { intros [|[|i]] k; [done| |done]. intros [= <-]. exists 0.
      rewrite Nat.add_0_r. done. }
    specialize (Hrest [HeadObject bucket key; DeleteObject bucket key]
                  _ eq_refl Hpre Hdel).
    cbn zeta in Hrest.
    destruct (maybe_unknown_error (maybe_not_found
                (client (S (length t)) (DeleteObject bucket key))))
      as [[]|f] eqn:Hd; [done| ].
    destruct f as [status ec text|text|msg|msg|msg|msg|name];
      try exact Hrest;
      (eexists; split; [done|]; split; [done|]; split; [done|];
       exists 1, (DeleteObject bucket key); split; [cbn; lia|];
       split;
       [rewrite lookup_app_r by lia;
        by replace (length t + 1 - length t) with 1 by lia|];
       rewrite Nat.add_1_r; split; [done|]; intros msg'; discriminate).
  - assert (Forall (λ q, ∃ key0, key0 ∈ key :: keys
                          ∧ (q = HeadObject bucket key0
                             ∨ q = DeleteObject bucket key0))
              [HeadObject bucket key]) as Hpre.
    { repeat constructor; exists key; auto. }
    assert (∀ i k,
              [HeadObject bucket key] !! i = Some (DeleteObject bucket k) →
              ∃ j, i = S j
                   ∧ [HeadObject bucket key] !! j = Some (HeadObject bucket k)
                   ∧ client (length t + j) (HeadObject bucket k) = Done tt)
      as Hdel.
    { by intros [|i] k. }
    specialize (Hrest [HeadObject bucket key] _ eq_refl Hpre Hdel).
    cbn zeta in Hrest.
    destruct (maybe_unknown_error (maybe_not_found (Failed f)))
      as [[]|f'] eqn:Hd; [done| ].
    destruct f' as [status ec text|text|msg|msg|msg|msg|name];
      try exact Hrest;
      (eexists; split; [done|]; split; [done|]; split; [done|];
       exists 0, (HeadObject bucket key); split; [cbn; lia|];
       split;
       [rewrite lookup_app_r by lia;
        by replace (length t + 0 - length t) with 0 by lia|];
       rewrite Nat.add_0_r, Hhead; split; [done|]; intros msg';
       discriminate).
Qed.

(** X18. [delete_unmerged_corpus] sends nothing but lookups and
    deletions of the given keys in the data bucket, and a deletion only
    right after the lookup of the same key was answered.  A key whose
    lookup or deletion fails with status 404 is passed over: when no
    request fails otherwise the call returns.  The only domain error it
    raises is the deletion error naming the unmerged corpus, and then
    some request has failed with something else than a status 404. *)
Theorem delete_unmerged_corpus_requests `{codes : !Codes} (client : Client)
    (self : FileTransfer) (keys : list string) (t : list Request) :
  let r := delete_unmerged_corpus client self keys t in
  let bucket := _bucket_data self in
  ∃ new, r.2 = t ++ new
    ∧ Forall (λ q, ∃ key, key ∈ keys
                          ∧ (q = HeadObject bucket key
                             ∨ q = DeleteObject bucket key)) new
    ∧ (∀ i key, new !! i = Some (DeleteObject bucket key) →
         ∃ j, i = S j ∧ new !! j = Some (HeadObject bucket key)
              ∧ client (length t + j) (HeadObject bucket key) = Done tt)
    ∧ ((∀ j q f, new !! j = Some q → client (length t + j) q = Failed f →
                 ∃ error_code text, f = ClientError 404 error_code text) →
       r.1 = Return tt)
    ∧ (∀ e, r.1 = Raise (ExAgentError e) →
         e = RemoteFileDeleteError (Some "unmerged_corpus")
         ∧ ∃ j q f, new !! j = Some q
                    ∧ client (length t + j) q = Failed f
                    ∧ ∀ error_code text, f ≠ ClientError 404 error_code text).
Proof.
  cbn zeta. unfold delete_unmerged_corpus.
  destruct (delete_each_requests client self keys t)
    as (new & Ht & Hall & Hdel & Hf). cbn zeta in Ht, Hall, Hdel, Hf.
  destruct (delete_each client self keys t) as [[[]|f] t'];
    cbn [fst snd] in *.
  { exists new. by repeat split. }
  destruct Hf as (j & q & Hj & Hq & Hr & Hnf).
  rewrite lookup_app_r in Hq by lia.
  replace (length t + j - length t) with j in Hq by lia.
  assert (∃ f0, client (length t + j) q = Failed f0
                ∧ ∀ ec text, f0 ≠ ClientError 404 ec text) as (f0 & Hc & H404).
  { rewrite download_decorators in Hr.
    destruct (client (length t + j) q) as [[]|f0]; [done|].
    exists f0. split; [done|]. intros ec text ->. cbn in Hr.
    injection Hr as <-. by destruct (Hnf "Object not found in storage"). }
  exists new. split; [by destruct (is_storage_error f)|].
  split; [done|]. split; [done|]. split.
  - intros Hall404. destruct (Hall404 j q f0 Hq Hc) as (ec & text & ->).
    by destruct (H404 ec text).
  - intros e He. split; [|by exists j, q, f0].
    destruct (is_storage_error f); [by injection He as <-|].
    by destruct f.
Qed.

End corpus_extras.

Section initializer_extras.
Import s3 traces.
Variable client : Client.

Lemma sends_ret {A} P (a : Try A) : sends P (λ t, (a, t)).
Proof. intros t. exists []. by rewrite app_nil_r. Qed.

Lemma sends_request P q : P q → sends P (request client q).
Proof. intros Hq t. exists [q]. split; [done|]. by constructor. Qed.

Lemma sends_and_then {A B} P (m : S3 A) (k : A → S3 B) :
  sends P m → (∀ a, sends P (k a)) → sends P (and_then m k).
Proof.
  intros Hm Hk t. unfold and_then. destruct (Hm t) as (new & Ht & Hall).
  destruct (m t) as [[a|f] t']; cbn in Ht; subst t'.
  - destruct (Hk a (t ++ new)) as (new' & Ht' & Hall').
    exists (new ++ new'). rewrite Ht', app_assoc. split; [done|].
    by apply Forall_app.
  - by exists new.
Qed.

Lemma verify_auth_sends P : P ListBuckets → sends P (_verify_auth client).
Proof.
  intros HP t. destruct (sends_request P ListBuckets HP t) as (new & Ht & Hall).
  exists new. split; [|done]. rewrite <- Ht. unfold _verify_auth.
  destruct (request client ListBuckets t) as [[[]|f] t']; [done|].
  destruct f; try done. cbn. repeat case_match; done.
Qed.

Lemma check_bucket_exists_sends P name :
  P (HeadBucket name) → sends P (_check_bucket_exists client name).
Proof.
  intros HP t.
  destruct (sends_request P (HeadBucket name) HP t) as (new & Ht & Hall).
  exists new. split; [|done]. rewrite <- Ht. unfold _check_bucket_exists.
  destruct (request client (HeadBucket name) t) as [[[]|f] t']; [done|].
  destruct f; try done. cbn. repeat case_match; done.
Qed.

Lemma download_test_read_sends P name :
  P (DownloadFileobj name "test_read") →
  sends P (download_test_read client name).
Proof.
  intros HP t.
  destruct (sends_request P _ HP t) as (new & Ht & Hall).
  exists new. split; [|done]. rewrite <- Ht. unfold download_test_read.
  destruct (request client _ t) as [[[]|f] t']; [done|].
  destruct f; try done. cbn. repeat case_match; done.
Qed.

Lemma check_for_read_permissions_sends P name :
  P (ListObjects name) → P (DownloadFileobj name "test_read") →
  sends P (_check_for_read_permissions client name).
Proof.
  intros HP1 HP2 t.
  destruct (sends_and_then P (request client (ListObjects name))
              (λ _, download_test_read client name)
              (sends_request P _ HP1)
              (λ _, download_test_read_sends P name HP2) t)
    as (new & Ht & Hall).
  exists new. split; [|done]. rewrite <- Ht.
  unfold _check_for_read_permissions.
  destruct (and_then _ _ t) as [[[]|f] t']; [done|].
  destruct f; try done. cbn. repeat case_match; done.
Qed.

Lemma check_for_write_permissions_sends P name :
  P (UploadFileobj name "mykey") → P (DeleteObject name "mykey") →
  sends P (_check_for_write_permissions client name).
Proof.
  intros HP1 HP2 t.
  destruct (sends_and_then P (request client (UploadFileobj name "mykey"))
              (λ _, request client (DeleteObject name "mykey"))
              (sends_request P _ HP1)
              (λ _, sends_request P _ HP2) t)
    as (new & Ht & Hall).
  exists new. split; [|done]. rewrite <- Ht.
  unfold _check_for_write_permissions.
  destruct (and_then _ _ t) as [[[]|f] t']; [done|].
  destruct f; try done. cbn. repeat case_match; done.
Qed.

Lemma check_all_sends checks0 checks :
  (∀ chk, chk ∈ checks → chk ∈ checks0) →
  sends (write_test checks0) (check_all client checks).
Proof.
  induction checks as [|chk checks IH]; intros Hsub.
  { apply sends_ret. }
  cbn [check_all]. apply sends_and_then.
  2:{ intros _. apply IH. intros c Hc. apply Hsub.
      by apply list_elem_of_further. }
  unfold _check_bucket. apply sends_and_then.
  { apply check_bucket_exists_sends. by intros b. }
  intros _. apply sends_and_then.
  { destruct (check_read chk); [|apply sends_ret].
    apply check_for_read_permissions_sends; by intros b. }
  intros _. destruct (check_write chk) eqn:Hw; [|apply sends_ret].
  assert (∀ b q, writes_to b q = true →
                 q = UploadFileobj (bucket_name chk) "mykey"
                 ∨ q = DeleteObject (bucket_name chk) "mykey" →
                 (q = UploadFileobj b "mykey" ∨ q = DeleteObject b "mykey")
                 ∧ ∃ chk0, chk0 ∈ checks0 ∧ bucket_name chk0 = b
                           ∧ check_write chk0 = true) as Hmine.
  { intros b q Hwr Hq.
    assert (bucket_name chk = b) as <-.
    { destruct Hq as [-> | ->]; cbn in Hwr; by apply bool_decide_eq_true in Hwr. }
    split; [done|]. exists chk. split; [|done].
    apply Hsub, list_elem_of_here. }
  apply check_for_write_permissions_sends; intros b Hb; apply Hmine; auto.
Qed.
End initializer_extras.

Section initializer_claims.
Import s3 traces.

(** X19. The initialization of the storage writes only where a write
    check was asked for: every request of [do_init] that changes a
    bucket is the upload or the deletion of the test object in a bucket
    whose check asks for write access.  So [object_storage_init] leaves
    the fuzzers bucket as it is, when it is not also the data bucket. *)
Theorem do_init_writes (client : Client) (checks : list BucketCheck)
    (t : list Request) :
  (∃ new, (do_init client checks t).2 = t ++ new
          ∧ Forall (write_test checks) new)
  ∧ ∀ bucket_fuzzers bucket_data,
      bucket_fuzzers ≠ bucket_data →
      ∃ new, (object_storage_init client bucket_fuzzers bucket_data t).2
             = t ++ new
             ∧ Forall (λ q, writes_to bucket_fuzzers q = false) new.
Proof.
  assert (∀ checks, sends (write_test checks) (do_init client checks))
    as Hinit.
  { intros cs. apply sends_and_then.
    - apply verify_auth_sends. by intros b.
    - intros _. by apply check_all_sends. }
  split; [apply Hinit|].
  intros bf bd Hne. unfold object_storage_init.
  destruct (Hinit [mkBucketCheck bf true false; mkBucketCheck bd true true] t)
    as (new & Ht & Hall).
  exists new. split; [done|]. eapply Forall_impl; [exact Hall|].
  intros q Hq. destruct (writes_to bf q) eqn:Hw; [|done].
  destruct (Hq bf Hw) as (_ & chk & Hin & Hname & Hcw).
  rewrite !elem_of_cons in Hin.
  destruct Hin as [-> | [-> | Hin%elem_of_nil]]; cbn in *; done.
Qed.

(** A client that answers every request. *)
Lemma do_init_writes_witness :
  ∃ new,
    (object_storage_init (λ _ _, Done tt) "fuzzers" "data" []).2 = [] ++ new
    ∧ Forall (λ q, writes_to "fuzzers" q = false) new.
Proof.
  apply (proj2 (do_init_writes (λ _ _, Done tt) [] [])). discriminate.
Defined.
End initializer_claims.

Section initializer_faults.
Import s3 traces.
Variable client : Client.
Hypothesis client_errors :
  ∀ n q f, client n q = Failed f →
           ∃ http_status error_code text,
             f = ClientError http_status error_code text.
Hypothesis numeric_codes :
  ∀ n bucket key http_status error_code text,
    client n (DownloadFileobj bucket key)
    = Failed (ClientError http_status error_code text) →
    is_Some (Py.int_of_str error_code).

Lemma raises_and_then {A B} P (m : S3 A) (k : A → S3 B) :
  raises P m → (∀ a, raises P (k a)) → raises P (and_then m k).
Proof.
  intros Hm Hk t. unfold and_then. specialize (Hm t).
  destruct (m t) as [[a|f] t']; [apply Hk|done].
Qed.

Lemma raises_ret {A} P (a : A) : raises P (λ t, (Done a, t)).
Proof. by intros t. Qed.

Lemma request_raises q :
  raises (λ f, ∃ http_status error_code text,
            f = ClientError http_status error_code text)
    (request client q).
Proof.
  intros t. cbn. destruct (client (length t) q) eqn:Hc; [done|].
  by eapply client_errors.
Qed.

Lemma check_bucket_raises name check_read check_write :
  raises (λ f, ∃ msg, f = ObjectStorageInitError msg)
    (_check_bucket client name check_read check_write).
Proof.
  unfold _check_bucket. apply raises_and_then; [|intros _].
  { intros t. unfold _check_bucket_exists.
    pose proof (request_raises (HeadBucket name) t) as Hr.
    destruct (request client (HeadBucket name) t) as [[[]|f] t']; [done|].
    destruct Hr as (s & c & x & ->). cbn. repeat case_match; simplify_eq/=; eauto. }
  apply raises_and_then; [|intros _].
  { destruct check_read; [|apply raises_ret].
    intros t. unfold _check_for_read_permissions, and_then.
    pose proof (request_raises (ListObjects name) t) as Hr.
    destruct (request client (ListObjects name) t) as [[[]|f] t'].
    2:{ destruct Hr as (s & c & x & ->). cbn. repeat case_match; simplify_eq/=; eauto. }
    unfold download_test_read.
    pose proof (request_raises (DownloadFileobj name "test_read") t') as Hd.
    cbn in Hd. cbn [request].
    destruct (client (length t') (DownloadFileobj name "test_read"))
      as [[]|f] eqn:Hc; [done|].
    destruct Hd as (s & c & x & ->).
    destruct (numeric_codes _ _ _ _ _ _ Hc) as [n ->].
    destruct (n =? 404)%Z; cbn; [done|]. repeat case_match; simplify_eq/=; eauto. }
  destruct check_write; [|apply raises_ret].
  intros t. unfold _check_for_write_permissions, and_then.
  pose proof (request_raises (UploadFileobj name "mykey") t) as Hr.
  destruct (request client (UploadFileobj name "mykey") t) as [[[]|f] t'].
  2:{ destruct Hr as (s & c & x & ->). cbn. repeat case_match; simplify_eq/=; eauto. }
  pose proof (request_raises (DeleteObject name "mykey") t') as Hd.
  destruct (request client (DeleteObject name "mykey") t') as [[[]|f] t''];
    [done|].
  destruct Hd as (s & c & x & ->). cbn. repeat case_match; simplify_eq/=; eauto.
Qed.

Lemma do_init_raises checks :
  raises (λ f, ∃ msg, f = ObjectStorageInitError msg)
    (do_init client checks).
Proof.
  unfold do_init. apply raises_and_then; [|intros _].
  { intros t. unfold _verify_auth.
    pose proof (request_raises ListBuckets t) as Hr.
    destruct (request client ListBuckets t) as [[[]|f] t']; [done|].
    destruct Hr as (s & c & x & ->). cbn. repeat case_match; simplify_eq/=; eauto. }
  induction checks as [|chk checks IH]; [apply raises_ret|].
  cbn [check_all]. apply raises_and_then; [|by intros _].
  apply check_bucket_raises.
Qed.
End initializer_faults.

Section initializer_fault_claims.
Import s3 traces.

(** X20. When the client fails only with [ClientError]s, and with a
    numeric error code where a download fails, [do_init] either returns
    or raises the initialization error of the storage.  A connection
    error is turned into that error only for the first request: raised
    by the lookup of a bucket it leaves [do_init] as it is. *)
Theorem do_init_failures (client : Client) (checks : list BucketCheck)
    (t : list Request) :
  ((∀ n q f, client n q = Failed f →
             ∃ http_status error_code text,
               f = ClientError http_status error_code text) →
   (∀ n bucket key http_status error_code text,
      client n (DownloadFileobj bucket key)
      = Failed (ClientError http_status error_code text) →
      is_Some (Py.int_of_str error_code)) →
   match (do_init client checks t).1 with
   | Done _ => True
   | Failed f => ∃ msg, f = ObjectStorageInitError msg
   end)
  ∧ (∀ text,
       client (length t) ListBuckets = Failed (EndpointConnectionError text) →
       do_init client checks t
       = (Failed (ObjectStorageInitError text), t ++ [ListBuckets]))
  ∧ (∀ text chk,
       client (length t) ListBuckets = Done tt →
       client (S (length t)) (HeadBucket (bucket_name chk))
       = Failed (EndpointConnectionError text) →
       do_init client (chk :: checks) t
       = (Failed (EndpointConnectionError text),
          t ++ [ListBuckets; HeadBucket (bucket_name chk)])).
Proof.
  split; [|split].
  - intros H1 H2. by apply do_init_raises.
  - intros text Hc. unfold do_init, and_then, _verify_auth, request.
    by rewrite Hc.
  - intros text chk Hc Hb.
    unfold do_init, and_then, _verify_auth, request. rewrite Hc.
    cbn [check_all]. unfold and_then, _check_bucket, and_then,
      _check_bucket_exists, request.
    rewrite length_app. cbn [length]. rewrite Nat.add_1_r, Hb.
    by rewrite <- app_assoc.
Qed.

(** A client without the test object and without write access. *)
Lemma do_init_failures_witness :
  let client (n : nat) (q : Request) : Try unit :=
    match q with
    | DownloadFileobj _ _ => Failed (ClientError 404 "404" "Not Found")
    | UploadFileobj _ _ => Failed (ClientError 403 "AccessDenied" "Forbidden")
    | _ => Done tt
    end in
  match (object_storage_init client "fuzzers" "data" []).1 with
  | Done _ => True
  | Failed f => ∃ msg, f = ObjectStorageInitError msg
  end.
Proof.
  intros client. unfold object_storage_init.
  refine (proj1 (do_init_failures client
                   [mkBucketCheck "fuzzers" true false;
                    mkBucketCheck "data" true true] []) _ _).
  - intros n q f. destruct q; cbn; intros [= <-]; eauto.
  - intros n b k s c x. cbn. intros [= <- <- <-]. by eexists.
Defined.
End initializer_fault_claims.

Section layout_extras.
Import s3 transfer.

Lemma append_inj_l (a x y : string) : a +:+ x = a +:+ y → x = y.
Proof.
  induction a as [|c a IH]; [done|]. rewrite !append_cons.
  intros [= H]. by apply IH.
Qed.

Lemma append_inj_r (x y s : string) : x +:+ s = y +:+ s → x = y.
Proof.
  revert y. induction x as [|c x IH]; intros [|d y] H.
  - done.
  - change ("" +:+ s) with s in H. apply (f_equal String.length) in H.
    rewrite append_cons in H. cbn in H. rewrite append_length in H. lia.
  - change ("" +:+ s) with s in H. apply (f_equal String.length) in H.
    rewrite append_cons in H. cbn in H. rewrite append_length in H. lia.
  - rewrite !append_cons in H. injection H as -> H. f_equal. by apply IH.
Qed.

Lemma prefix_append (a x y : string) :
  String.prefix (a +:+ x) (a +:+ y) = String.prefix x y.
Proof.
  induction a as [|c a IH]; [done|]. rewrite !append_cons. cbn.
  by destruct (ascii_dec c c).
Qed.

Lemma prefix_append_r (x y : string) : String.prefix x (x +:+ y) = true.
Proof.
  induction x as [|c x IH]; [by destruct y|]. rewrite append_cons. cbn.
  by destruct (ascii_dec c c).
Qed.

(** X21. The layout of the data bucket.  The archive of every run lies
    under the prefix that [download_unmerged_corpus] lists, while the
    merged corpus and the crash inputs of the same fuzzer do not; two
    runs have different archives and two inputs different crash objects;
    and the crash key is the one [_send_crash] stores under. *)
Theorem data_bucket_layout (name fuzzer_id fuzzer_rev : string) :
  let listed := (BucketData.unmerged_corpus_list name fuzzer_id fuzzer_rev).2 in
  (∀ run_id,
     String.prefix listed
       (BucketData.unmerged_corpus name fuzzer_id fuzzer_rev run_id).2 = true)
  ∧ String.prefix listed
      (BucketData.merged_corpus name fuzzer_id fuzzer_rev).2 = false
  ∧ (∀ input_id,
       String.prefix listed
         (BucketData.crash name fuzzer_id fuzzer_rev input_id).2 = false)
  ∧ (∀ a b, BucketData.unmerged_corpus name fuzzer_id fuzzer_rev a
            = BucketData.unmerged_corpus name fuzzer_id fuzzer_rev b → a = b)
  ∧ (∀ a b, BucketData.crash name fuzzer_id fuzzer_rev a
            = BucketData.crash name fuzzer_id fuzzer_rev b → a = b)
  ∧ (∀ settings input_id,
       entry.crash_key settings input_id
       = BucketData.crash (entry.bucket_data settings)
           (entry.id (entry.fuzzer settings))
           (entry.rev (entry.fuzzer settings)) input_id).
Proof.
  cbn zeta. unfold BucketData.unmerged_corpus_list, BucketData.unmerged_corpus,
    BucketData.merged_corpus, BucketData.crash. cbn [snd].
  split; [|split; [|split; [|split; [|split]]]].
  - intros run_id. rewrite !prefix_append.
    change ("/corpus/tmp/" +:+ run_id +:+ ".tar.gz")
      with ("/corpus/tmp" +:+ ("/" +:+ run_id +:+ ".tar.gz")).
    apply prefix_append_r.
  - by rewrite !prefix_append.
  - intros input_id. by rewrite !prefix_append.
  - intros a b [= H]. do 4 apply append_inj_l in H. by apply append_inj_r in H.
  - intros a b [= H]. do 4 apply append_inj_l in H. by apply append_inj_r in H.
  - done.
Qed.
End layout_extras.

Section error_report_extras.
Import errors manager entry.

(** X22. A run that ends with an exit code other than 0 has either
    failed in the initialization, with exit code 1 and nothing sent, or
    ends with exit code 2 or 3 and one report.  That report counts no
    crashes and has no statistics, whatever crash messages were sent
    before the failure, and its metrics are those of the metrics file
    when it can be read and zeros otherwise. *)
Theorem error_report_shape `{codes : !Codes, libs : !PyLibs}
    (s : Script) (w : World) (exit_code : Z) :
  agent_entry_inner s = (Return exit_code, w) →
  exit_code ≠ 0%Z →
  (exit_code = 1%Z ∧ w = empty_world)
  ∨ ((exit_code = 2%Z ∨ exit_code = 3%Z)
     ∧ ∃ r, run_results w = [r]
            ∧ crashes_found (agent_result r) = 0
            ∧ statistics (agent_result r) = None
            ∧ out_metrics (agent_result r)
              = match read_metrics_err s with
                | Return m => m
                | Raise _ => mkMetrics 0 0
                end
            ∧ (exit_code = 3%Z →
               out_status (agent_result r) = Status_of (InternalError None))).
Proof.
  unfold agent_entry_inner.
  destruct (init s) as [[]|e].
  2:{ destruct e; intros [= <- <-] Hne; try done; by left. }
  unfold finally_shutdown.
  assert (∀ p : Outcome Z * World,
            (match shutdown s with
             | Return _ => (p.1, add_shutdown p.2)
             | Raise e => (Raise e, add_shutdown p.2)
             end) = (Return exit_code, w) →
            p.1 = Return exit_code ∧ run_results p.2 = run_results w) as Hfin.
  { intros [o w0]. destruct (shutdown s); [|done]. by intros [= -> <-]. }
  intros (Hexit & Hrr)%Hfin Hne. right. rewrite <- Hrr. clear Hfin Hrr.
  assert (∀ e code w0,
            run_results w0 = [] →
            (report_and_return s true e code w0).1 = Return exit_code →
            code = exit_code
            ∧ ∃ r, run_results (report_and_return s true e code w0).2 = [r]
                   ∧ crashes_found (agent_result r) = 0
                   ∧ statistics (agent_result r) = None
                   ∧ out_metrics (agent_result r)
                     = match read_metrics_err s with
                       | Return m => m
                       | Raise _ => mkMetrics 0 0
                       end
                   ∧ out_status (agent_result r) = Status_of e) as Hrep.
  { intros e code w0 Hw0. unfold report_and_return, _dump_err.
    destruct (produce_err s); [|done]. cbn. intros [= ->].
    split; [done|]. rewrite Hw0. eexists. split; [done|]. done. }
  destruct (setup s) as [[]|e].
  2:{ revert Hexit. unfold handlers, report_and_return.
      destruct e; try done; intros [= <-]; done. }
  pose proof (measured_reports s empty_world) as Hm.
  destruct (measured s empty_world) as [[[]|e] w1]; cbn [fst snd] in *.
  { by injection Hexit as <-. }
  cbn in Hm. unfold handlers in *.
  destruct e as [a|st reason| |name|name]; try done.
  - destruct (Hrep a 2%Z w1 Hm Hexit) as (<- & r & H1 & H2 & H3 & H4 & _).
    split; [by left|]. exists r. by repeat split.
  - destruct (Hrep (InternalError None) 3%Z w1 Hm Hexit)
      as (<- & r & H1 & H2 & H3 & H4 & H5).
    split; [by right|]. exists r. by repeat split.
  - by injection Hexit as <-.
  - destruct (Hrep (InternalError None) 3%Z w1 Hm Hexit)
      as (<- & r & H1 & H2 & H3 & H4 & H5).
    split; [by right|]. exists r. by repeat split.
Qed.

(** A run in which the crash message has gone out and the report of the
    success path cannot be produced: the report that follows counts no
    crash. *)
Lemma error_report_shape_witness :
  let s :=
    mkScript samples.settings (Return tt) (Return tt) (Return tt)
      (λ _, samples.ready) (λ _, Return tt) "run-" (Return tt) (Return tt)
      "2024-01-01T00:00:00Z" "2024-01-01T00:01:00Z"
      (Return tt, samples.mode) (Return (mkMetrics 1 2)) (λ m, (Return tt, m))
      (λ _, samples.send_env) (Raise (PyException "KafkaError"))
      (Return (mkMetrics 1 2)) (Return tt) (Return tt) in
  let w := (agent_entry_inner (codes := samples.codes)
              (libs := samples.libs) s).2 in
  length (new_crashes w) = 1
  ∧ ∃ r, run_results w = [r] ∧ crashes_found (agent_result r) = 0.
Proof.
  intros s w. split; [reflexivity|].
  assert (agent_entry_inner (codes := samples.codes) (libs := samples.libs) s
          = (Return 3%Z, w)) as Hrun by (vm_compute; reflexivity).
  destruct (error_report_shape (codes := samples.codes)
              (libs := samples.libs) s w 3%Z Hrun ltac:(discriminate))
    as [[Hone _]|[_ (r & Hr & Hc & _)]]; [discriminate Hone|].
  by exists r.
Defined.
End error_report_extras.
